(** * ideAlarm: a shallow embedding of the multi-zone alarm state machine

    Source: [Lib/community/idealarm/__init__.py] together with the helpers
    of [Lib/core/utils.py] it calls ([getItemValue],
    [post_update_if_different], [send_command_if_different]).

    Python objects are mutable, and an exception leaves every mutation made
    before it in place.  Methods are therefore embedded in a state monad
    whose result is either [Ok a s] or [Raise e s], both carrying the state
    reached.  A zone method runs on the pair (zone object, device world);
    a method of the alarm system runs on (list of zone objects, device
    world).  The device world holds the item registry and a chronological
    trace of everything the code sends to its collaborators (updates,
    commands, hook calls, the one-second pause).

    Logging is not modelled: log calls neither read nor write alarm state.
    [getOpenSensors] and [getLastUpdate] (clock and persistence service) and
    [get_triggers] (rule registration) are not embedded; none of the
    properties below goes through them. *)

From Stdlib Require Import ZArith Bool Ascii DecimalString DecimalPos.
From stdpp Require Import base option list strings gmap.

(** ** Outcome of running Python code *)

Inductive Exn :=
| IdeAlarmError (msg : string)
| ItemNotFoundException (itemName : string)
| AttributeError
| IndexError
| ValueError
| TypeError.

Inductive Res (S A : Type) :=
| Ok (a : A) (s : S)
| Raise (e : Exn) (s : S).
Arguments Ok {S A} a s.
Arguments Raise {S A} e s.

Definition M (S A : Type) : Type := S -> Res S A.

Definition raise {S A} (e : Exn) : M S A := fun s => Raise e s.
Definition get {S} : M S S := fun s => Ok s s.
Definition put {S} (s : S) : M S unit := fun _ => Ok tt s.

#[global] Instance M_ret {S} : MRet (M S) := fun A a s => Ok a s.

#[global] Instance M_bind {S} : MBind (M S) := fun A B f m s =>
  match m s with
  | Ok a s' => f a s'
  | Raise e s' => Raise e s'
  end.

(** The state reached, whether the code returned or raised. *)
Definition final {S A} (r : Res S A) : S :=
  match r with Ok _ s => s | Raise _ s => s end.

(** [for x in l: body x] with no [break]. *)
Fixpoint forM_ {S A} (l : list A) (body : A -> M S unit) : M S unit :=
  match l with
  | [] => mret tt
  | x :: l' => body x ;; forM_ l' body
  end.

(** [[f x for x in l]], left to right. *)
Fixpoint mapM {S A B} (f : A -> M S B) (l : list A) : M S (list B) :=
  match l with
  | [] => mret []
  | x :: l' => y ← f x; ys ← mapM f l'; mret (y :: ys)
  end.

(** ** The device layer *)

(** Item states the alarm code reads or writes.  A Python [int] written to
    an item is the decimal state it parses to. *)
Inductive State := ON | OFF | OPEN | CLOSED | NULL | UNDEF | Decimal (n : Z).

#[global] Instance State_eq_dec : EqDecision State.
Proof. solve_decision. Defined.

Inductive ItemKind := SwitchItem | ContactItem | NumberItem.

#[global] Instance ItemKind_eq_dec : EqDecision ItemKind.
Proof. solve_decision. Defined.

Record Item := {
  state : State;
  kind : ItemKind;
  groupNames : list string
}.

Definition set_state (item : Item) (v : State) : Item :=
  {| state := v; kind := kind item; groupNames := groupNames item |}.

(** What the code hands to its collaborators, in order. *)
Inductive Event :=
| PostUpdate (itemName : string) (v : State)
| SendCommand (itemName : string) (v : State)
| OnArmingWithOpenSensors (zoneNumber : Z) (newArmingMode : Z)
| OnArmingModeChange (zoneNumber : Z) (newArmingMode : Z) (oldArmingMode : option Z)
| OnZoneStatusChange (zoneNumber : Z) (newZoneStatus : Z)
    (oldZoneStatus : option Z) (errorMessage : option string)
| OnNagTimer (zoneNumber : Z) (nagSensors : list string)
| Sleep (seconds : Z).

Record World := {
  items : gmap string Item;
  trace : list Event
}.

Definition emit (e : Event) : M World unit :=
  fun w => Ok tt {| items := items w; trace := trace w ++ [e] |}.

(** Modelled from the spec: the platform's item registry, type parser and
    event bus (Java code that is not under src/).  The spec's device layer
    is a store of on/off/open/closed/numeric values with a write that is a
    no-op when the current value already equals the target.  An item
    accepts the states of its kind and the two undefined states; a contact
    accepts no command.  An accepted update or command is installed at
    once.  [itemRegistry.getItem] raises for an unknown name, as the
    docstring of [getItemValue] says. *)
Module scope.

Definition parseState (k : ItemKind) (v : State) : option State :=
  match k, v with
  | _, (NULL | UNDEF) => Some v
  | SwitchItem, (ON | OFF) => Some v
  | ContactItem, (OPEN | CLOSED) => Some v
  | NumberItem, Decimal _ => Some v
  | _, _ => None
  end.

Definition parseCommand (k : ItemKind) (v : State) : option State :=
  match k, v with
  | SwitchItem, (ON | OFF) => Some v
  | NumberItem, Decimal _ => Some v
  | _, _ => None
  end.

Definition getItem (itemName : string) : M World Item :=
  fun w => match items w !! itemName with
           | Some item => Ok item w
           | None => Raise (ItemNotFoundException itemName) w
           end.

Definition store (itemName : string) (v : State) : M World unit :=
  fun w => match items w !! itemName with
           | Some item =>
               Ok tt {| items := <[itemName := set_state item v]> (items w);
                        trace := trace w |}
           | None => Raise (ItemNotFoundException itemName) w
           end.

Definition postUpdate (itemName : string) (v : State) : M World unit :=
  store itemName v ;; emit (PostUpdate itemName v).

Definition sendCommand (itemName : string) (v : State) : M World unit :=
  store itemName v ;; emit (SendCommand itemName v).

End scope.

(** ** core.utils *)
Module utils.

(** [getItemValue(name, default)] with an [int] default: the item's
    [intValue()] unless its state is NULL or UNDEF.  Only a decimal state
    has [intValue]. *)
Definition getItemValue_int (itemName : string) (default_value : Z) : M World Z :=
  item ← scope.getItem itemName;
  match state item with
  | NULL | UNDEF => mret default_value
  | Decimal n => mret n
  | _ => raise AttributeError
  end.

(** [getItemValue(name, default)] with ON, OFF, OPEN or CLOSED as the
    default: the item's state unless it is NULL or UNDEF. *)
Definition getItemValue_state (itemName : string) (default_value : State) : M World State :=
  item ← scope.getItem itemName;
  match state item with
  | NULL | UNDEF => mret default_value
  | s => mret s
  end.

(** The float-precision clause of the source is dead here: the alarm
    code never writes a float. *)
Definition post_update_if_different (itemName : string) (new_value : State)
    (sendACommand : bool) : M World bool :=
  item ← scope.getItem itemName;
  let compare_value :=
    if sendACommand then scope.parseCommand (kind item) new_value
    else scope.parseState (kind item) new_value in
  match compare_value with
  | Some cv =>
      if decide (state item <> cv) then
        (if sendACommand then scope.sendCommand itemName new_value
         else scope.postUpdate itemName new_value) ;;
        mret true
      else mret false
  | None => mret false
  end.

Definition send_command_if_different (itemName : string) (new_value : State) : M World bool :=
  post_update_if_different itemName new_value true.

(** [kw(dictionary, value)], the dictionary as its items in iteration
    order.  The loop variable [value] shadows the argument, so the test
    compares each value with itself. *)
Fixpoint kw (dictionary : list (string * Z)) (value : Z) : option string :=
  match dictionary with
  | [] => None
  | (key, value) :: dictionary' =>
      if decide (value = value) then Some key else kw dictionary' value
  end.

End utils.

(** ** Constants and configuration *)

Module ZONESTATUS.
Definition NORMAL : Z := 0.
Definition ALERT : Z := 1.
Definition ERROR : Z := 2.
Definition TRIPPED : Z := 3.
Definition ARMING : Z := 4.
End ZONESTATUS.

Module ARMINGMODE.
Definition DISARMED : Z := 0.
Definition ARMED_HOME : Z := 1.
Definition ARMED_AWAY : Z := 2.
End ARMINGMODE.

(** Modelled from the spec: the user's hook module [personal.idealarm.custom]
    (not under src/).  The spec's custom hook registry is zero or more
    optional callables bound by name, the absence of a hook being no error.
    A field says whether [dir(custom)] lists the hook; a call is recorded in
    the trace and, the hook being a notification, changes nothing else. *)
Record Custom := {
  has_onArmingWithOpenSensors : bool;
  has_onArmingModeChange : bool;
  has_onZoneStatusChange : bool;
  has_onNagTimer : bool
}.

(** The part of the user's [configuration] module the methods below read:
    [customGroupNames['lockDevice']] and the hook module. *)
Record Configuration := {
  lockDevice : string;
  custom : Custom
}.

(** Modelled from the spec: the persistence service and the clock (Java
    code that is not under src/).  The spec's persistence query gives the
    time of the last change of a device and may fail; the time is in
    milliseconds since the epoch, [None] standing for a failed or empty
    query.  [now k] is the clock as read while the sensor at position [k] of
    a loop is examined. *)
Record Services := {
  lastUpdate : string -> option Z;
  now : nat -> Z
}.

(** [str(n)] of a Python integer. *)
Definition str (n : Z) : string := NilEmpty.string_of_int (Z.to_int n).

(** ["Z{}_<suffix>".format(zoneNumber)] *)
Definition zoneItem (zoneNumber : Z) (suffix : string) : string :=
  "Z" +:+ str zoneNumber +:+ suffix.

(** [isActive(item)]: ON or OPEN, inverted for a member of the lock group. *)
Definition isActive (cfg : Configuration) (item : Item) : bool :=
  let active := bool_decide (state item ∈ [ON; OPEN]) in
  if bool_decide (lockDevice cfg ∈ groupNames item) then negb active else active.

(** ** IdeAlarmSensor *)
Module IdeAlarmSensor.

(** [enabled] is a boolean or a callable in the source; the callable is
    read as a predicate of the item registry. *)
Inductive Enabled :=
| StaticFlag (b : bool)
| Predicate (f : gmap string Item -> bool).

Record t := {
  name : string;
  sensorClass : string;
  nag : bool;
  nagTimeoutMins : Z;
  armWarn : bool;
  enabled : Enabled
}.

(** [IdeAlarmSensor(parent, cfg)]: the configuration entry carries the
    fields of the object; the constructor looks the item up for its label. *)
Definition __init__ (cfg : t) : M World t :=
  item ← scope.getItem (name cfg);
  mret cfg.

Definition isEnabled (self : t) : M World bool :=
  match enabled self with
  | Predicate f => w ← get; mret (f (items w))
  | StaticFlag b => mret b
  end.

Definition isActive (cfg : Configuration) (self : t) : M World bool :=
  item ← scope.getItem (name self);
  mret (isActive cfg item).

(** [getLastUpdate()]: the bare [except] turns every failure, of the item
    lookup or of the persistence query, into the epoch. *)
Definition getLastUpdate (svc : Services) (self : t) : M World Z :=
  fun w => match scope.getItem (name self) w with
           | Ok item w' =>
               match lastUpdate svc (name self) with
               | Some t => Ok t w'
               | None => Ok 0%Z w'
               end
           | Raise _ w' => Ok 0%Z w'
           end.

End IdeAlarmSensor.

(** ** IdeAlarmZone *)
Module IdeAlarmZone.

Import ZONESTATUS ARMINGMODE.

Record t := {
  _armingMode : option Z;          (* None until the constructor sets it *)
  _zoneStatus : option Z;
  zoneNumber : Z;
  alertDevices : list string;
  name : string;
  armAwayToggleSwitch : string;
  armHomeToggleSwitch : string;
  mainZone : bool;
  canArmWithTrippedSensors : bool;
  alarmTestMode : bool;
  sensors : list IdeAlarmSensor.t;
  armingModeItem : string;
  statusItem : string;
  openSections : Z
}.

Definition with_armingMode (v : option Z) (z : t) : t :=
  {| _armingMode := v; _zoneStatus := _zoneStatus z; zoneNumber := zoneNumber z;
     alertDevices := alertDevices z; name := name z;
     armAwayToggleSwitch := armAwayToggleSwitch z;
     armHomeToggleSwitch := armHomeToggleSwitch z; mainZone := mainZone z;
     canArmWithTrippedSensors := canArmWithTrippedSensors z;
     alarmTestMode := alarmTestMode z; sensors := sensors z;
     armingModeItem := armingModeItem z; statusItem := statusItem z;
     openSections := openSections z |}.

Definition with_zoneStatus (v : option Z) (z : t) : t :=
  {| _armingMode := _armingMode z; _zoneStatus := v; zoneNumber := zoneNumber z;
     alertDevices := alertDevices z; name := name z;
     armAwayToggleSwitch := armAwayToggleSwitch z;
     armHomeToggleSwitch := armHomeToggleSwitch z; mainZone := mainZone z;
     canArmWithTrippedSensors := canArmWithTrippedSensors z;
     alarmTestMode := alarmTestMode z; sensors := sensors z;
     armingModeItem := armingModeItem z; statusItem := statusItem z;
     openSections := openSections z |}.

Definition with_openSections (v : Z) (z : t) : t :=
  {| _armingMode := _armingMode z; _zoneStatus := _zoneStatus z;
     zoneNumber := zoneNumber z;
     alertDevices := alertDevices z; name := name z;
     armAwayToggleSwitch := armAwayToggleSwitch z;
     armHomeToggleSwitch := armHomeToggleSwitch z; mainZone := mainZone z;
     canArmWithTrippedSensors := canArmWithTrippedSensors z;
     alarmTestMode := alarmTestMode z; sensors := sensors z;
     armingModeItem := armingModeItem z; statusItem := statusItem z;
     openSections := v |}.

(** An entry of [idealarm_configuration['ALARM_ZONES']]. *)
Module Entry.
Record t := {
  alertDevices : list string;
  name : string;
  armAwayToggleSwitch : string;
  armHomeToggleSwitch : string;
  mainZone : bool;
  canArmWithTrippedSensors : bool;
  sensors : list IdeAlarmSensor.t;
  armingModeItem : string;
  statusItem : string
}.
End Entry.

(** A method runs on the zone object and the device world. *)
Definition St : Type := t * World.

(** Run the body of a constructor on the new object; the object is the
    result, and it is lost if the body raises. *)
Definition construct (self0 : t) (body : M St unit) : M World t :=
  fun w => match body (self0, w) with
           | Ok _ s => Ok (fst s) (snd s)
           | Raise e s => Raise e (snd s)
           end.

Definition self : M St t := fun s => Ok (fst s) s.

Definition update (f : t -> t) : M St unit := fun s => Ok tt (f (fst s), snd s).

Definition dev {A} (m : M World A) : M St A :=
  fun s => match m (snd s) with
           | Ok a w => Ok a (fst s, w)
           | Raise e w => Raise e (fst s, w)
           end.

Section Methods.

Context (cfg : Configuration).

Definition getArmingMode : M St (option Z) := z ← self; mret (_armingMode z).

Definition getZoneStatus : M St (option Z) := z ← self; mret (_zoneStatus z).

Definition setZoneStatus (newZoneStatus : Z) (sendCommand : bool)
    (errorMessage : option string) : M St unit :=
  if decide (newZoneStatus ∉ [NORMAL; ALERT; ERROR; TRIPPED; ARMING]) then
    raise (IdeAlarmError "Trying to set an invalid zone status")
  else
    z ← self;
    let oldZoneStatus := _zoneStatus z in
    update (with_zoneStatus (Some newZoneStatus)) ;;
    (if decide (newZoneStatus ∈ [NORMAL]) then
       (* Cancel all timers so they won't fire *)
       dev (utils.post_update_if_different (zoneItem (zoneNumber z) "_Entry_Timer") OFF false) ;;
       dev (utils.post_update_if_different (zoneItem (zoneNumber z) "_Exit_Timer") OFF false) ;;
       dev (utils.post_update_if_different (zoneItem (zoneNumber z) "_Alert_Max_Timer") OFF false) ;;
       (* Cancel sirens *)
       forM_ (alertDevices z) (fun alertDevice =>
         dev (utils.send_command_if_different alertDevice OFF) ;; mret tt)
     else mret tt) ;;
    (* Sync the Zone Status Item *)
    dev (utils.post_update_if_different (statusItem z) (Decimal newZoneStatus) sendCommand) ;;
    (* Call custom function if available *)
    if has_onZoneStatusChange (custom cfg) then
      dev (emit (OnZoneStatusChange (zoneNumber z) newZoneStatus oldZoneStatus errorMessage))
    else mret tt.

(** The part of [setArmingMode] after the open-sensors check, reached
    when that check does not return. *)
Definition setArmingMode_proceed (newArmingMode : Z) (sendCommand : bool)
    (oldArmingMode : option Z) : M St unit :=
  z ← self;
  (* Don't set arming mode to 'ARMED_AWAY' immediately, we need to wait for
     the exit timer *)
  status ← getZoneStatus;
  if decide (newArmingMode = ARMED_AWAY ∧ status ≠ None ∧ status ≠ Some ARMING) then
    setZoneStatus ARMING false None ;;
    dev (utils.post_update_if_different (zoneItem (zoneNumber z) "_Exit_Timer") ON false) ;;
    mret tt
  else
    update (with_armingMode (Some newArmingMode)) ;;
    (* Sync the Item *)
    dev (utils.post_update_if_different (armingModeItem z) (Decimal newArmingMode) sendCommand) ;;
    (if has_onArmingModeChange (custom cfg) then
       dev (emit (OnArmingModeChange (zoneNumber z) newArmingMode oldArmingMode))
     else mret tt) ;;
    (* Whenever the arming mode is set, reset the zones status to NORMAL *)
    setZoneStatus NORMAL false None.

Definition setArmingMode (newArmingMode : Z) (sendCommand : bool) : M St unit :=
  z ← self;
  let oldArmingMode := _armingMode z in
  if decide (newArmingMode ∉ [DISARMED; ARMED_HOME; ARMED_AWAY]) then
    raise (IdeAlarmError ("Trying to set an invalid arming mode: " +:+ str newArmingMode))
  else
    status ← getZoneStatus;
    if decide (newArmingMode ∈ [ARMED_AWAY; ARMED_HOME] ∧ status ≠ Some ARMING
               ∧ status ≠ None ∧ (0 < openSections z)%Z) then
      (if has_onArmingWithOpenSensors (custom cfg) then
         dev (emit (OnArmingWithOpenSensors (zoneNumber z) newArmingMode))
       else mret tt) ;;
      if negb (canArmWithTrippedSensors z) then
        setZoneStatus ERROR false (Some "Arming is not allowed with open sensors") ;;
        dev (emit (Sleep 1)) ;;
        setZoneStatus NORMAL false None
      else setArmingMode_proceed newArmingMode sendCommand oldArmingMode
    else setArmingMode_proceed newArmingMode sendCommand oldArmingMode.

Definition isArmed : M St bool :=
  mode ← getArmingMode; mret (bool_decide (mode ≠ Some DISARMED)).

Definition isDisArmed : M St bool := b ← isArmed; mret (negb b).

Definition onToggleSwitch (itemName : string) : M St unit :=
  z ← self;
  mode ← getArmingMode;
  let newArmingMode :=
    if decide (itemName = armAwayToggleSwitch z) then
      if decide (mode ∈ [Some DISARMED]) then ARMED_AWAY else DISARMED
    else
      if decide (mode ∈ [Some DISARMED]) then ARMED_HOME else DISARMED in
  setArmingMode newArmingMode false.

Definition onEntryTimer : M St unit :=
  z ← self;
  status ← getZoneStatus;
  if decide (status ∉ [Some TRIPPED]) then
    raise (IdeAlarmError "Entry Timer timed out but zone status is not tripped")
  else
    setZoneStatus ALERT false None ;;
    (* We need to make some noise here! *)
    (if negb (alarmTestMode z) then
       forM_ (alertDevices z) (fun alertDevice =>
         dev (utils.send_command_if_different alertDevice ON) ;; mret tt)
     else mret tt) ;;
    dev (utils.post_update_if_different (zoneItem (zoneNumber z) "_Alert_Max_Timer") ON false) ;;
    mret tt.

Definition onExitTimer : M St unit := setArmingMode ARMED_AWAY false.

Definition onAlertMaxTimer : M St unit :=
  z ← self;
  forM_ (alertDevices z) (fun alertDevice =>
    dev (utils.send_command_if_different alertDevice OFF) ;; mret tt).

(** The loop of [getNagSensors]: [nagSensors] is the list built so far. *)
Fixpoint getNagSensors_loop (l : list IdeAlarmSensor.t)
    (nagSensors : list IdeAlarmSensor.t) : M St (list IdeAlarmSensor.t) :=
  match l with
  | [] => mret nagSensors
  | sensor :: l' =>
      en ← dev (IdeAlarmSensor.isEnabled sensor);
      let nagging : M St bool :=
        if (en : bool) then
          act ← dev (IdeAlarmSensor.isActive cfg sensor);
          if (act : bool) && IdeAlarmSensor.nag sensor then
            mode ← getArmingMode; mret (bool_decide (mode = Some DISARMED))
          else mret false
        else mret false in
      hit ← nagging;
      getNagSensors_loop l' (if (hit : bool) then nagSensors ++ [sensor] else nagSensors)
  end.

Definition getNagSensors (timerTimedOut : bool) : M St (list IdeAlarmSensor.t) :=
  z ← self;
  nagSensors ← getNagSensors_loop (sensors z) [];
  (if decide (length nagSensors = 0) then
     (* Cancel the nag timer *)
     dev (utils.post_update_if_different (zoneItem (zoneNumber z) "_Nag_Timer") OFF false) ;;
     mret tt
   else
     dev (utils.post_update_if_different (zoneItem (zoneNumber z) "_Nag_Timer") ON false) ;;
     if timerTimedOut && has_onNagTimer (custom cfg) then
       dev (emit (OnNagTimer (zoneNumber z) (IdeAlarmSensor.name <$> nagSensors)))
     else mret tt) ;;
  mret nagSensors.

(** Does the sensor count as an open section right now? *)
Definition countsAsOpen (sensor : IdeAlarmSensor.t) : M St bool :=
  en ← dev (IdeAlarmSensor.isEnabled sensor);
  if (en : bool) then
    act ← dev (IdeAlarmSensor.isActive cfg sensor);
    if (act : bool) then
      item ← dev (scope.getItem (IdeAlarmSensor.name sensor));
      if decide ("G_Motion" ∉ groupNames item) then mret true
      else mode ← getArmingMode; mret (bool_decide (mode ∈ [Some ARMED_AWAY]))
    else mret false
  else mret false.

Definition countOpenSections : M St Z :=
  z ← self;
  update (with_openSections 0) ;;
  forM_ (sensors z) (fun sensor =>
    c ← countsAsOpen sensor;
    if (c : bool) then update (fun z => with_openSections (openSections z + 1) z)
    else mret tt) ;;
  z' ← self;
  dev (utils.post_update_if_different (zoneItem (zoneNumber z) "_Open_Sections")
         (Decimal (openSections z')) false) ;;
  z'' ← self;
  mret (openSections z'').

Definition onSensorChange (sensor : IdeAlarmSensor.t) : M St unit :=
  z ← self;
  mode ← getArmingMode;
  status ← getZoneStatus;
  let ignored : M St bool :=
    if decide (mode ∉ [Some ARMED_HOME; Some ARMED_AWAY]) then mret true
    else if decide (status ∉ [Some NORMAL]) then mret true
    else if decide (mode = Some ARMED_HOME ∧ IdeAlarmSensor.sensorClass sensor = "B")
    then mret true
    else
      v ← dev (utils.getItemValue_state (zoneItem (zoneNumber z) "_Exit_Timer") OFF);
      mret (bool_decide (v = ON)) in
  ignore ← ignored;
  if (ignore : bool) then mret tt
  else
    setZoneStatus TRIPPED false None ;;
    dev (utils.post_update_if_different (zoneItem (zoneNumber z) "_Entry_Timer") ON false) ;;
    mret tt.

(** The test of [getOpenSensors] that skips a sensor ([continue]), its
    disjuncts evaluated left to right.  A minute is 60000 milliseconds. *)
Definition getOpenSensors_skips (svc : Services) (mins : Z) (isArming : bool) (k : nat)
    (sensor : IdeAlarmSensor.t) : M St bool :=
  en ← dev (IdeAlarmSensor.isEnabled sensor);
  if negb en then mret true
  else
    let inactive : M St bool :=
      if decide (mins = 0%Z) then
        act ← dev (IdeAlarmSensor.isActive cfg sensor); mret (negb act)
      else mret false in
    quiet ← inactive;
    if (quiet : bool) then mret true
    else if isArming && negb (IdeAlarmSensor.armWarn sensor) then mret true
    else if decide (0 < mins)%Z then
      t ← dev (IdeAlarmSensor.getLastUpdate svc sensor);
      mret (bool_decide (t < now svc k - mins * 60000)%Z)
    else mret false.

Fixpoint getOpenSensors_loop (svc : Services) (mins : Z) (armingMode : option Z)
    (isArming : bool) (k : nat) (l : list IdeAlarmSensor.t)
    (openSensors : list IdeAlarmSensor.t) : M St (list IdeAlarmSensor.t) :=
  match l with
  | [] => mret openSensors
  | sensor :: l' =>
      skip ← getOpenSensors_skips svc mins isArming k sensor;
      getOpenSensors_loop svc mins armingMode isArming (S k) l'
        (if (skip : bool) then openSensors
         else if decide (armingMode = Some ARMED_AWAY
                         ∨ (armingMode = Some ARMED_HOME
                            ∧ IdeAlarmSensor.sensorClass sensor ≠ "B"))
              then openSensors ++ [sensor]
              else openSensors)
  end.

(** [getOpenSensors(mins, armingMode, isArming)]; [None] for [armingMode]
    is the default, the zone's current arming mode. *)
Definition getOpenSensors (svc : Services) (mins : Z) (armingMode : option Z)
    (isArming : bool) : M St (list IdeAlarmSensor.t) :=
  z ← self;
  current ← getArmingMode;
  let armingMode := match armingMode with None => current | Some _ => armingMode end in
  if decide (armingMode = Some DISARMED) then mret []
  else getOpenSensors_loop svc mins armingMode isArming 0 (sensors z) [].

(** [IdeAlarmZone(parent, zoneNumber, cfg)], with [parent.alarmTestMode]. *)
Definition __init__ (parent_alarmTestMode : bool) (zoneNumber : Z) (e : Entry.t)
    : M World t :=
  sensors ← mapM IdeAlarmSensor.__init__ (Entry.sensors e);
  construct
    {| _armingMode := None; _zoneStatus := None; zoneNumber := zoneNumber;
       alertDevices := Entry.alertDevices e; name := Entry.name e;
       armAwayToggleSwitch := Entry.armAwayToggleSwitch e;
       armHomeToggleSwitch := Entry.armHomeToggleSwitch e;
       mainZone := Entry.mainZone e;
       canArmWithTrippedSensors := Entry.canArmWithTrippedSensors e;
       alarmTestMode := parent_alarmTestMode; sensors := sensors;
       armingModeItem := Entry.armingModeItem e; statusItem := Entry.statusItem e;
       openSections := 0 |}
    (n ← countOpenSections;
     update (with_openSections n) ;;
     mode ← dev (utils.getItemValue_int (Entry.armingModeItem e) DISARMED);
     (* Will also set the zone status to normal *)
     setArmingMode mode false).

End Methods.

End IdeAlarmZone.

(** ** IdeAlarm *)
Module IdeAlarm.

Import ZONESTATUS ARMINGMODE.

(** The [zone] argument of the query methods: an ordinal or a name. *)
Inductive PyVal := PyInt (n : Z) | PyStr (s : string).

#[global] Instance PyVal_eq_dec : EqDecision PyVal.
Proof. solve_decision. Defined.

(** The triggering event; only its item name is read. *)
Record event := { itemName : string }.

(** A method runs on the list of zone objects and the device world. *)
Definition St : Type := list IdeAlarmZone.t * World.

Definition alarmZones : M St (list IdeAlarmZone.t) := fun s => Ok (fst s) s.

Definition world {A} (m : M World A) : M St A :=
  fun s => match m (snd s) with
           | Ok a w => Ok a (fst s, w)
           | Raise e w => Raise e (fst s, w)
           end.

(** Run the body of the constructor on the zones built so far; the zones
    are the result. *)
Definition construct (alarmZones0 : list IdeAlarmZone.t) (body : M St unit)
    : M World (list IdeAlarmZone.t) :=
  fun w => match body (alarmZones0, w) with
           | Ok _ s => Ok (fst s) (snd s)
           | Raise e s => Raise e (snd s)
           end.

(** Run a method of the zone object at position [i]; the object is
    mutated in place. *)
Definition onZone {A} (i : nat) (m : M IdeAlarmZone.St A) : M St A :=
  fun s => match fst s !! i with
           | None => Raise IndexError s
           | Some z =>
               match m (z, snd s) with
               | Ok a s' => Ok a (<[i := fst s']> (fst s), snd s')
               | Raise e s' => Raise e (<[i := fst s']> (fst s), snd s')
               end
           end.

(** [str(zone)], [s.isdigit()] and [int(zone)] of Python. *)
Definition py_str (v : PyVal) : string :=
  match v with PyInt n => str n | PyStr s => s end.

Definition is_digit (c : ascii) : bool :=
  (48 <=? nat_of_ascii c) && (nat_of_ascii c <=? 57).

Fixpoint all_digits (s : string) : bool :=
  match s with
  | EmptyString => true
  | String c s' => is_digit c && all_digits s'
  end.

Definition isdigit (s : string) : bool :=
  match s with
  | EmptyString => false
  | _ => all_digits s
  end.

Definition int (v : PyVal) : M St Z :=
  match v with
  | PyInt n => mret n
  | PyStr s =>
      match NilEmpty.uint_of_string s with
      | Some d => mret (Z.of_uint d)
      | None => raise ValueError
      end
  end.

(** [l[i]] of Python, as the position it denotes: a negative index
    counts from the end, [None] is a type error. *)
Definition subscript (l : list IdeAlarmZone.t) (zoneIndex : option Z) : M St nat :=
  match zoneIndex with
  | None => raise TypeError
  | Some i =>
      let len := Z.of_nat (length l) in
      if decide (0 <= i < len)%Z then mret (Z.to_nat i)
      else if decide (- len <= i < 0)%Z then mret (Z.to_nat (len + i))
      else raise IndexError
  end.

Fixpoint getZoneIndex_loop (l : list IdeAlarmZone.t) (zoneName : PyVal) (i : Z) : option Z :=
  match l with
  | [] => None
  | z :: l' =>
      if decide (PyStr (IdeAlarmZone.name z) = zoneName) then Some i
      else getZoneIndex_loop l' zoneName (i + 1)
  end.

(** The warning of the not-found path decodes the name, which an integer
    does not support. *)
Definition getZoneIndex (zoneName : PyVal) : M St (option Z) :=
  zones ← alarmZones;
  match getZoneIndex_loop zones zoneName 0 with
  | Some i => mret (Some i)
  | None =>
      match zoneName with
      | PyInt _ => raise AttributeError
      | PyStr _ => mret None
      end
  end.

Definition zoneIndexOf (zone : PyVal) : M St (option Z) :=
  if isdigit (py_str zone) then n ← int zone; mret (Some (n - 1)%Z)
  else getZoneIndex zone.

Definition isArmed (zone : PyVal) : M St bool :=
  zoneIndex ← zoneIndexOf zone;
  zones ← alarmZones;
  pos ← subscript zones zoneIndex;
  onZone pos IdeAlarmZone.isArmed.

Definition isDisArmed (zone : PyVal) : M St bool :=
  zoneIndex ← zoneIndexOf zone;
  zones ← alarmZones;
  pos ← subscript zones zoneIndex;
  onZone pos IdeAlarmZone.isDisArmed.

Definition getZoneStatus (zone : PyVal) : M St (option Z) :=
  zoneIndex ← zoneIndexOf zone;
  zones ← alarmZones;
  pos ← subscript zones zoneIndex;
  onZone pos IdeAlarmZone.getZoneStatus.

Definition getSensors : M St (list string) :=
  zones ← alarmZones;
  mret (concat ((fun z => IdeAlarmSensor.name <$> IdeAlarmZone.sensors z) <$> zones)).

Fixpoint getAlertingZonesCount_loop (range : list nat) (alertingZones : Z) : M St Z :=
  match range with
  | [] => mret alertingZones
  | i :: range' =>
      status ← getZoneStatus (PyInt (Z.of_nat i));
      getAlertingZonesCount_loop range'
        (if decide (status = Some ALERT) then (alertingZones + 1)%Z else alertingZones)
  end.

Definition getAlertingZonesCount : M St Z :=
  zones ← alarmZones;
  getAlertingZonesCount_loop (seq 0 (length zones)) 0%Z.

Section Execute.

Context (cfg : Configuration).

(** The inner loop of [execute]; its [break] leaves this loop only. *)
Fixpoint execute_sensors (i : nat) (ev : event) (l : list IdeAlarmSensor.t) : M St unit :=
  match l with
  | [] => mret tt
  | sensor :: l' =>
      if decide (itemName ev = IdeAlarmSensor.name sensor) then
        en ← world (IdeAlarmSensor.isEnabled sensor);
        if (en : bool) then
          item ← world (scope.getItem (itemName ev));
          (if isActive cfg item then onZone i (IdeAlarmZone.onSensorChange cfg sensor)
           else mret tt) ;;
          onZone i (IdeAlarmZone.getNagSensors cfg false) ;;
          onZone i (IdeAlarmZone.countOpenSections cfg) ;;
          mret tt
        else mret tt
      else execute_sensors i ev l'
  end.

(** The outer loop of [execute] over [range(len(self.alarmZones))]. *)
Fixpoint execute_zones (ev : event) (range : list nat) : M St unit :=
  match range with
  | [] => mret tt
  | i :: range' =>
      alarmZone ← onZone i IdeAlarmZone.self;
      let n := Z.of_nat (i + 1) in
      if decide (itemName ev ∈ [IdeAlarmZone.armAwayToggleSwitch alarmZone;
                                IdeAlarmZone.armHomeToggleSwitch alarmZone]) then
        onZone i (IdeAlarmZone.onToggleSwitch cfg (itemName ev))
      else if decide (itemName ev = zoneItem n "_Entry_Timer") then
        onZone i (IdeAlarmZone.onEntryTimer cfg)
      else if decide (itemName ev = zoneItem n "_Exit_Timer") then
        onZone i (IdeAlarmZone.onExitTimer cfg)
      else if decide (itemName ev = zoneItem n "_Nag_Timer") then
        onZone i (IdeAlarmZone.getNagSensors cfg true) ;; mret tt
      else if decide (itemName ev = zoneItem n "_Alert_Max_Timer") then
        onZone i IdeAlarmZone.onAlertMaxTimer
      else
        execute_sensors i ev (IdeAlarmZone.sensors alarmZone) ;;
        execute_zones ev range'
  end.

Definition execute (ev : event) : M St unit :=
  zones ← alarmZones;
  execute_zones ev (seq 0 (length zones)).

(** The first loop of the constructor: zone [i + 1] from entry [i]. *)
Fixpoint __init___zones (alarmTestMode : bool) (i : nat) (entries : list IdeAlarmZone.Entry.t)
    : M World (list IdeAlarmZone.t) :=
  match entries with
  | [] => mret []
  | e :: entries' =>
      z ← IdeAlarmZone.__init__ cfg alarmTestMode (Z.of_nat (i + 1)) e;
      zones ← __init___zones alarmTestMode (S i) entries';
      mret (z :: zones)
  end.

(** [IdeAlarm()], from [ALARM_TEST_MODE] and [ALARM_ZONES] of the
    configuration: the zones in order, then one nag pass over each. *)
Definition __init__ (alarmTestMode : bool) (entries : list IdeAlarmZone.Entry.t)
    : M World (list IdeAlarmZone.t) :=
  zones ← __init___zones alarmTestMode 0 entries;
  construct zones
    (forM_ (seq 0 (length zones))
       (fun i => onZone i (IdeAlarmZone.getNagSensors cfg false) ;; mret tt)).

End Execute.

End IdeAlarm.

(** ** Specification vocabulary *)

(** [hoare P m Q E]: from a state in [P], [m] either returns [a] in a state
    satisfying [Q a] or raises [e] in a state satisfying [E e]. *)
Definition hoare {S A} (P : S -> Prop) (m : M S A)
    (Q : A -> S -> Prop) (E : Exn -> S -> Prop) : Prop :=
  ∀ s, P s -> match m s with
              | Ok a s' => Q a s'
              | Raise e s' => E e s'
              end.

(** What a device reads, and what kind of item it is. *)
Definition reads (w : World) (itemName : string) (v : State) : Prop :=
  state <$> items w !! itemName = Some v.

Definition has_kind (w : World) (itemName : string) (k : ItemKind) : Prop :=
  kind <$> items w !! itemName = Some k.

Definition known (w : World) (itemName : string) : Prop :=
  is_Some (items w !! itemName).

(** Does an item of kind [k] accept [v], as a command or as a state? *)
Definition accepted (sendACommand : bool) (k : ItemKind) (v : State) : bool :=
  bool_decide (is_Some (if sendACommand then scope.parseCommand k v
                        else scope.parseState k v)).

(** The registry after [post_update_if_different itemName v sendACommand]. *)
Definition write_item (v : State) (sendACommand : bool) (item : Item) : Item :=
  if accepted sendACommand (kind item) v then set_state item v else item.

Definition written (itemName : string) (v : State) (sendACommand : bool)
    (m : gmap string Item) : gmap string Item :=
  alter (write_item v sendACommand) itemName m.

Definition write_event (itemName : string) (v : State) (sendACommand : bool) : Event :=
  if sendACommand then SendCommand itemName v else PostUpdate itemName v.

(** The registry after writing [v] to every device of [l] in turn. *)
Definition write_all (v : State) (sendACommand : bool) (l : list string)
    (m : gmap string Item) : gmap string Item :=
  foldl (fun m d => written d v sendACommand m) m l.

(** The four timer devices of a zone. *)
Definition timerItems (z : IdeAlarmZone.t) : list string :=
  [zoneItem (IdeAlarmZone.zoneNumber z) "_Entry_Timer";
   zoneItem (IdeAlarmZone.zoneNumber z) "_Exit_Timer";
   zoneItem (IdeAlarmZone.zoneNumber z) "_Nag_Timer";
   zoneItem (IdeAlarmZone.zoneNumber z) "_Alert_Max_Timer"].

(** The sensor queries as functions of the registry. *)
Definition enabled_now (w : World) (sensor : IdeAlarmSensor.t) : bool :=
  match IdeAlarmSensor.enabled sensor with
  | IdeAlarmSensor.StaticFlag b => b
  | IdeAlarmSensor.Predicate f => f (items w)
  end.

Definition active_now (cfg : Configuration) (w : World) (sensor : IdeAlarmSensor.t) : bool :=
  match items w !! IdeAlarmSensor.name sensor with
  | Some item => isActive cfg item
  | None => false
  end.

Definition in_motion_group (w : World) (sensor : IdeAlarmSensor.t) : bool :=
  match items w !! IdeAlarmSensor.name sensor with
  | Some item => bool_decide ("G_Motion" ∈ groupNames item)
  | None => false
  end.

(** The open-sections count in the words of the specification: the enabled
    and active sensors, a sensor of the motion group counting only when the
    zone is armed away. *)
Definition open_section (cfg : Configuration) (mode : option Z) (w : World)
    (sensor : IdeAlarmSensor.t) : bool :=
  enabled_now w sensor && active_now cfg w sensor
  && (negb (in_motion_group w sensor) || bool_decide (mode = Some ARMINGMODE.ARMED_AWAY)).

Definition open_count (cfg : Configuration) (mode : option Z) (w : World)
    (sensors : list IdeAlarmSensor.t) : Z :=
  Z.of_nat (length (List.filter (open_section cfg mode w) sensors)).

(** Is the zone alerting, by its own status? *)
Definition alerting (z : IdeAlarmZone.t) : bool :=
  bool_decide (IdeAlarmZone._zoneStatus z = Some ZONESTATUS.ALERT).

(** The devices [setZoneStatus] switches off on NORMAL: the entry, exit
    and alert-max timers of zone [n] and the alert devices [ads]. *)
Definition guarded (n : Z) (ads : list string) : list string :=
  [zoneItem n "_Entry_Timer"; zoneItem n "_Exit_Timer"; zoneItem n "_Alert_Max_Timer"]
  ++ ads.

(** The registry after the NORMAL branch of [setZoneStatus]. *)
Definition normal_items (n : Z) (ads : list string) (m : gmap string Item) : gmap string Item :=
  write_all OFF true ads
    (write_all OFF false
       [zoneItem n "_Entry_Timer"; zoneItem n "_Exit_Timer"; zoneItem n "_Alert_Max_Timer"] m).

(** The registry after [setZoneStatus newZoneStatus sendCommand]. *)
Definition status_items (z : IdeAlarmZone.t) (newZoneStatus : Z) (sendCommand : bool)
    (m : gmap string Item) : gmap string Item :=
  written (IdeAlarmZone.statusItem z) (Decimal newZoneStatus) sendCommand
    (if decide (newZoneStatus = ZONESTATUS.NORMAL)
     then normal_items (IdeAlarmZone.zoneNumber z) (IdeAlarmZone.alertDevices z) m
     else m).

(** Updates and commands are writes; hook calls and the pause are
    notifications. *)
Definition is_write (e : Event) : bool :=
  match e with
  | PostUpdate _ _ | SendCommand _ _ => true
  | _ => false
  end.

Definition notifications (evs : list Event) : list Event :=
  List.filter (fun e => negb (is_write e)) evs.

(** A computation that leaves the state as it is, returning or raising. *)
Definition readonly {S A} (m : M S A) : Prop := ∀ s, final (m s) = s.

(** The invariant of zone [n] with alert devices [ads]: the guarded devices
    are switches, and they all read OFF whenever the status is NORMAL. *)
Definition zone_inv (n : Z) (ads : list string) (s : IdeAlarmZone.St) : Prop :=
  IdeAlarmZone.zoneNumber (fst s) = n
  ∧ IdeAlarmZone.alertDevices (fst s) = ads
  ∧ (∀ j, j ∈ guarded n ads -> has_kind (snd s) j SwitchItem)
  ∧ (IdeAlarmZone._zoneStatus (fst s) = Some ZONESTATUS.NORMAL ->
     ∀ j, j ∈ guarded n ads -> reads (snd s) j OFF).

(** The invariant together with a condition on the status. *)
Definition inv_with (n : Z) (ads : list string) (A : option Z -> Prop)
    (s : IdeAlarmZone.St) : Prop :=
  zone_inv n ads s ∧ A (IdeAlarmZone._zoneStatus (fst s)).

(** A triple of the invariant: from a status in [A] to a status in [B],
    the invariant holding before, after, and if the code raises. *)
Definition zone_triple (n : Z) (ads : list string) {T} (A : option Z -> Prop)
    (m : M IdeAlarmZone.St T) (B : option Z -> Prop) : Prop :=
  hoare (inv_with n ads A) m (fun _ => inv_with n ads B)
    (fun _ => inv_with n ads (fun _ => True)).

(** The calls a zone receives. *)
Inductive call :=
| SetZoneStatus (newZoneStatus : Z) (sendCommand : bool) (errorMessage : option string)
| SetArmingMode (newArmingMode : Z) (sendCommand : bool)
| OnToggleSwitch (itemName : string)
| OnEntryTimer
| OnExitTimer
| OnAlertMaxTimer
| GetNagSensors (timerTimedOut : bool)
| CountOpenSections
| OnSensorChange (sensor : IdeAlarmSensor.t).

(** The state after a call, whether it returned or raised. *)
Definition after (cfg : Configuration) (c : call) (s : IdeAlarmZone.St) : IdeAlarmZone.St :=
  match c with
  | SetZoneStatus st sc msg => final (IdeAlarmZone.setZoneStatus cfg st sc msg s)
  | SetArmingMode m sc => final (IdeAlarmZone.setArmingMode cfg m sc s)
  | OnToggleSwitch itemName => final (IdeAlarmZone.onToggleSwitch cfg itemName s)
  | OnEntryTimer => final (IdeAlarmZone.onEntryTimer cfg s)
  | OnExitTimer => final (IdeAlarmZone.onExitTimer cfg s)
  | OnAlertMaxTimer => final (IdeAlarmZone.onAlertMaxTimer s)
  | GetNagSensors t => final (IdeAlarmZone.getNagSensors cfg t s)
  | CountOpenSections => final (IdeAlarmZone.countOpenSections cfg s)
  | OnSensorChange sensor => final (IdeAlarmZone.onSensorChange cfg sensor s)
  end.

Definition after_all (cfg : Configuration) (calls : list call) (s : IdeAlarmZone.St)
    : IdeAlarmZone.St :=
  foldl (fun s c => after cfg c s) s calls.

(** The sensors [getNagSensors] collects: enabled, active and set to nag,
    while the zone is disarmed. *)
Definition nagging (cfg : Configuration) (mode : option Z) (w : World)
    (sensor : IdeAlarmSensor.t) : bool :=
  enabled_now w sensor && active_now cfg w sensor && IdeAlarmSensor.nag sensor
  && bool_decide (mode = Some ARMINGMODE.DISARMED).

(** The sensors [getOpenSensors] collects for [mins = 0]. *)
Definition open_sensor (cfg : Configuration) (armingMode : option Z) (isArming : bool)
    (w : World) (sensor : IdeAlarmSensor.t) : bool :=
  enabled_now w sensor && active_now cfg w sensor
  && (negb isArming || IdeAlarmSensor.armWarn sensor)
  && bool_decide (armingMode = Some ARMINGMODE.ARMED_AWAY
                  ∨ (armingMode = Some ARMINGMODE.ARMED_HOME
                     ∧ IdeAlarmSensor.sensorClass sensor ≠ "B")).

(** The devices the event of [execute] can stand for in the zone at
    position [i]: its two toggle switches, its four timers, its sensors. *)
Definition zone_listens (i : nat) (z : IdeAlarmZone.t) (itemName : string) : Prop :=
  itemName ∈ [IdeAlarmZone.armAwayToggleSwitch z; IdeAlarmZone.armHomeToggleSwitch z]
  ∨ itemName ∈ [zoneItem (Z.of_nat (i + 1)) "_Entry_Timer";
                zoneItem (Z.of_nat (i + 1)) "_Exit_Timer";
                zoneItem (Z.of_nat (i + 1)) "_Nag_Timer";
                zoneItem (Z.of_nat (i + 1)) "_Alert_Max_Timer"]
  ∨ itemName ∈ (IdeAlarmSensor.name <$> IdeAlarmZone.sensors z).

(** The values a zone status and an arming mode range over; both are
    unset while the zone is under construction. *)
Definition status_ok (status : option Z) : Prop :=
  status = None
  ∨ ∃ s, status = Some s
         ∧ s ∈ [ZONESTATUS.NORMAL; ZONESTATUS.ALERT; ZONESTATUS.ERROR;
                ZONESTATUS.TRIPPED; ZONESTATUS.ARMING].

Definition mode_ok (mode : option Z) : Prop :=
  mode = None
  ∨ ∃ m, mode = Some m
         ∧ m ∈ [ARMINGMODE.DISARMED; ARMINGMODE.ARMED_HOME; ARMINGMODE.ARMED_AWAY].

(** The part of a zone object that comes from the configuration. *)
Definition settings (z : IdeAlarmZone.t) : IdeAlarmZone.Entry.t * Z * bool :=
  ({| IdeAlarmZone.Entry.alertDevices := IdeAlarmZone.alertDevices z;
      IdeAlarmZone.Entry.name := IdeAlarmZone.name z;
      IdeAlarmZone.Entry.armAwayToggleSwitch := IdeAlarmZone.armAwayToggleSwitch z;
      IdeAlarmZone.Entry.armHomeToggleSwitch := IdeAlarmZone.armHomeToggleSwitch z;
      IdeAlarmZone.Entry.mainZone := IdeAlarmZone.mainZone z;
      IdeAlarmZone.Entry.canArmWithTrippedSensors := IdeAlarmZone.canArmWithTrippedSensors z;
      IdeAlarmZone.Entry.sensors := IdeAlarmZone.sensors z;
      IdeAlarmZone.Entry.armingModeItem := IdeAlarmZone.armingModeItem z;
      IdeAlarmZone.Entry.statusItem := IdeAlarmZone.statusItem z |},
   IdeAlarmZone.zoneNumber z, IdeAlarmZone.alarmTestMode z).

(** ** A small installation, for concrete runs *)
Module Fixture.

Import ZONESTATUS ARMINGMODE.

Definition switch (s : State) (groups : list string) : Item :=
  {| state := s; kind := SwitchItem; groupNames := groups |}.

Definition contact (s : State) (groups : list string) : Item :=
  {| state := s; kind := ContactItem; groupNames := groups |}.

Definition number (n : Z) : Item :=
  {| state := Decimal n; kind := NumberItem; groupNames := [] |}.

Definition hooks : Custom :=
  {| has_onArmingWithOpenSensors := true; has_onArmingModeChange := true;
     has_onZoneStatusChange := true; has_onNagTimer := true |}.

Definition cfg : Configuration := {| lockDevice := "G_Lock"; custom := hooks |}.

Definition sensor (name : string) (class : string) : IdeAlarmSensor.t :=
  {| IdeAlarmSensor.name := name; IdeAlarmSensor.sensorClass := class;
     IdeAlarmSensor.nag := true; IdeAlarmSensor.nagTimeoutMins := 4;
     IdeAlarmSensor.armWarn := true;
     IdeAlarmSensor.enabled := IdeAlarmSensor.StaticFlag true |}.

(** Zone [n] with one siren, its own toggles and the given sensors. *)
Definition zone (n : Z) (name : string) (mode status : Z) (open : Z)
    (sensors : list IdeAlarmSensor.t) : IdeAlarmZone.t :=
  {| IdeAlarmZone._armingMode := Some mode; IdeAlarmZone._zoneStatus := Some status;
     IdeAlarmZone.zoneNumber := n; IdeAlarmZone.alertDevices := ["Siren"];
     IdeAlarmZone.name := name;
     IdeAlarmZone.armAwayToggleSwitch := zoneItem n "_Toggle_Away";
     IdeAlarmZone.armHomeToggleSwitch := zoneItem n "_Toggle_Home";
     IdeAlarmZone.mainZone := true; IdeAlarmZone.canArmWithTrippedSensors := false;
     IdeAlarmZone.alarmTestMode := false; IdeAlarmZone.sensors := sensors;
     IdeAlarmZone.armingModeItem := zoneItem n "_Arming_Mode";
     IdeAlarmZone.statusItem := zoneItem n "_Status";
     IdeAlarmZone.openSections := open |}.

(** The devices of zone [n], all timers off. *)
Definition zoneDevices (n : Z) (mode status : Z) : list (string * Item) :=
  [(zoneItem n "_Entry_Timer", switch OFF []);
   (zoneItem n "_Exit_Timer", switch OFF []);
   (zoneItem n "_Nag_Timer", switch OFF []);
   (zoneItem n "_Alert_Max_Timer", switch OFF []);
   (zoneItem n "_Open_Sections", number 0);
   (zoneItem n "_Arming_Mode", number mode);
   (zoneItem n "_Status", number status);
   (zoneItem n "_Toggle_Away", switch OFF []);
   (zoneItem n "_Toggle_Home", switch OFF [])].

Definition house (siren : State) (door motion : State) (mode status : Z) : World :=
  {| items := list_to_map
       ([("Siren", switch siren []);
         ("FrontDoor", contact door []);
         ("HallMotion", switch motion ["G_Motion"])]
        ++ zoneDevices 1 mode status);
     trace := [] |}.

(** The same house with a second zone, its own devices and the shared siren. *)
Definition estate (door : State) (mode status : Z) : World :=
  {| items := list_to_map
       ([("Siren", switch OFF []);
         ("FrontDoor", contact door []);
         ("HallMotion", switch OFF ["G_Motion"])]
        ++ zoneDevices 1 mode status ++ zoneDevices 2 mode status);
     trace := [] |}.

(** The configuration entry of [zone]. *)
Definition entry (n : Z) (name : string) (sensors : list IdeAlarmSensor.t)
    : IdeAlarmZone.Entry.t :=
  {| IdeAlarmZone.Entry.alertDevices := ["Siren"];
     IdeAlarmZone.Entry.name := name;
     IdeAlarmZone.Entry.armAwayToggleSwitch := zoneItem n "_Toggle_Away";
     IdeAlarmZone.Entry.armHomeToggleSwitch := zoneItem n "_Toggle_Home";
     IdeAlarmZone.Entry.mainZone := true;
     IdeAlarmZone.Entry.canArmWithTrippedSensors := false;
     IdeAlarmZone.Entry.sensors := sensors;
     IdeAlarmZone.Entry.armingModeItem := zoneItem n "_Arming_Mode";
     IdeAlarmZone.Entry.statusItem := zoneItem n "_Status" |}.

Definition frontDoor : IdeAlarmSensor.t := sensor "FrontDoor" "A".
Definition hallMotion : IdeAlarmSensor.t := sensor "HallMotion" "B".

End Fixture.

(** * Properties *)

(** A closed decidable proposition, by evaluating its decision. *)
Ltac by_computation := apply (bool_decide_unpack _); vm_compute; exact I.

(** ** The monad *)

Lemma bind_Ok {S A B} (m : M S A) (f : A -> M S B) (s s' : S) (a : A) :
  m s = Ok a s' -> (m ≫= f) s = f a s'.
Proof. intros H. unfold mbind, M_bind. now rewrite H. Qed.

Lemma bind_Raise {S A B} (m : M S A) (f : A -> M S B) (s s' : S) (e : Exn) :
  m s = Raise e s' -> (m ≫= f) s = Raise e s'.
Proof. intros H. unfold mbind, M_bind. now rewrite H. Qed.

Lemma dev_Ok {A} (m : M World A) z w a w' :
  m w = Ok a w' -> IdeAlarmZone.dev m (z, w) = Ok a (z, w').
Proof. intros H. unfold IdeAlarmZone.dev. simpl. now rewrite H. Qed.

(** ** Construction *)

(** The zones of the small installation are what the constructors build:
    the stored arming mode is installed at once (no exit delay while the
    status is unset) and the status is NORMAL. *)
Example constructed_house :
  ∃ w',
    IdeAlarm.__init__ Fixture.cfg false
      [Fixture.entry 1 "Perimeter" [Fixture.frontDoor; Fixture.hallMotion]]
      (Fixture.house OFF CLOSED OFF 2 0)
    = Ok [Fixture.zone 1 "Perimeter" 2 0 0 [Fixture.frontDoor; Fixture.hallMotion]] w'
    ∧ items w' = items (Fixture.house OFF CLOSED OFF 2 0)
    ∧ trace w' = [OnArmingModeChange 1 2 None; OnZoneStatusChange 1 0 None None].
Proof. eexists. split; [vm_compute; reflexivity|]. split; vm_compute; reflexivity. Qed.

Example constructed_estate :
  ∃ w',
    IdeAlarm.__init__ Fixture.cfg false
      [Fixture.entry 1 "Perimeter" [Fixture.frontDoor];
       Fixture.entry 2 "Annex" [Fixture.frontDoor]]
      (Fixture.estate CLOSED 1 0)
    = Ok [Fixture.zone 1 "Perimeter" 1 0 0 [Fixture.frontDoor];
          Fixture.zone 2 "Annex" 1 0 0 [Fixture.frontDoor]] w'
    ∧ items w' = items (Fixture.estate CLOSED 1 0).
Proof. eexists. split; vm_compute; reflexivity. Qed.

(** A zone with a sensor that is not in the registry cannot be
    constructed. *)
Example construction_needs_devices :
  IdeAlarm.__init__ Fixture.cfg false
    [Fixture.entry 1 "Perimeter" [Fixture.sensor "BackDoor" "A"]]
    (Fixture.house OFF CLOSED OFF 1 0)
  = Raise (ItemNotFoundException "BackDoor") (Fixture.house OFF CLOSED OFF 1 0).
Proof. vm_compute. reflexivity. Qed.

(** ** The device layer *)

Lemma set_state_same item : set_state item (state item) = item.
Proof. now destruct item. Qed.

Lemma parseState_Some k v cv : scope.parseState k v = Some cv -> cv = v.
Proof. destruct k, v; simpl; congruence. Qed.

Lemma parseCommand_Some k v cv : scope.parseCommand k v = Some cv -> cv = v.
Proof. destruct k, v; simpl; congruence. Qed.

Lemma post_update_if_different_Ok (itemName : string) v c (w : World) item :
  items w !! itemName = Some item ->
  ∃ b : bool, utils.post_update_if_different itemName v c w
       = Ok b {| items := written itemName v c (items w);
                 trace := trace w ++ (if b then [write_event itemName v c] else []) |}.
Proof.
  intros Hit. unfold utils.post_update_if_different.
  erewrite bind_Ok by (unfold scope.getItem; rewrite Hit; reflexivity).
  unfold written, write_item, accepted, write_event.
  assert (Hparsed : ∀ cv, (if c then scope.parseCommand (kind item) v
                          else scope.parseState (kind item) v) = Some cv -> cv = v).
  { intros cv. destruct c; [apply parseCommand_Some | apply parseState_Some]. }
  destruct (if c then scope.parseCommand (kind item) v
            else scope.parseState (kind item) v) as [cv|] eqn:Hp.
  - rewrite (Hparsed cv eq_refl). destruct (decide (state item ≠ v)) as [Hne|Heq].
    + exists true. destruct c;
        unfold scope.sendCommand, scope.postUpdate, scope.store, emit, mbind, M_bind, mret, M_ret;
        rewrite Hit; simpl; f_equal; f_equal;
        apply map_eq; intros j; rewrite lookup_alter, lookup_insert;
        destruct (decide (itemName = j)) as [<-|]; try reflexivity;
        rewrite Hit; simpl; rewrite Hp; reflexivity.
    + exists false. apply dec_stable in Heq.
      unfold mret, M_ret. f_equal. destruct w as [m t]; simpl in *. f_equal.
      * apply map_eq; intros j; rewrite lookup_alter.
        destruct (decide (itemName = j)) as [<-|]; try reflexivity.
        rewrite Hit; simpl. rewrite Hp. simpl. rewrite <- Heq, set_state_same. reflexivity.
      * now rewrite app_nil_r.
  - exists false. unfold mret, M_ret. f_equal. destruct w as [m t]; simpl in *. f_equal.
    + apply map_eq; intros j; rewrite lookup_alter.
      destruct (decide (itemName = j)) as [<-|]; try reflexivity.
      rewrite Hit; simpl. rewrite Hp. reflexivity.
    + now rewrite app_nil_r.
Qed.

Lemma post_update_if_different_Raise (itemName : string) v c (w : World) :
  items w !! itemName = None ->
  utils.post_update_if_different itemName v c w = Raise (ItemNotFoundException itemName) w.
Proof.
  intros Hit. unfold utils.post_update_if_different.
  apply bind_Raise. unfold scope.getItem. now rewrite Hit.
Qed.

Lemma written_lookup (itemName : string) v c (m : gmap string Item) :
  written itemName v c m !! itemName = write_item v c <$> m !! itemName.
Proof. unfold written. now rewrite lookup_alter, decide_True. Qed.

Lemma written_lookup_ne (itemName j : string) v c (m : gmap string Item) :
  itemName ≠ j -> written itemName v c m !! j = m !! j.
Proof. intros H. unfold written. now rewrite lookup_alter, decide_False. Qed.

Lemma write_item_kind v c item : kind (write_item v c item) = kind item.
Proof. unfold write_item. now destruct (accepted _ _ _). Qed.

Lemma write_item_groupNames v c item : groupNames (write_item v c item) = groupNames item.
Proof. unfold write_item. now destruct (accepted _ _ _). Qed.

Lemma write_item_state v c item :
  accepted c (kind item) v = true -> state (write_item v c item) = v.
Proof. unfold write_item. now intros ->. Qed.

Lemma written_kind (itemName j : string) v c (m : gmap string Item) :
  kind <$> written itemName v c m !! j = kind <$> m !! j.
Proof.
  destruct (decide (itemName = j)) as [<-|Hne].
  - rewrite written_lookup. destruct (m !! itemName); simpl; [|reflexivity].
    now rewrite write_item_kind.
  - now rewrite written_lookup_ne.
Qed.

Lemma written_reads (itemName : string) v c (m : gmap string Item) k :
  kind <$> m !! itemName = Some k -> accepted c k v = true ->
  state <$> written itemName v c m !! itemName = Some v.
Proof.
  intros Hk Hacc. rewrite written_lookup.
  destruct (m !! itemName) as [item|]; [|discriminate].
  injection Hk as <-. simpl. now rewrite write_item_state.
Qed.

Lemma written_known (itemName j : string) v c (m : gmap string Item) :
  is_Some (written itemName v c m !! j) <-> is_Some (m !! j).
Proof.
  rewrite <- !(fmap_is_Some kind), written_kind. reflexivity.
Qed.

Lemma write_all_lookup_notin v c l (j : string) (m : gmap string Item) :
  j ∉ l -> write_all v c l m !! j = m !! j.
Proof.
  revert m. induction l as [|d l IH]; intros m Hj; simpl; [reflexivity|].
  apply not_elem_of_cons in Hj as [Hne Hj].
  rewrite IH by assumption. now apply written_lookup_ne.
Qed.

Lemma write_all_kind v c l (j : string) (m : gmap string Item) :
  kind <$> write_all v c l m !! j = kind <$> m !! j.
Proof.
  revert m. induction l as [|d l IH]; intros m; simpl; [reflexivity|].
  now rewrite IH, written_kind.
Qed.

Lemma write_all_known v c l (j : string) (m : gmap string Item) :
  is_Some (write_all v c l m !! j) <-> is_Some (m !! j).
Proof. rewrite <- !(fmap_is_Some kind), write_all_kind. reflexivity. Qed.

Lemma write_all_state v c l (d : string) (m : gmap string Item) k :
  d ∈ l -> kind <$> m !! d = Some k -> accepted c k v = true ->
  state <$> write_all v c l m !! d = Some v.
Proof.
  revert m. induction l as [|d' l IH]; intros m Hd Hk Hacc; simpl.
  - now apply elem_of_nil in Hd.
  - destruct (decide (d ∈ l)) as [Hin|Hnin].
    + apply IH; try assumption. now rewrite written_kind.
    + apply elem_of_cons in Hd as [->|?]; [|contradiction].
      rewrite write_all_lookup_notin by assumption.
      rewrite written_lookup.
      destruct (m !! d') as [item|]; simpl in *; [|discriminate].
      injection Hk as <-. now rewrite write_item_state.
Qed.

(** The siren loops of [setZoneStatus], [onEntryTimer] and
    [onAlertMaxTimer]: with every device known, the loop returns, and it
    commands nothing but the devices it was given. *)
Lemma alert_loop_Ok v (z : IdeAlarmZone.t) (l : list string) (w : World) :
  Forall (known w) l ->
  ∃ evs,
    forM_ l (fun alertDevice =>
      IdeAlarmZone.dev (utils.send_command_if_different alertDevice v) ;; mret tt) (z, w)
    = Ok tt (z, {| items := write_all v true l (items w); trace := trace w ++ evs |})
    ∧ Forall (fun e => ∃ d, d ∈ l ∧ e = SendCommand d v) evs.
Proof.
  revert w. induction l as [|d l IH]; intros w Hl.
  - exists []. split; [|constructor]. simpl. unfold mret, M_ret.
    destruct w; simpl. now rewrite app_nil_r.
  - apply Forall_cons in Hl as [[item Hd] Hl].
    destruct (post_update_if_different_Ok d v true w item Hd) as [b Hb].
    set (w1 := {| items := written d v true (items w);
                  trace := trace w ++ (if b then [write_event d v true] else []) |}) in *.
    destruct (IH w1) as [evs [Hrun Hevs]].
    { eapply Forall_impl; [exact Hl|]. intros j Hj. unfold known, w1; simpl.
      now apply written_known. }
    exists ((if b then [SendCommand d v] else []) ++ evs). split.
    + simpl. erewrite bind_Ok; [|erewrite bind_Ok; [reflexivity|]; apply dev_Ok; exact Hb].
      fold w1. rewrite Hrun. unfold w1; simpl. now rewrite app_assoc.
    + apply Forall_app. split.
      * destruct b; constructor; [|constructor]. exists d. split; [left|reflexivity].
      * eapply Forall_impl; [exact Hevs|]. intros e [d' [Hin ->]].
        exists d'. split; [now right|reflexivity].
Qed.

(** ** Sensors *)

Lemma isEnabled_Ok (sensor : IdeAlarmSensor.t) (w : World) :
  IdeAlarmSensor.isEnabled sensor w = Ok (enabled_now w sensor) w.
Proof.
  unfold IdeAlarmSensor.isEnabled, enabled_now.
  now destruct (IdeAlarmSensor.enabled sensor).
Qed.

Lemma isActive_Ok cfg (sensor : IdeAlarmSensor.t) (w : World) :
  known w (IdeAlarmSensor.name sensor) ->
  IdeAlarmSensor.isActive cfg sensor w = Ok (active_now cfg w sensor) w.
Proof.
  intros [item Hit]. unfold IdeAlarmSensor.isActive, active_now.
  erewrite bind_Ok by (unfold scope.getItem; rewrite Hit; reflexivity).
  now rewrite Hit.
Qed.

Lemma getNagSensors_loop_armed cfg (z : IdeAlarmZone.t) (w : World) l acc :
  IdeAlarmZone._armingMode z ≠ Some ARMINGMODE.DISARMED ->
  Forall (fun sensor => known w (IdeAlarmSensor.name sensor)) l ->
  IdeAlarmZone.getNagSensors_loop cfg l acc (z, w) = Ok acc (z, w).
Proof.
  intros Hmode Hl. induction Hl as [|sensor l Hk Hl IH]; [reflexivity|].
  simpl. erewrite bind_Ok by (apply dev_Ok, isEnabled_Ok).
  destruct (enabled_now w sensor).
  - erewrite (bind_Ok _ _ _ _ false); [exact IH|].
    erewrite bind_Ok by (apply dev_Ok, isActive_Ok, Hk).
    destruct (active_now cfg w sensor && IdeAlarmSensor.nag sensor); [|reflexivity].
    erewrite bind_Ok by reflexivity. simpl.
    now rewrite bool_decide_eq_false_2.
  - erewrite (bind_Ok _ _ _ _ false) by reflexivity. exact IH.
Qed.

Lemma countsAsOpen_Ok cfg (sensor : IdeAlarmSensor.t) (z : IdeAlarmZone.t) (w : World) :
  known w (IdeAlarmSensor.name sensor) ->
  IdeAlarmZone.countsAsOpen cfg sensor (z, w)
  = Ok (open_section cfg (IdeAlarmZone._armingMode z) w sensor) (z, w).
Proof.
  intros Hk. unfold IdeAlarmZone.countsAsOpen, open_section.
  erewrite bind_Ok by (apply dev_Ok, isEnabled_Ok).
  destruct (enabled_now w sensor); [|reflexivity].
  erewrite bind_Ok by (apply dev_Ok, isActive_Ok, Hk).
  destruct (active_now cfg w sensor); [|reflexivity].
  destruct Hk as [item Hit].
  erewrite bind_Ok by (apply dev_Ok; unfold scope.getItem; rewrite Hit; reflexivity).
  unfold in_motion_group. rewrite Hit. simpl.
  destruct (decide ("G_Motion" ∉ groupNames item)) as [Hn|Hy].
  - now rewrite bool_decide_eq_false_2.
  - apply dec_stable in Hy. rewrite (bool_decide_eq_true_2 _ Hy). simpl.
    erewrite bind_Ok by reflexivity. simpl. unfold mret, M_ret. f_equal.
    apply bool_decide_ext. now rewrite list_elem_of_singleton.
Qed.

Lemma with_openSections_same (z : IdeAlarmZone.t) :
  IdeAlarmZone.with_openSections (IdeAlarmZone.openSections z) z = z.
Proof. now destruct z. Qed.

Lemma countOpenSections_loop cfg (w : World) l (z : IdeAlarmZone.t) :
  Forall (fun sensor => known w (IdeAlarmSensor.name sensor)) l ->
  forM_ l (fun sensor =>
    c ← IdeAlarmZone.countsAsOpen cfg sensor;
    if (c : bool)
    then IdeAlarmZone.update
           (fun z => IdeAlarmZone.with_openSections (IdeAlarmZone.openSections z + 1) z)
    else mret tt) (z, w)
  = Ok tt (IdeAlarmZone.with_openSections
             (IdeAlarmZone.openSections z
              + open_count cfg (IdeAlarmZone._armingMode z) w l) z, w).
Proof.
  intros Hl. revert z. induction Hl as [|sensor l Hk Hl IH]; intros z.
  - simpl. unfold open_count; simpl. rewrite Z.add_0_r, with_openSections_same. reflexivity.
  - simpl. unfold mbind at 1, M_bind at 1.
    rewrite (bind_Ok _ _ _ _ _ (countsAsOpen_Ok cfg sensor z w Hk)).
    unfold open_count. simpl.
    destruct (open_section cfg (IdeAlarmZone._armingMode z) w sensor) eqn:Hc.
    + unfold IdeAlarmZone.update at 1. simpl fst. simpl snd.
      rewrite IH. simpl. f_equal. f_equal. unfold open_count.
      unfold IdeAlarmZone.with_openSections; simpl. f_equal. lia.
    + unfold mret at 1, M_ret at 1. rewrite IH. reflexivity.
Qed.

Lemma open_section_filter cfg mode (w : World) (l : list IdeAlarmSensor.t) :
  List.filter (open_section cfg mode w) l
  = List.filter (fun s => negb (in_motion_group w s)
                          || bool_decide (mode = Some ARMINGMODE.ARMED_AWAY))
      (List.filter (fun s => enabled_now w s && active_now cfg w s) l).
Proof.
  induction l as [|s l IH]; [reflexivity|].
  simpl. unfold open_section at 1.
  destruct (enabled_now w s && active_now cfg w s); simpl; [|exact IH].
  destruct (negb (in_motion_group w s) || bool_decide _); [f_equal|]; exact IH.
Qed.

(** ** Zone lookup by ordinal *)

Lemma all_digits_string_of_uint d :
  IdeAlarm.all_digits (NilEmpty.string_of_uint d) = true.
Proof. induction d; simpl; try assumption; reflexivity. Qed.

Lemma isdigit_str (n : Z) : (0 <= n)%Z -> IdeAlarm.isdigit (str n) = true.
Proof.
  intros Hn. unfold str. destruct n as [|p|p]; [reflexivity| |lia].
  simpl. pose proof (DecimalPos.Unsigned.to_uint_nonnil p) as Hnil.
  pose proof (all_digits_string_of_uint (Pos.to_uint p)) as Hall.
  unfold IdeAlarm.isdigit.
  destruct (Pos.to_uint p); simpl in *; try exact Hall. now destruct Hnil.
Qed.

Lemma onZone_getZoneStatus (zones : list IdeAlarmZone.t) (w : World) pos z :
  zones !! pos = Some z ->
  IdeAlarm.onZone pos IdeAlarmZone.getZoneStatus (zones, w)
  = Ok (IdeAlarmZone._zoneStatus z) (zones, w).
Proof.
  intros Hz. unfold IdeAlarm.onZone. simpl. rewrite Hz. simpl.
  now rewrite list_insert_id.
Qed.

(** A positive ordinal denotes the zone before it in the list... *)
Lemma getZoneStatus_ordinal (zones : list IdeAlarmZone.t) (w : World) (i : nat) z :
  zones !! i = Some z ->
  IdeAlarm.getZoneStatus (IdeAlarm.PyInt (Z.of_nat (S i))) (zones, w)
  = Ok (IdeAlarmZone._zoneStatus z) (zones, w).
Proof.
  intros Hz. pose proof (lookup_lt_Some _ _ _ Hz) as Hlt.
  unfold IdeAlarm.getZoneStatus, IdeAlarm.zoneIndexOf. simpl IdeAlarm.py_str.
  rewrite isdigit_str by lia.
  erewrite bind_Ok by reflexivity.
  erewrite bind_Ok by reflexivity.
  erewrite (bind_Ok _ _ _ _ i).
  - now apply onZone_getZoneStatus.
  - unfold IdeAlarm.subscript. rewrite decide_True by (simpl; lia).
    unfold mret, M_ret. f_equal. lia.
Qed.

(** ... and the ordinal 0 denotes the last zone, index -1 counting from
    the end. *)
Lemma getZoneStatus_zero (front : list IdeAlarmZone.t) (w : World) z :
  IdeAlarm.getZoneStatus (IdeAlarm.PyInt 0) (front ++ [z], w)
  = Ok (IdeAlarmZone._zoneStatus z) (front ++ [z], w).
Proof.
  unfold IdeAlarm.getZoneStatus, IdeAlarm.zoneIndexOf. simpl IdeAlarm.py_str.
  rewrite isdigit_str by lia.
  erewrite bind_Ok by reflexivity.
  erewrite bind_Ok by reflexivity.
  erewrite (bind_Ok _ _ _ _ (length front)).
  - apply onZone_getZoneStatus. simpl. now rewrite list_lookup_middle.
  - unfold IdeAlarm.subscript. cbn [fst length]. rewrite length_app. change (length [z]) with 1.
    rewrite decide_False by lia. rewrite decide_True by lia.
    unfold mret, M_ret. f_equal. lia.
Qed.

Lemma getAlertingZonesCount_loop_ordinals (zones : list IdeAlarmZone.t) (w : World)
    (k a : nat) (acc : Z) :
  a + k <= length zones ->
  IdeAlarm.getAlertingZonesCount_loop (seq (S a) k) acc (zones, w)
  = Ok (acc + Z.of_nat (length (List.filter alerting (take k (drop a zones)))))%Z (zones, w).
Proof.
  revert a acc. induction k as [|k IH]; intros a acc Hk.
  - simpl. unfold mret, M_ret. f_equal. lia.
  - destruct (lookup_lt_is_Some_2 zones a) as [z Hz]; [lia|].
    simpl seq. simpl IdeAlarm.getAlertingZonesCount_loop.
    erewrite bind_Ok by (apply getZoneStatus_ordinal; exact Hz).
    rewrite IH by lia.
    rewrite (drop_S _ _ _ Hz). simpl take. simpl List.filter.
    unfold alerting at 2.
    destruct (decide (IdeAlarmZone._zoneStatus z = Some ZONESTATUS.ALERT)) as [He|Hn].
    + rewrite bool_decide_eq_true_2 by assumption. simpl length. f_equal. lia.
    + rewrite bool_decide_eq_false_2 by assumption. reflexivity.
Qed.

(** ** setZoneStatus *)

Lemma notifications_app evs1 evs2 :
  notifications (evs1 ++ evs2) = notifications evs1 ++ notifications evs2.
Proof. apply List.filter_app. Qed.

Lemma notifications_writes evs :
  Forall (fun e => is_write e = true) evs -> notifications evs = [].
Proof.
  induction 1 as [|e evs He _ IH]; [reflexivity|].
  unfold notifications in *. simpl. now rewrite He.
Qed.

Lemma dev_post_update_Ok (z : IdeAlarmZone.t) (w : World) (itemName : string) v c :
  known w itemName ->
  ∃ (b : bool) evs,
    IdeAlarmZone.dev (utils.post_update_if_different itemName v c) (z, w)
    = Ok b (z, {| items := written itemName v c (items w); trace := trace w ++ evs |})
    ∧ Forall (fun e => is_write e = true) evs.
Proof.
  intros [item Hit].
  destruct (post_update_if_different_Ok itemName v c w item Hit) as [b Hb].
  exists b. eexists. split; [apply dev_Ok; exact Hb|].
  destruct b; repeat constructor. now destruct c.
Qed.

Lemma dev_post_update_Raise (z : IdeAlarmZone.t) (w : World) (itemName : string) v c :
  ¬ known w itemName ->
  IdeAlarmZone.dev (utils.post_update_if_different itemName v c) (z, w)
  = Raise (ItemNotFoundException itemName) (z, w)
  ∧ written itemName v c (items w) = items w.
Proof.
  intros Hk. assert (Hnone : items w !! itemName = None).
  { destruct (items w !! itemName) eqn:E; [|reflexivity]. destruct Hk. now exists i. }
  split.
  - unfold IdeAlarmZone.dev. simpl.
    now rewrite post_update_if_different_Raise.
  - apply map_eq. intros j. destruct (decide (itemName = j)) as [<-|Hne].
    + now rewrite written_lookup, Hnone.
    + now rewrite written_lookup_ne.
Qed.

(** The NORMAL branch: three timers off, then the sirens. *)
Lemma cancel_all_Ok (z : IdeAlarmZone.t) (w : World) n ads :
  Forall (known w) (guarded n ads) ->
  ∃ evs,
    (IdeAlarmZone.dev (utils.post_update_if_different (zoneItem n "_Entry_Timer") OFF false) ;;
     IdeAlarmZone.dev (utils.post_update_if_different (zoneItem n "_Exit_Timer") OFF false) ;;
     IdeAlarmZone.dev (utils.post_update_if_different (zoneItem n "_Alert_Max_Timer") OFF false) ;;
     forM_ ads (fun alertDevice =>
       IdeAlarmZone.dev (utils.send_command_if_different alertDevice OFF) ;; mret tt)) (z, w)
    = Ok tt (z, {| items := normal_items n ads (items w); trace := trace w ++ evs |})
    ∧ Forall (fun e => is_write e = true) evs.
Proof.
  unfold guarded. intros Hk.
  apply Forall_app in Hk as [Ht Hads].
  apply Forall_cons in Ht as [H1 Ht]. apply Forall_cons in Ht as [H2 Ht].
  apply Forall_cons in Ht as [H3 _].
  destruct (dev_post_update_Ok z w (zoneItem n "_Entry_Timer") OFF false H1)
    as [b1 [evs1 [R1 W1]]].
  erewrite bind_Ok by exact R1.
  set (w1 := {| items := written (zoneItem n "_Entry_Timer") OFF false (items w);
                trace := trace w ++ evs1 |}) in *.
  assert (K1 : ∀ j, known w j -> known w1 j).
  { intros j Hj. unfold known, w1; simpl. now apply written_known. }
  destruct (dev_post_update_Ok z w1 (zoneItem n "_Exit_Timer") OFF false (K1 _ H2))
    as [b2 [evs2 [R2 W2]]].
  erewrite bind_Ok by exact R2.
  set (w2 := {| items := written (zoneItem n "_Exit_Timer") OFF false (items w1);
                trace := trace w1 ++ evs2 |}) in *.
  assert (K2 : ∀ j, known w j -> known w2 j).
  { intros j Hj. unfold known, w2; simpl. apply written_known. now apply K1. }
  destruct (dev_post_update_Ok z w2 (zoneItem n "_Alert_Max_Timer") OFF false (K2 _ H3))
    as [b3 [evs3 [R3 W3]]].
  erewrite bind_Ok by exact R3.
  set (w3 := {| items := written (zoneItem n "_Alert_Max_Timer") OFF false (items w2);
                trace := trace w2 ++ evs3 |}) in *.
  assert (K3 : ∀ j, known w j -> known w3 j).
  { intros j Hj. unfold known, w3; simpl. apply written_known. now apply K2. }
  destruct (alert_loop_Ok OFF z ads w3) as [evs4 [R4 W4]].
  { eapply Forall_impl; [exact Hads|]. exact K3. }
  rewrite R4. exists (evs1 ++ evs2 ++ evs3 ++ evs4). split.
  - unfold normal_items, w3, w2, w1; simpl. now rewrite <- !app_assoc.
  - repeat (apply Forall_app; split); try assumption.
    eapply Forall_impl; [exact W4|]. now intros e [d [_ ->]].
Qed.

Lemma setZoneStatus_invalid cfg (z : IdeAlarmZone.t) (w : World) s sc msg :
  s ∉ [ZONESTATUS.NORMAL; ZONESTATUS.ALERT; ZONESTATUS.ERROR;
       ZONESTATUS.TRIPPED; ZONESTATUS.ARMING] ->
  IdeAlarmZone.setZoneStatus cfg s sc msg (z, w)
  = Raise (IdeAlarmError "Trying to set an invalid zone status") (z, w).
Proof. intros H. unfold IdeAlarmZone.setZoneStatus. now rewrite decide_True. Qed.

(** The part of [setZoneStatus] before the status item is synchronised. *)
Lemma setZoneStatus_branch (z z' : IdeAlarmZone.t) (w : World) (s : Z) :
  (s = ZONESTATUS.NORMAL ->
   Forall (known w) (guarded (IdeAlarmZone.zoneNumber z) (IdeAlarmZone.alertDevices z))) ->
  ∃ evs,
    (if decide (s ∈ [ZONESTATUS.NORMAL]) then
       IdeAlarmZone.dev (utils.post_update_if_different
         (zoneItem (IdeAlarmZone.zoneNumber z) "_Entry_Timer") OFF false) ;;
       IdeAlarmZone.dev (utils.post_update_if_different
         (zoneItem (IdeAlarmZone.zoneNumber z) "_Exit_Timer") OFF false) ;;
       IdeAlarmZone.dev (utils.post_update_if_different
         (zoneItem (IdeAlarmZone.zoneNumber z) "_Alert_Max_Timer") OFF false) ;;
       forM_ (IdeAlarmZone.alertDevices z) (fun alertDevice =>
         IdeAlarmZone.dev (utils.send_command_if_different alertDevice OFF) ;; mret tt)
     else mret tt) (z', w)
    = Ok tt (z', {| items := if decide (s = ZONESTATUS.NORMAL)
                             then normal_items (IdeAlarmZone.zoneNumber z)
                                    (IdeAlarmZone.alertDevices z) (items w)
                             else items w;
                    trace := trace w ++ evs |})
    ∧ Forall (fun e => is_write e = true) evs.
Proof.
  intros Hk. destruct (decide (s = ZONESTATUS.NORMAL)) as [->|Hne].
  - rewrite decide_True by (apply list_elem_of_singleton; reflexivity).
    apply cancel_all_Ok. now apply Hk.
  - rewrite decide_False by (rewrite list_elem_of_singleton; exact Hne).
    exists []. split; [|constructor]. unfold mret, M_ret.
    destruct w; simpl. now rewrite app_nil_r.
Qed.

Lemma setZoneStatus_Ok cfg (z : IdeAlarmZone.t) (w : World) s sc msg :
  s ∈ [ZONESTATUS.NORMAL; ZONESTATUS.ALERT; ZONESTATUS.ERROR;
       ZONESTATUS.TRIPPED; ZONESTATUS.ARMING] ->
  (s = ZONESTATUS.NORMAL ->
   Forall (known w) (guarded (IdeAlarmZone.zoneNumber z) (IdeAlarmZone.alertDevices z))) ->
  known w (IdeAlarmZone.statusItem z) ->
  ∃ evs,
    IdeAlarmZone.setZoneStatus cfg s sc msg (z, w)
    = Ok tt (IdeAlarmZone.with_zoneStatus (Some s) z,
             {| items := status_items z s sc (items w); trace := trace w ++ evs |})
    ∧ notifications evs
      = if has_onZoneStatusChange (custom cfg)
        then [OnZoneStatusChange (IdeAlarmZone.zoneNumber z) s
                (IdeAlarmZone._zoneStatus z) msg]
        else [].
Proof.
  intros Hs Hg Hst. unfold IdeAlarmZone.setZoneStatus.
  rewrite decide_False by (intros H; now apply H).
  erewrite bind_Ok by reflexivity.
  erewrite bind_Ok by reflexivity. cbn [fst snd].
  destruct (setZoneStatus_branch z (IdeAlarmZone.with_zoneStatus (Some s) z) w s Hg)
    as [evs1 [R1 W1]].
  erewrite bind_Ok by exact R1.
  match type of R1 with _ = Ok _ (_, ?x) => set (w1 := x) in * end.
  assert (K1 : known w1 (IdeAlarmZone.statusItem z)).
  { unfold known, w1; simpl. destruct (decide (s = ZONESTATUS.NORMAL)); [|exact Hst].
    unfold normal_items. now rewrite !write_all_known. }
  destruct (dev_post_update_Ok (IdeAlarmZone.with_zoneStatus (Some s) z) w1
              (IdeAlarmZone.statusItem z) (Decimal s) sc K1) as [b [evs2 [R2 W2]]].
  erewrite bind_Ok by exact R2.
  destruct (has_onZoneStatusChange (custom cfg)).
  - eexists. split.
    + unfold IdeAlarmZone.dev, emit. simpl. unfold status_items.
      rewrite <- !app_assoc. reflexivity.
    + rewrite !notifications_app, !notifications_writes by assumption. reflexivity.
  - exists (evs1 ++ evs2). split.
    + unfold mret, M_ret, status_items, w1. simpl. now rewrite <- !app_assoc.
    + now rewrite !notifications_app, !notifications_writes by assumption.
Qed.

(** ** setArmingMode *)

Lemma optional_hook_Ok (installed : bool) (e : Event) (z : IdeAlarmZone.t) (w : World) :
  (if installed then IdeAlarmZone.dev (emit e) else mret tt) (z, w)
  = Ok tt (z, {| items := items w; trace := trace w ++ (if installed then [e] else []) |}).
Proof.
  destruct installed; [reflexivity|].
  unfold mret, M_ret. destruct w; simpl. now rewrite app_nil_r.
Qed.

(** A valid request that the open-sensors check does not stop goes on to
    [setArmingMode_proceed], after the open-sensors hook if the check
    fired. *)
Lemma setArmingMode_passes cfg (z : IdeAlarmZone.t) (w : World) newArmingMode sc :
  newArmingMode ∈ [ARMINGMODE.DISARMED; ARMINGMODE.ARMED_HOME; ARMINGMODE.ARMED_AWAY] ->
  IdeAlarmZone.canArmWithTrippedSensors z = true
  ∨ ¬ (newArmingMode ∈ [ARMINGMODE.ARMED_AWAY; ARMINGMODE.ARMED_HOME]
       ∧ IdeAlarmZone._zoneStatus z ≠ Some ZONESTATUS.ARMING
       ∧ IdeAlarmZone._zoneStatus z ≠ None
       ∧ (0 < IdeAlarmZone.openSections z)%Z) ->
  ∃ hook1,
    IdeAlarmZone.setArmingMode cfg newArmingMode sc (z, w)
    = IdeAlarmZone.setArmingMode_proceed cfg newArmingMode sc (IdeAlarmZone._armingMode z)
        (z, {| items := items w; trace := trace w ++ hook1 |})
    ∧ Forall (fun e => ∃ n m, e = OnArmingWithOpenSensors n m) hook1.
Proof.
  intros Hvalid Hpass. unfold IdeAlarmZone.setArmingMode.
  erewrite bind_Ok by reflexivity. cbn zeta.
  rewrite decide_False by (intros Hbad; now apply Hbad).
  erewrite bind_Ok by reflexivity. cbn [fst snd].
  match goal with |- context [decide ?P] => destruct (decide P) as [G|G] end.
  - destruct Hpass as [Hcan|Hno]; [|contradiction].
    rewrite Hcan. cbn [negb].
    erewrite bind_Ok by apply optional_hook_Ok.
    eexists. split; [reflexivity|].
    destruct (has_onArmingWithOpenSensors (custom cfg)); repeat constructor. eauto.
  - exists []. split; [|constructor]. destruct w; simpl. now rewrite app_nil_r.
Qed.

(** Away-arming from a defined status other than ARMING: the status
    becomes ARMING and the exit timer is started; the mode is not set. *)
Lemma setArmingMode_proceed_defers cfg (z : IdeAlarmZone.t) (w : World) sc old status :
  IdeAlarmZone._zoneStatus z = Some status ->
  status ≠ ZONESTATUS.ARMING ->
  known w (IdeAlarmZone.statusItem z) ->
  known w (zoneItem (IdeAlarmZone.zoneNumber z) "_Exit_Timer") ->
  ∃ evs,
    IdeAlarmZone.setArmingMode_proceed cfg ARMINGMODE.ARMED_AWAY sc old (z, w)
    = Ok tt (IdeAlarmZone.with_zoneStatus (Some ZONESTATUS.ARMING) z,
             {| items := written (zoneItem (IdeAlarmZone.zoneNumber z) "_Exit_Timer") ON false
                           (status_items z ZONESTATUS.ARMING false (items w));
                trace := trace w ++ evs |})
    ∧ Forall (fun e => ∀ n m o, e ≠ OnArmingModeChange n m o) evs.
Proof.
  intros Hstatus Harming Hst Hexit. unfold IdeAlarmZone.setArmingMode_proceed.
  erewrite bind_Ok by reflexivity.
  erewrite bind_Ok by reflexivity. cbn [fst snd].
  rewrite decide_True by (rewrite Hstatus; repeat split; congruence).
  destruct (setZoneStatus_Ok cfg z w ZONESTATUS.ARMING false None) as [evs1 [R1 N1]];
    [by_computation|discriminate|exact Hst|].
  erewrite bind_Ok by exact R1.
  match type of R1 with _ = Ok _ (?a, ?b) => set (z1 := a) in *; set (w1 := b) in * end.
  assert (K : known w1 (zoneItem (IdeAlarmZone.zoneNumber z) "_Exit_Timer")).
  { unfold known, w1, status_items; simpl. now apply written_known. }
  destruct (dev_post_update_Ok z1 w1 _ ON false K) as [b [evs2 [R2 W2]]].
  erewrite bind_Ok by exact R2.
  exists (evs1 ++ evs2). split.
  - unfold mret, M_ret, w1. simpl. now rewrite <- app_assoc.
  - apply Forall_app. split.
    + apply Forall_forall. intros e He n m o ->.
      assert (Hin : OnArmingModeChange n m o ∈ notifications evs1).
      { unfold notifications. apply list_elem_of_In, List.filter_In.
        split; [now apply list_elem_of_In|reflexivity]. }
      rewrite N1 in Hin. destruct (has_onZoneStatusChange (custom cfg)).
      * apply list_elem_of_singleton in Hin. discriminate.
      * now apply elem_of_nil in Hin.
    + eapply Forall_impl; [exact W2|]. intros e He n m o ->. discriminate.
Qed.

(** Any other valid request installs the mode and resets the status. *)
Lemma setArmingMode_proceed_installs cfg (z : IdeAlarmZone.t) (w : World)
    newArmingMode sc old :
  ¬ (newArmingMode = ARMINGMODE.ARMED_AWAY
     ∧ IdeAlarmZone._zoneStatus z ≠ None
     ∧ IdeAlarmZone._zoneStatus z ≠ Some ZONESTATUS.ARMING) ->
  known w (IdeAlarmZone.armingModeItem z) ->
  known w (IdeAlarmZone.statusItem z) ->
  Forall (known w) (guarded (IdeAlarmZone.zoneNumber z) (IdeAlarmZone.alertDevices z)) ->
  ∃ evs,
    IdeAlarmZone.setArmingMode_proceed cfg newArmingMode sc old (z, w)
    = Ok tt (IdeAlarmZone.with_zoneStatus (Some ZONESTATUS.NORMAL)
               (IdeAlarmZone.with_armingMode (Some newArmingMode) z),
             {| items := status_items z ZONESTATUS.NORMAL false
                           (written (IdeAlarmZone.armingModeItem z)
                              (Decimal newArmingMode) sc (items w));
                trace := trace w ++ evs |}).
Proof.
  intros Hnot Hmode Hst Hg. unfold IdeAlarmZone.setArmingMode_proceed.
  erewrite bind_Ok by reflexivity.
  erewrite bind_Ok by reflexivity. cbn [fst snd].
  rewrite decide_False by exact Hnot.
  erewrite bind_Ok by reflexivity. cbn [fst snd].
  set (z1 := IdeAlarmZone.with_armingMode (Some newArmingMode) z).
  destruct (dev_post_update_Ok z1 w (IdeAlarmZone.armingModeItem z)
              (Decimal newArmingMode) sc Hmode) as [b [evs1 [R1 W1]]].
  erewrite bind_Ok by exact R1.
  erewrite bind_Ok by apply optional_hook_Ok.
  match goal with |- context [IdeAlarmZone.setZoneStatus _ _ _ _ (_, ?x)] =>
    set (w2 := x) end.
  assert (K : ∀ j, known w j -> known w2 j).
  { intros j Hj. unfold known, w2; simpl. now apply written_known. }
  destruct (setZoneStatus_Ok cfg z1 w2 ZONESTATUS.NORMAL false None) as [evs3 [R3 _]];
    [by_computation| |apply K, Hst|].
  { intros _. eapply Forall_impl; [exact Hg|]. exact K. }
  rewrite R3. eexists. unfold w2, z1. simpl. rewrite <- !app_assoc. reflexivity.
Qed.

(** ** Rules of the program logic *)

Lemma hoare_ret {S A} (Q : A -> S -> Prop) E (a : A) : hoare (Q a) (mret a) Q E.
Proof. intros s H. exact H. Qed.

Lemma hoare_raise {S A} (Q : A -> S -> Prop) (E : Exn -> S -> Prop) e :
  hoare (E e) (raise e) Q E.
Proof. intros s H. exact H. Qed.

Lemma hoare_bind {S A B} (P : S -> Prop) (m : M S A) (f : A -> M S B)
    (Q : A -> S -> Prop) (R : B -> S -> Prop) E :
  hoare P m Q E -> (∀ a, hoare (Q a) (f a) R E) -> hoare P (m ≫= f) R E.
Proof.
  intros Hm Hf s Hs. unfold mbind, M_bind. specialize (Hm s Hs).
  destruct (m s) as [a s'|e s']; [now apply Hf|exact Hm].
Qed.

Lemma hoare_conseq {S A} (P P' : S -> Prop) (m : M S A) (Q Q' : A -> S -> Prop)
    (E E' : Exn -> S -> Prop) :
  (∀ s, P' s -> P s) -> (∀ a s, Q a s -> Q' a s) -> (∀ e s, E e s -> E' e s) ->
  hoare P m Q E -> hoare P' m Q' E'.
Proof.
  intros HP HQ HE Hm s Hs. specialize (Hm s (HP s Hs)).
  destruct (m s); auto.
Qed.

Lemma hoare_pre {S A} (P P' : S -> Prop) (m : M S A) Q E :
  (∀ s, P' s -> P s) -> hoare P m Q E -> hoare P' m Q E.
Proof. intros HP. apply hoare_conseq; auto. Qed.

(** A fact that does not depend on the state can be taken out of the
    precondition. *)
Lemma hoare_assume {S A} (fact : Prop) (P : S -> Prop) (m : M S A) Q E :
  (fact -> hoare P m Q E) -> hoare (fun s => fact ∧ P s) m Q E.
Proof. intros H s [Hf Hs]. now apply H. Qed.

(** The rules for a predicate that is to hold throughout. *)
Lemma keep_ret {S A} (P : S -> Prop) (a : A) :
  hoare P (mret a) (fun _ => P) (fun _ => P).
Proof. intros s Hs. exact Hs. Qed.

Lemma keep_raise {S A} (P : S -> Prop) e :
  hoare P (raise e : M S A) (fun _ => P) (fun _ => P).
Proof. intros s Hs. exact Hs. Qed.

Lemma keep_bind {S A B} (P : S -> Prop) (m : M S A) (f : A -> M S B) :
  hoare P m (fun _ => P) (fun _ => P) ->
  (∀ a, hoare P (f a) (fun _ => P) (fun _ => P)) ->
  hoare P (m ≫= f) (fun _ => P) (fun _ => P).
Proof. intros Hm Hf. eapply hoare_bind; [exact Hm|exact Hf]. Qed.

Lemma hoare_readonly {S A} (P : S -> Prop) (m : M S A) :
  readonly m -> hoare P m (fun _ => P) (fun _ => P).
Proof.
  intros Hr s Hs. specialize (Hr s). destruct (m s); simpl in Hr; now subst.
Qed.

Lemma hoare_forM_ {S A} (I : S -> Prop) (l : list A) (body : A -> M S unit) E :
  (∀ x, x ∈ l -> hoare I (body x) (fun _ => I) E) ->
  hoare I (forM_ l body) (fun _ => I) E.
Proof.
  induction l as [|x l IH]; intros Hbody; simpl.
  - intros s Hs. exact Hs.
  - eapply hoare_bind; [apply Hbody; left|]. intros u. cbv beta.
    apply IH. intros y Hy. apply Hbody. now right.
Qed.

Lemma readonly_ret {S A} (a : A) : readonly (mret a : M S A).
Proof. intros s. reflexivity. Qed.

Lemma readonly_raise {S A} e : readonly (raise e : M S A).
Proof. intros s. reflexivity. Qed.

Lemma readonly_bind {S A B} (m : M S A) (f : A -> M S B) :
  readonly m -> (∀ a, readonly (f a)) -> readonly (m ≫= f).
Proof.
  intros Hm Hf s. unfold mbind, M_bind. specialize (Hm s).
  destruct (m s) as [a s'|e s']; simpl in Hm; subst; [apply Hf|reflexivity].
Qed.

Lemma readonly_self : readonly IdeAlarmZone.self.
Proof. intros s. reflexivity. Qed.

Lemma readonly_dev {A} (m : M World A) : readonly m -> readonly (IdeAlarmZone.dev m).
Proof.
  intros Hm [z w]. unfold IdeAlarmZone.dev. simpl. specialize (Hm w).
  destruct (m w); simpl in *; now subst.
Qed.

Lemma readonly_getItem itemName : readonly (scope.getItem itemName).
Proof. intros w. unfold scope.getItem. now destruct (items w !! itemName). Qed.

Lemma readonly_isEnabled sensor : readonly (IdeAlarmSensor.isEnabled sensor).
Proof. intros w. now rewrite isEnabled_Ok. Qed.

Lemma readonly_isActive cfg sensor : readonly (IdeAlarmSensor.isActive cfg sensor).
Proof.
  unfold IdeAlarmSensor.isActive. apply readonly_bind; [apply readonly_getItem|].
  intros item. apply readonly_ret.
Qed.

Lemma readonly_getItemValue_state itemName d : readonly (utils.getItemValue_state itemName d).
Proof.
  unfold utils.getItemValue_state. apply readonly_bind; [apply readonly_getItem|].
  intros item. destruct (state item); apply readonly_ret.
Qed.

Lemma readonly_getArmingMode : readonly IdeAlarmZone.getArmingMode.
Proof. intros s. reflexivity. Qed.

Lemma readonly_getZoneStatus : readonly IdeAlarmZone.getZoneStatus.
Proof. intros s. reflexivity. Qed.

(** Reading the zone object gives the object of the current state. *)
Lemma hoare_self (P : IdeAlarmZone.St -> Prop) E :
  hoare P IdeAlarmZone.self (fun z s => fst s = z ∧ P s) E.
Proof. intros s Hs. simpl. auto. Qed.

Lemma hoare_getZoneStatus (P : IdeAlarmZone.St -> Prop) E :
  hoare P IdeAlarmZone.getZoneStatus
    (fun st s => IdeAlarmZone._zoneStatus (fst s) = st ∧ P s) E.
Proof. intros s Hs. simpl. auto. Qed.

Lemma hoare_update (f : IdeAlarmZone.t -> IdeAlarmZone.t) (Q : IdeAlarmZone.St -> Prop) E :
  hoare (fun s => Q (f (fst s), snd s)) (IdeAlarmZone.update f) (fun _ => Q) E.
Proof. intros s Hs. exact Hs. Qed.

(** After [post_update_if_different], returned or raised, the registry is
    [written]. *)
Lemma hoare_write (itemName : string) v c (Q : IdeAlarmZone.St -> Prop) :
  hoare (fun s => ∀ w', items w' = written itemName v c (items (snd s)) -> Q (fst s, w'))
    (IdeAlarmZone.dev (utils.post_update_if_different itemName v c))
    (fun _ => Q) (fun _ => Q).
Proof.
  intros [z w] Hs. simpl in Hs.
  destruct (decide (known w itemName)) as [Hk|Hk].
  - destruct (dev_post_update_Ok z w itemName v c Hk) as [b [evs [R _]]].
    rewrite R. now apply Hs.
  - destruct (dev_post_update_Raise z w itemName v c Hk) as [R Hsame].
    rewrite R. apply Hs. now rewrite Hsame.
Qed.

Lemma hoare_emit (e : Event) (Q : IdeAlarmZone.St -> Prop) E :
  hoare (fun s => ∀ w', items w' = items (snd s) -> Q (fst s, w'))
    (IdeAlarmZone.dev (emit e)) (fun _ => Q) E.
Proof. intros [z w] Hs. simpl. now apply Hs. Qed.

(** ** What never touches the arming mode *)

Lemma hoare_dev_zone {T} (P : IdeAlarmZone.t -> Prop) (m : M World T) :
  hoare (fun s => P (fst s)) (IdeAlarmZone.dev m)
    (fun _ s => P (fst s)) (fun _ s => P (fst s)).
Proof.
  intros [z w] Hs. unfold IdeAlarmZone.dev. simpl in *. now destruct (m w).
Qed.

Lemma hoare_setZoneStatus_mode cfg s sc msg (mode : option Z) :
  hoare (fun st => IdeAlarmZone._armingMode (fst st) = mode)
    (IdeAlarmZone.setZoneStatus cfg s sc msg)
    (fun _ st => IdeAlarmZone._armingMode (fst st) = mode)
    (fun _ st => IdeAlarmZone._armingMode (fst st) = mode).
Proof.
  set (P := fun st : IdeAlarmZone.St => IdeAlarmZone._armingMode (fst st) = mode).
  assert (Hdev : ∀ T (m : M World T), hoare P (IdeAlarmZone.dev m) (fun _ => P) (fun _ => P)).
  { intros T m. apply (hoare_dev_zone (fun z => IdeAlarmZone._armingMode z = mode)). }
  unfold IdeAlarmZone.setZoneStatus.
  destruct (decide _); [apply keep_raise|].
  apply keep_bind; [apply hoare_readonly, readonly_self|]. intros z; cbv beta zeta.
  apply keep_bind; [intros st Hst; exact Hst|]. intros ?.
  apply keep_bind.
  { destruct (decide _); [|apply keep_ret].
    repeat (apply keep_bind; [apply Hdev|]; intros ?).
    apply hoare_forM_. intros d _.
    apply keep_bind; [apply Hdev|]. intros ?. apply keep_ret. }
  intros ?. apply keep_bind; [apply Hdev|]. intros ?.
  destruct (has_onZoneStatusChange (custom cfg)); [apply Hdev|apply keep_ret].
Qed.

(** A request that the open-sensors check stops leaves the arming mode as
    it was, whatever the registry holds and wherever the call ends. *)
Lemma setArmingMode_stopped_keeps_mode cfg (z : IdeAlarmZone.t) (w : World)
    (newArmingMode : Z) (sendCommand : bool) (status : Z) :
  newArmingMode = ARMINGMODE.ARMED_HOME ∨ newArmingMode = ARMINGMODE.ARMED_AWAY ->
  IdeAlarmZone.canArmWithTrippedSensors z = false ->
  IdeAlarmZone._zoneStatus z = Some status ->
  status ≠ ZONESTATUS.ARMING ->
  (0 < IdeAlarmZone.openSections z)%Z ->
  IdeAlarmZone._armingMode
    (fst (final (IdeAlarmZone.setArmingMode cfg newArmingMode sendCommand (z, w))))
  = IdeAlarmZone._armingMode z.
Proof.
  intros Hmode Hpolicy Hstatus Harming Hopen.
  unfold IdeAlarmZone.setArmingMode.
  erewrite bind_Ok by reflexivity. cbn zeta.
  rewrite decide_False
    by (intros Hbad; apply Hbad; destruct Hmode as [-> | ->]; by_computation).
  erewrite bind_Ok by reflexivity. cbn [fst snd].
  rewrite decide_True.
  2:{ rewrite Hstatus. repeat split; try congruence; try assumption.
      destruct Hmode as [-> | ->]; by_computation. }
  rewrite Hpolicy. cbn [negb].
  match goal with |- context [final (?m (z, w))] =>
    assert (Hm : hoare (fun st => IdeAlarmZone._armingMode (fst st)
                                  = IdeAlarmZone._armingMode z) m
                   (fun _ st => IdeAlarmZone._armingMode (fst st) = IdeAlarmZone._armingMode z)
                   (fun _ st => IdeAlarmZone._armingMode (fst st) = IdeAlarmZone._armingMode z));
    [|specialize (Hm (z, w) eq_refl); destruct (m (z, w)); exact Hm]
  end.
  assert (Hdev : ∀ T (m' : M World T),
            hoare (fun st => IdeAlarmZone._armingMode (fst st) = IdeAlarmZone._armingMode z)
              (IdeAlarmZone.dev m')
              (fun _ st => IdeAlarmZone._armingMode (fst st) = IdeAlarmZone._armingMode z)
              (fun _ st => IdeAlarmZone._armingMode (fst st) = IdeAlarmZone._armingMode z)).
  { intros T m'.
    apply (hoare_dev_zone (fun z' => IdeAlarmZone._armingMode z' = IdeAlarmZone._armingMode z)). }
  apply keep_bind.
  { destruct (has_onArmingWithOpenSensors (custom cfg)); [apply Hdev|apply keep_ret]. }
  intros ?. apply keep_bind; [apply hoare_setZoneStatus_mode|]. intros ?.
  apply keep_bind; [apply Hdev|]. intros ?. apply hoare_setZoneStatus_mode.
Qed.

(** ** The zone invariant *)

Lemma accepted_switch_decimal c k : accepted c SwitchItem (Decimal k) = false.
Proof. now destruct c. Qed.

Lemma zoneItem_inj n (a b : string) : zoneItem n a = zoneItem n b -> a = b.
Proof.
  unfold zoneItem. intros H. simpl in H. injection H as H.
  apply (String.app_inj "") in H. now apply (String.app_inj (str n)) in H.
Qed.

Lemma nag_timer_not_guarded n ads :
  zoneItem n "_Nag_Timer" ∉ ads -> zoneItem n "_Nag_Timer" ∉ guarded n ads.
Proof.
  intros Hads Hin. unfold guarded in Hin. apply elem_of_app in Hin as [Hin|Hin]; [|auto].
  repeat (apply elem_of_cons in Hin as [Hin|Hin];
          [apply zoneItem_inj in Hin; discriminate|]).
  now apply elem_of_nil in Hin.
Qed.

(** A write keeps the invariant when it writes OFF, or a number, or a
    device that is not guarded, or while the status is not NORMAL. *)
Lemma zone_inv_written n ads (z : IdeAlarmZone.t) (w w' : World) (x : string) v c :
  zone_inv n ads (z, w) ->
  items w' = written x v c (items w) ->
  v = OFF ∨ (∃ k, v = Decimal k) ∨ x ∉ guarded n ads
  ∨ IdeAlarmZone._zoneStatus z ≠ Some ZONESTATUS.NORMAL ->
  zone_inv n ads (z, w').
Proof.
  intros (Hn & Hads & Hsw & Hcalm) Hitems Hwhy. simpl in *.
  repeat split; try assumption; simpl.
  - intros j Hj. unfold has_kind. rewrite Hitems, written_kind. now apply Hsw.
  - intros Hnormal j Hj. specialize (Hsw j Hj). specialize (Hcalm Hnormal j Hj).
    unfold reads, has_kind in *. rewrite Hitems.
    destruct (decide (x = j)) as [->|Hne]; [|now rewrite written_lookup_ne].
    rewrite written_lookup.
    destruct (items w !! j) as [item|]; [|discriminate]. simpl in *.
    injection Hsw as Hk. injection Hcalm as Hs. f_equal.
    unfold write_item. rewrite Hk.
    destruct Hwhy as [->|[[k ->]|[Hng|Hst]]].
    + now destruct (accepted c SwitchItem OFF).
    + now rewrite accepted_switch_decimal.
    + contradiction.
    + contradiction.
Qed.

Lemma zone_inv_same_items n ads (z : IdeAlarmZone.t) (w w' : World) :
  zone_inv n ads (z, w) -> items w' = items w -> zone_inv n ads (z, w').
Proof.
  intros (Hn & Hads & Hsw & Hcalm) Hitems.
  repeat split; try assumption; unfold has_kind, reads in *; simpl in *;
    rewrite Hitems; assumption.
Qed.

Lemma setZoneStatus_Raise cfg (z : IdeAlarmZone.t) (w : World) s sc msg :
  s ∈ [ZONESTATUS.NORMAL; ZONESTATUS.ALERT; ZONESTATUS.ERROR;
       ZONESTATUS.TRIPPED; ZONESTATUS.ARMING] ->
  (s = ZONESTATUS.NORMAL ->
   Forall (known w) (guarded (IdeAlarmZone.zoneNumber z) (IdeAlarmZone.alertDevices z))) ->
  ¬ known w (IdeAlarmZone.statusItem z) ->
  ∃ evs,
    IdeAlarmZone.setZoneStatus cfg s sc msg (z, w)
    = Raise (ItemNotFoundException (IdeAlarmZone.statusItem z))
        (IdeAlarmZone.with_zoneStatus (Some s) z,
         {| items := status_items z s sc (items w); trace := trace w ++ evs |}).
Proof.
  intros Hs Hg Hst. unfold IdeAlarmZone.setZoneStatus.
  rewrite decide_False by (intros H; now apply H).
  erewrite bind_Ok by reflexivity.
  erewrite bind_Ok by reflexivity. cbn [fst snd].
  destruct (setZoneStatus_branch z (IdeAlarmZone.with_zoneStatus (Some s) z) w s Hg)
    as [evs1 [R1 W1]].
  erewrite bind_Ok by exact R1.
  match type of R1 with _ = Ok _ (_, ?x) => set (w1 := x) in * end.
  assert (K1 : ¬ known w1 (IdeAlarmZone.statusItem z)).
  { unfold known, w1; simpl. destruct (decide (s = ZONESTATUS.NORMAL)); [|exact Hst].
    unfold normal_items. now rewrite !write_all_known. }
  destruct (dev_post_update_Raise (IdeAlarmZone.with_zoneStatus (Some s) z) w1
              (IdeAlarmZone.statusItem z) (Decimal s) sc K1) as [R2 Hsame].
  erewrite bind_Raise by exact R2.
  exists evs1. unfold status_items. f_equal. f_equal. unfold w1 in *. simpl in *.
  now rewrite Hsame.
Qed.

(** The state [setZoneStatus] ends in, whether it returns or the status
    item is missing. *)
Lemma setZoneStatus_final cfg (z : IdeAlarmZone.t) (w : World) s sc msg :
  s ∈ [ZONESTATUS.NORMAL; ZONESTATUS.ALERT; ZONESTATUS.ERROR;
       ZONESTATUS.TRIPPED; ZONESTATUS.ARMING] ->
  (s = ZONESTATUS.NORMAL ->
   Forall (known w) (guarded (IdeAlarmZone.zoneNumber z) (IdeAlarmZone.alertDevices z))) ->
  ∃ w', final (IdeAlarmZone.setZoneStatus cfg s sc msg (z, w))
        = (IdeAlarmZone.with_zoneStatus (Some s) z, w')
        ∧ items w' = status_items z s sc (items w).
Proof.
  intros Hs Hg. destruct (decide (known w (IdeAlarmZone.statusItem z))) as [Hst|Hst].
  - destruct (setZoneStatus_Ok cfg z w s sc msg Hs Hg Hst) as [evs [R _]].
    rewrite R. eexists. split; reflexivity.
  - destruct (setZoneStatus_Raise cfg z w s sc msg Hs Hg Hst) as [evs R].
    rewrite R. eexists. split; reflexivity.
Qed.

Lemma normal_items_calm n ads (m : gmap string Item) :
  (∀ j, j ∈ guarded n ads -> kind <$> m !! j = Some SwitchItem) ->
  ∀ j, j ∈ guarded n ads -> state <$> normal_items n ads m !! j = Some OFF.
Proof.
  intros Hsw j Hj. unfold normal_items.
  destruct (decide (j ∈ ads)) as [Hin|Hnin].
  - eapply (write_all_state _ _ _ _ _ SwitchItem); [exact Hin| |reflexivity].
    rewrite write_all_kind. now apply Hsw.
  - rewrite write_all_lookup_notin by exact Hnin.
    unfold guarded in Hj. apply elem_of_app in Hj as [Hj|Hj]; [|contradiction].
    eapply write_all_state; [exact Hj|apply Hsw|reflexivity].
    unfold guarded. apply elem_of_app. now left.
Qed.

Section Invariant.

Context (cfg : Configuration) (n : Z) (ads : list string).

Lemma hoare_write_inv (x : string) v c (A : option Z -> Prop) :
  v = OFF ∨ (∃ k, v = Decimal k) ∨ x ∉ guarded n ads
  ∨ (∀ st, A st -> st ≠ Some ZONESTATUS.NORMAL) ->
  hoare (inv_with n ads A) (IdeAlarmZone.dev (utils.post_update_if_different x v c))
    (fun _ => inv_with n ads A) (fun _ => inv_with n ads A).
Proof.
  intros Hwhy. eapply hoare_pre; [|apply hoare_write].
  intros [z w] [Hinv HA] w' Hitems. split; [|exact HA].
  eapply zone_inv_written; [exact Hinv|exact Hitems|].
  destruct Hwhy as [?|[?|[?|Hbusy]]];
    [auto|auto|auto|right; right; right; now apply Hbusy].
Qed.

Lemma hoare_emit_inv (e : Event) (A : option Z -> Prop) E :
  hoare (inv_with n ads A) (IdeAlarmZone.dev (emit e)) (fun _ => inv_with n ads A) E.
Proof.
  eapply hoare_pre; [|apply hoare_emit].
  intros [z w] [Hinv HA] w' Hitems. split; [|exact HA].
  eapply zone_inv_same_items; eassumption.
Qed.

Lemma hoare_optional_hook_inv (installed : bool) (e : Event) (A : option Z -> Prop) E :
  hoare (inv_with n ads A) (if installed then IdeAlarmZone.dev (emit e) else mret tt)
    (fun _ => inv_with n ads A) E.
Proof.
  destruct installed; [apply hoare_emit_inv|]. intros s Hs. exact Hs.
Qed.

Lemma hoare_sirens_inv v (A : option Z -> Prop) (l : list string) :
  v = OFF ∨ (∀ st, A st -> st ≠ Some ZONESTATUS.NORMAL) ->
  hoare (inv_with n ads A)
    (forM_ l (fun alertDevice =>
       IdeAlarmZone.dev (utils.send_command_if_different alertDevice v) ;; mret tt))
    (fun _ => inv_with n ads A) (fun _ => inv_with n ads A).
Proof.
  intros Hwhy. apply hoare_forM_. intros d _.
  eapply hoare_bind; [apply hoare_write_inv|].
  - destruct Hwhy; auto.
  - intros b s Hs. exact Hs.
Qed.

(** A valid [setZoneStatus] establishes the invariant from any state in
    which the guarded devices are switches. *)
Lemma setZoneStatus_establishes (z : IdeAlarmZone.t) (w : World) s sc msg :
  IdeAlarmZone.zoneNumber z = n ->
  IdeAlarmZone.alertDevices z = ads ->
  (∀ j, j ∈ guarded n ads -> has_kind w j SwitchItem) ->
  s ∈ [ZONESTATUS.NORMAL; ZONESTATUS.ALERT; ZONESTATUS.ERROR;
       ZONESTATUS.TRIPPED; ZONESTATUS.ARMING] ->
  inv_with n ads (fun st => st = Some s)
    (final (IdeAlarmZone.setZoneStatus cfg s sc msg (z, w))).
Proof.
  intros Hn Hads Hsw Hs.
  assert (Hg : Forall (known w)
                 (guarded (IdeAlarmZone.zoneNumber z) (IdeAlarmZone.alertDevices z))).
  { rewrite Hn, Hads. apply Forall_forall. intros j Hj. specialize (Hsw j Hj).
    unfold known, has_kind in *. apply (fmap_is_Some kind). now rewrite Hsw. }
  destruct (setZoneStatus_final cfg z w s sc msg Hs (fun _ => Hg)) as [w' [Hfin Hitems]].
  rewrite Hfin. split; [|reflexivity].
  set (mid := {| items := if decide (s = ZONESTATUS.NORMAL)
                          then normal_items n ads (items w) else items w;
                 trace := trace w |}).
  apply (zone_inv_written n ads _ mid w' (IdeAlarmZone.statusItem z) (Decimal s) sc).
  - repeat split; simpl; try assumption.
    + intros j Hj. unfold has_kind, mid; simpl.
      destruct (decide (s = ZONESTATUS.NORMAL)); [|now apply Hsw].
      unfold normal_items. rewrite !write_all_kind. now apply Hsw.
    + intros Hnormal j Hj. injection Hnormal as ->. unfold reads, mid; simpl.
      now apply normal_items_calm.
  - rewrite Hitems. unfold status_items, mid; simpl. now rewrite Hn, Hads.
  - right. left. now exists s.
Qed.

Lemma hoare_setZoneStatus s sc msg (A : option Z -> Prop) :
  hoare (inv_with n ads A) (IdeAlarmZone.setZoneStatus cfg s sc msg)
    (fun _ => inv_with n ads (fun st => st = Some s))
    (fun _ => inv_with n ads (fun _ => True)).
Proof.
  intros [z w] [Hinv _].
  destruct (decide (s ∈ [ZONESTATUS.NORMAL; ZONESTATUS.ALERT; ZONESTATUS.ERROR;
                         ZONESTATUS.TRIPPED; ZONESTATUS.ARMING])) as [Hs|Hs].
  - destruct Hinv as (Hn & Hads & Hsw & _). simpl in *.
    pose proof (setZoneStatus_establishes z w s sc msg Hn Hads Hsw Hs) as Hgoal.
    destruct (IdeAlarmZone.setZoneStatus cfg s sc msg (z, w)) as [[] s'|e s'];
      simpl in Hgoal; [exact Hgoal|].
    destruct Hgoal as [Hgoal _]. split; [exact Hgoal|exact I].
  - rewrite setZoneStatus_invalid by exact Hs. split; [exact Hinv|exact I].
Qed.

Lemma inv_with_weaken (A B : option Z -> Prop) (s : IdeAlarmZone.St) :
  (∀ st, A st -> B st) -> inv_with n ads A s -> inv_with n ads B s.
Proof. intros HAB [Hinv HA]. split; [exact Hinv|now apply HAB]. Qed.

Lemma zt_weaken {T} (A A' B B' : option Z -> Prop) (m : M IdeAlarmZone.St T) :
  (∀ st, A' st -> A st) -> (∀ st, B st -> B' st) ->
  zone_triple n ads A m B -> zone_triple n ads A' m B'.
Proof.
  intros HA HB Hm. unfold zone_triple in *. eapply hoare_conseq; [| | |exact Hm].
  - intros s. now apply inv_with_weaken.
  - intros ? s. now apply inv_with_weaken.
  - auto.
Qed.

Lemma zt_bind {T U} (A B C : option Z -> Prop) (m : M IdeAlarmZone.St T)
    (f : T -> M IdeAlarmZone.St U) :
  zone_triple n ads A m B -> (∀ a, zone_triple n ads B (f a) C) ->
  zone_triple n ads A (m ≫= f) C.
Proof. intros Hm Hf. unfold zone_triple in *. eapply hoare_bind; [exact Hm|exact Hf]. Qed.

Lemma zt_ret {T} (A : option Z -> Prop) (a : T) : zone_triple n ads A (mret a) A.
Proof. intros s Hs. exact Hs. Qed.

Lemma zt_raise {T} (A B : option Z -> Prop) e :
  zone_triple n ads A (raise e : M IdeAlarmZone.St T) B.
Proof. intros s Hs. simpl. eapply inv_with_weaken; [|exact Hs]. auto. Qed.

Lemma zt_readonly {T} (A : option Z -> Prop) (m : M IdeAlarmZone.St T) :
  readonly m -> zone_triple n ads A m A.
Proof.
  intros Hr. unfold zone_triple. eapply hoare_conseq; [| | |apply hoare_readonly, Hr];
    try (intros; eassumption).
  intros ? s. apply inv_with_weaken. auto.
Qed.

Lemma zt_write (x : string) v c (A : option Z -> Prop) :
  v = OFF ∨ (∃ k, v = Decimal k) ∨ x ∉ guarded n ads
  ∨ (∀ st, A st -> st ≠ Some ZONESTATUS.NORMAL) ->
  zone_triple n ads A (IdeAlarmZone.dev (utils.post_update_if_different x v c)) A.
Proof.
  intros Hwhy. unfold zone_triple.
  eapply hoare_conseq; [| | |apply hoare_write_inv, Hwhy]; try (intros; eassumption).
  intros ? s. apply inv_with_weaken. auto.
Qed.

Lemma zt_hook (installed : bool) (e : Event) (A : option Z -> Prop) :
  zone_triple n ads A (if installed then IdeAlarmZone.dev (emit e) else mret tt) A.
Proof. apply hoare_optional_hook_inv. Qed.

Lemma zt_emit (e : Event) (A : option Z -> Prop) :
  zone_triple n ads A (IdeAlarmZone.dev (emit e)) A.
Proof. apply hoare_emit_inv. Qed.

Lemma zt_sirens v (A : option Z -> Prop) (l : list string) :
  v = OFF ∨ (∀ st, A st -> st ≠ Some ZONESTATUS.NORMAL) ->
  zone_triple n ads A
    (forM_ l (fun alertDevice =>
       IdeAlarmZone.dev (utils.send_command_if_different alertDevice v) ;; mret tt)) A.
Proof.
  intros Hwhy. unfold zone_triple.
  eapply hoare_conseq; [| | |apply hoare_sirens_inv, Hwhy]; try (intros; eassumption).
  intros ? s. apply inv_with_weaken. auto.
Qed.

(** An update of the zone object that touches neither the zone number,
    nor the alert devices, nor the status. *)
Lemma zt_update (f : IdeAlarmZone.t -> IdeAlarmZone.t) (A : option Z -> Prop) :
  (∀ z, IdeAlarmZone.zoneNumber (f z) = IdeAlarmZone.zoneNumber z
        ∧ IdeAlarmZone.alertDevices (f z) = IdeAlarmZone.alertDevices z
        ∧ IdeAlarmZone._zoneStatus (f z) = IdeAlarmZone._zoneStatus z) ->
  zone_triple n ads A (IdeAlarmZone.update f) A.
Proof.
  intros Hf [z w] [(Hn & Hads & Hsw & Hcalm) HA]. simpl in *.
  destruct (Hf z) as (En & Eads & Est).
  split; [|simpl; now rewrite Est].
  split; [simpl; congruence|]. split; [simpl; congruence|].
  split; [exact Hsw|]. simpl. rewrite Est. exact Hcalm.
Qed.

Lemma zt_setZoneStatus s sc msg (A : option Z -> Prop) :
  zone_triple n ads A (IdeAlarmZone.setZoneStatus cfg s sc msg) (fun st => st = Some s).
Proof. apply hoare_setZoneStatus. Qed.

Lemma zt_self {T} (A B : option Z -> Prop) (f : IdeAlarmZone.t -> M IdeAlarmZone.St T) :
  (∀ z, IdeAlarmZone.zoneNumber z = n -> IdeAlarmZone.alertDevices z = ads ->
        zone_triple n ads A (f z) B) ->
  zone_triple n ads A (IdeAlarmZone.self ≫= f) B.
Proof.
  intros Hf [z w] Hs. unfold mbind, M_bind. simpl.
  destruct Hs as [(Hn & Hads & Hsw & Hcalm) HA]. simpl in *.
  apply (Hf z Hn Hads). split; [|exact HA]. repeat split; assumption.
Qed.

Lemma zt_forM_ {T} (A : option Z -> Prop) (l : list T) (body : T -> M IdeAlarmZone.St unit) :
  (∀ x, zone_triple n ads A (body x) A) -> zone_triple n ads A (forM_ l body) A.
Proof. intros Hbody. apply hoare_forM_. intros x _. apply Hbody. Qed.

Lemma zt_any {T} (A B : option Z -> Prop) (m : M IdeAlarmZone.St T) :
  zone_triple n ads (fun _ => True) m B -> zone_triple n ads A m (fun _ => True).
Proof. apply zt_weaken; auto. Qed.

Lemma zt_setArmingMode_proceed newArmingMode sc old :
  zone_triple n ads (fun _ => True)
    (IdeAlarmZone.setArmingMode_proceed cfg newArmingMode sc old) (fun _ => True).
Proof.
  unfold IdeAlarmZone.setArmingMode_proceed.
  eapply zt_bind; [apply zt_readonly, readonly_self|]. intros z; cbv beta.
  eapply zt_bind; [apply zt_readonly, readonly_getZoneStatus|]. intros status; cbv beta.
  destruct (decide _).
  - eapply zt_bind; [apply zt_setZoneStatus|]. intros ?; cbv beta.
    eapply zt_bind;
      [apply zt_write; right; right; right; intros st ->; discriminate|].
    intros ?; cbv beta. eapply zt_any; apply zt_ret.
  - eapply zt_bind; [apply zt_update; intros; repeat split|]. intros ?; cbv beta.
    eapply zt_bind; [apply zt_write; right; left; eauto|]. intros ?; cbv beta.
    eapply zt_bind; [apply zt_hook|]. intros ?; cbv beta.
    eapply zt_any; apply zt_setZoneStatus.
Qed.

Lemma zt_setArmingMode newArmingMode sc :
  zone_triple n ads (fun _ => True)
    (IdeAlarmZone.setArmingMode cfg newArmingMode sc) (fun _ => True).
Proof.
  unfold IdeAlarmZone.setArmingMode.
  eapply zt_bind; [apply zt_readonly, readonly_self|]. intros z; cbv beta zeta.
  destruct (decide _); [apply zt_raise|].
  eapply zt_bind; [apply zt_readonly, readonly_getZoneStatus|]. intros status; cbv beta.
  destruct (decide _); [|apply zt_setArmingMode_proceed].
  eapply zt_bind; [apply zt_hook|]. intros ?; cbv beta.
  destruct (negb _); [|apply zt_setArmingMode_proceed].
  eapply zt_bind; [apply zt_setZoneStatus|]. intros ?; cbv beta.
  eapply zt_bind; [apply zt_emit|]. intros ?; cbv beta.
  eapply zt_any; apply zt_setZoneStatus.
Qed.

Lemma zt_onToggleSwitch itemName :
  zone_triple n ads (fun _ => True)
    (IdeAlarmZone.onToggleSwitch cfg itemName) (fun _ => True).
Proof.
  unfold IdeAlarmZone.onToggleSwitch.
  eapply zt_bind; [apply zt_readonly, readonly_self|]. intros z; cbv beta.
  eapply zt_bind; [apply zt_readonly, readonly_getArmingMode|]. intros mode; cbv beta zeta.
  apply zt_setArmingMode.
Qed.

Lemma zt_onEntryTimer :
  zone_triple n ads (fun _ => True) (IdeAlarmZone.onEntryTimer cfg) (fun _ => True).
Proof.
  unfold IdeAlarmZone.onEntryTimer.
  eapply zt_bind; [apply zt_readonly, readonly_self|]. intros z; cbv beta.
  eapply zt_bind; [apply zt_readonly, readonly_getZoneStatus|]. intros status; cbv beta.
  destruct (decide _); [apply zt_raise|].
  assert (Hbusy : ∀ st : option Z, st = Some ZONESTATUS.ALERT -> st ≠ Some ZONESTATUS.NORMAL)
    by (intros st ->; discriminate).
  eapply zt_bind; [apply zt_setZoneStatus|]. intros ?; cbv beta.
  eapply zt_bind.
  { destruct (negb _); [apply zt_sirens; right; exact Hbusy|apply zt_ret]. }
  intros ?; cbv beta.
  eapply zt_bind; [apply zt_write; right; right; right; exact Hbusy|].
  intros ?; cbv beta. eapply zt_any; apply zt_ret.
Qed.

Lemma zt_onExitTimer :
  zone_triple n ads (fun _ => True) (IdeAlarmZone.onExitTimer cfg) (fun _ => True).
Proof. apply zt_setArmingMode. Qed.

Lemma zt_onAlertMaxTimer :
  zone_triple n ads (fun _ => True) IdeAlarmZone.onAlertMaxTimer (fun _ => True).
Proof.
  unfold IdeAlarmZone.onAlertMaxTimer.
  eapply zt_bind; [apply zt_readonly, readonly_self|]. intros z; cbv beta.
  apply zt_sirens. now left.
Qed.

Lemma readonly_getNagSensors_loop l acc :
  readonly (IdeAlarmZone.getNagSensors_loop cfg l acc).
Proof.
  revert acc. induction l as [|sensor l IH]; intros acc; simpl.
  - apply readonly_ret.
  - apply readonly_bind; [apply readonly_dev, readonly_isEnabled|]. intros en.
    apply readonly_bind; [|intros hit; apply IH].
    destruct en; [|apply readonly_ret].
    apply readonly_bind; [apply readonly_dev, readonly_isActive|]. intros act.
    destruct (act && IdeAlarmSensor.nag sensor); [|apply readonly_ret].
    apply readonly_bind; [apply readonly_getArmingMode|]. intros mode.
    apply readonly_ret.
Qed.

Lemma readonly_countsAsOpen sensor : readonly (IdeAlarmZone.countsAsOpen cfg sensor).
Proof.
  unfold IdeAlarmZone.countsAsOpen.
  apply readonly_bind; [apply readonly_dev, readonly_isEnabled|]. intros en.
  destruct en; [|apply readonly_ret].
  apply readonly_bind; [apply readonly_dev, readonly_isActive|]. intros act.
  destruct act; [|apply readonly_ret].
  apply readonly_bind; [apply readonly_dev, readonly_getItem|]. intros item.
  destruct (decide _); [apply readonly_ret|].
  apply readonly_bind; [apply readonly_getArmingMode|]. intros mode.
  apply readonly_ret.
Qed.

Lemma zt_countOpenSections :
  zone_triple n ads (fun _ => True) (IdeAlarmZone.countOpenSections cfg) (fun _ => True).
Proof.
  unfold IdeAlarmZone.countOpenSections.
  eapply zt_bind; [apply zt_readonly, readonly_self|]. intros z; cbv beta.
  eapply zt_bind; [apply zt_update; intros; repeat split|]. intros ?; cbv beta.
  eapply zt_bind.
  { apply zt_forM_. intros sensor.
    eapply zt_bind; [apply zt_readonly, readonly_countsAsOpen|]. intros c; cbv beta.
    destruct c; [apply zt_update; intros; repeat split|apply zt_ret]. }
  intros ?; cbv beta.
  eapply zt_bind; [apply zt_readonly, readonly_self|]. intros z'; cbv beta.
  eapply zt_bind; [apply zt_write; right; left; eauto|]. intros ?; cbv beta.
  eapply zt_bind; [apply zt_readonly, readonly_self|]. intros z''; cbv beta.
  apply zt_ret.
Qed.

Lemma zt_onSensorChange sensor :
  zone_triple n ads (fun _ => True) (IdeAlarmZone.onSensorChange cfg sensor) (fun _ => True).
Proof.
  unfold IdeAlarmZone.onSensorChange.
  eapply zt_bind; [apply zt_readonly, readonly_self|]. intros z; cbv beta.
  eapply zt_bind; [apply zt_readonly, readonly_getArmingMode|]. intros mode; cbv beta.
  eapply zt_bind; [apply zt_readonly, readonly_getZoneStatus|]. intros status; cbv beta zeta.
  eapply zt_bind.
  { apply zt_readonly.
    destruct (decide _); [apply readonly_ret|].
    destruct (decide _); [apply readonly_ret|].
    destruct (decide _); [apply readonly_ret|].
    apply readonly_bind; [apply readonly_dev, readonly_getItemValue_state|].
    intros v. apply readonly_ret. }
  intros ignore; cbv beta. destruct ignore; [apply zt_ret|].
  eapply zt_bind; [apply zt_setZoneStatus|]. intros ?; cbv beta.
  eapply zt_bind;
    [apply zt_write; right; right; right; intros st ->; discriminate|].
  intros ?; cbv beta. eapply zt_any; apply zt_ret.
Qed.

Hypothesis Hnag : zoneItem n "_Nag_Timer" ∉ ads.

Lemma zt_getNagSensors timerTimedOut :
  zone_triple n ads (fun _ => True)
    (IdeAlarmZone.getNagSensors cfg timerTimedOut) (fun _ => True).
Proof.
  unfold IdeAlarmZone.getNagSensors.
  apply zt_self. intros z Hn Hads.
  eapply zt_bind; [apply zt_readonly, readonly_getNagSensors_loop|].
  intros nagSensors; cbv beta.
  assert (Hfree : zoneItem (IdeAlarmZone.zoneNumber z) "_Nag_Timer" ∉ guarded n ads).
  { rewrite Hn. now apply nag_timer_not_guarded. }
  eapply zt_bind; [|intros ?; cbv beta; apply zt_ret].
  destruct (decide _).
  - eapply zt_bind; [apply zt_write; now left|]. intros ?; cbv beta. apply zt_ret.
  - eapply zt_bind; [apply zt_write; right; right; left; exact Hfree|].
    intros ?; cbv beta. apply zt_hook.
Qed.

(** Every call keeps the invariant, whether it returns or raises. *)
Lemma zone_inv_after (c : call) (s : IdeAlarmZone.St) :
  zone_inv n ads s -> zone_inv n ads (after cfg c s).
Proof.
  intros Hinv.
  assert (Hfinal : ∀ T (m : M IdeAlarmZone.St T),
            zone_triple n ads (fun _ => True) m (fun _ => True) ->
            zone_inv n ads (final (m s))).
  { intros T m Hm. specialize (Hm s (conj Hinv I)).
    destruct (m s); simpl; apply Hm. }
  destruct c; simpl; apply Hfinal.
  - eapply zt_any; apply zt_setZoneStatus.
  - apply zt_setArmingMode.
  - apply zt_onToggleSwitch.
  - apply zt_onEntryTimer.
  - apply zt_onExitTimer.
  - apply zt_onAlertMaxTimer.
  - apply zt_getNagSensors.
  - apply zt_countOpenSections.
  - apply zt_onSensorChange.
Qed.

Lemma zone_inv_after_all (calls : list call) (s : IdeAlarmZone.St) :
  zone_inv n ads s -> zone_inv n ads (after_all cfg calls s).
Proof.
  revert s. induction calls as [|c calls IH]; intros s Hinv; simpl; [exact Hinv|].
  apply IH. now apply zone_inv_after.
Qed.

End Invariant.

(** ** The properties of the specification *)

(** C7. [setArmingMode] called with a value that is none of DISARMED,
    ARMED_HOME, ARMED_AWAY raises IdeAlarmError, and the zone object (so its
    arming mode and its status) and the device world are exactly what they
    were before the call. *)
Theorem setArmingMode_invalid_raises cfg (z : IdeAlarmZone.t) (w : World)
    (newArmingMode : Z) (sendCommand : bool) :
  newArmingMode ∉ [ARMINGMODE.DISARMED; ARMINGMODE.ARMED_HOME; ARMINGMODE.ARMED_AWAY] ->
  IdeAlarmZone.setArmingMode cfg newArmingMode sendCommand (z, w)
  = Raise (IdeAlarmError ("Trying to set an invalid arming mode: " +:+ str newArmingMode)) (z, w).
Proof.
  intros Hbad. unfold IdeAlarmZone.setArmingMode.
  erewrite bind_Ok by reflexivity. simpl.
  now rewrite decide_True.
Qed.

(** C6. [onEntryTimer] called while the zone status is not TRIPPED raises
    IdeAlarmError, and the zone object (status, arming mode) and the device
    world (alert devices, alert-max timer, trace) are exactly what they were
    before the call. *)
Theorem onEntryTimer_not_tripped_raises cfg (z : IdeAlarmZone.t) (w : World) :
  IdeAlarmZone._zoneStatus z ≠ Some ZONESTATUS.TRIPPED ->
  IdeAlarmZone.onEntryTimer cfg (z, w)
  = Raise (IdeAlarmError "Entry Timer timed out but zone status is not tripped") (z, w).
Proof.
  intros Hst. unfold IdeAlarmZone.onEntryTimer.
  erewrite bind_Ok by reflexivity.
  erewrite bind_Ok by reflexivity. simpl.
  rewrite decide_True; [reflexivity|].
  rewrite list_elem_of_singleton. exact Hst.
Qed.

(** C10. With every alert device a switch, [onAlertMaxTimer] returns, every
    alert device then reads OFF, and nothing else has changed: the zone
    object is the same (status, arming mode, open-sensor count), every
    device that is not an alert device of the zone is as it was, the timer
    devices among them, and the only things sent are OFF commands to the
    zone's alert devices, so no hook is called. *)
Theorem onAlertMaxTimer_frame (z : IdeAlarmZone.t) (w : World) :
  Forall (fun d => has_kind w d SwitchItem) (IdeAlarmZone.alertDevices z) ->
  ∃ w',
    IdeAlarmZone.onAlertMaxTimer (z, w) = Ok tt (z, w')
    ∧ (∀ d, d ∈ IdeAlarmZone.alertDevices z -> reads w' d OFF)
    ∧ (∀ j, j ∉ IdeAlarmZone.alertDevices z -> items w' !! j = items w !! j)
    ∧ (∀ t, t ∈ timerItems z -> t ∉ IdeAlarmZone.alertDevices z ->
            items w' !! t = items w !! t)
    ∧ ∃ evs, trace w' = trace w ++ evs
             ∧ Forall (fun e => ∃ d, d ∈ IdeAlarmZone.alertDevices z
                                     ∧ e = SendCommand d OFF) evs.
Proof.
  intros Hsw.
  destruct (alert_loop_Ok OFF z (IdeAlarmZone.alertDevices z) w) as [evs [Hrun Hevs]].
  { eapply Forall_impl; [exact Hsw|]. intros d Hd. unfold known, has_kind in *.
    now apply (fmap_is_Some kind); rewrite Hd. }
  eexists. split; [|split; [|split; [|split]]].
  - unfold IdeAlarmZone.onAlertMaxTimer. erewrite bind_Ok by reflexivity. exact Hrun.
  - intros d Hd. unfold reads; simpl.
    rewrite Forall_forall in Hsw. eapply write_all_state; [exact Hd|apply Hsw, Hd|reflexivity].
  - intros j Hj. simpl. now apply write_all_lookup_notin.
  - intros t _ Ht. simpl. now apply write_all_lookup_notin.
  - exists evs. split; [reflexivity|exact Hevs].
Qed.

Lemma onAlertMaxTimer_frame_witness :
  let z := Fixture.zone 1 "Perimeter" 2 1 0 [Fixture.frontDoor] in
  let w := Fixture.house ON CLOSED OFF 2 1 in
  Forall (fun d => has_kind w d SwitchItem) (IdeAlarmZone.alertDevices z)
  ∧ ∃ w', IdeAlarmZone.onAlertMaxTimer (z, w) = Ok tt (z, w')
          ∧ (∀ d, d ∈ IdeAlarmZone.alertDevices z -> reads w' d OFF)
          ∧ (∀ j, j ∉ IdeAlarmZone.alertDevices z -> items w' !! j = items w !! j)
          ∧ (∀ t, t ∈ timerItems z -> t ∉ IdeAlarmZone.alertDevices z ->
                  items w' !! t = items w !! t)
          ∧ ∃ evs, trace w' = trace w ++ evs
                   ∧ Forall (fun e => ∃ d, d ∈ IdeAlarmZone.alertDevices z
                                           ∧ e = SendCommand d OFF) evs.
Proof.
  intros z w.
  assert (H : Forall (fun d => has_kind w d SwitchItem) (IdeAlarmZone.alertDevices z)).
  { repeat constructor. }
  split; [exact H | exact (onAlertMaxTimer_frame z w H)].
Defined.

Lemma setArmingMode_invalid_raises_witness :
  let z := Fixture.zone 1 "Perimeter" 0 0 0 [Fixture.frontDoor] in
  let w := Fixture.house OFF CLOSED OFF 0 0 in
  (7%Z ∉ [ARMINGMODE.DISARMED; ARMINGMODE.ARMED_HOME; ARMINGMODE.ARMED_AWAY])
  ∧ IdeAlarmZone.setArmingMode Fixture.cfg 7 false (z, w)
    = Raise (IdeAlarmError "Trying to set an invalid arming mode: 7") (z, w).
Proof.
  intros z w.
  assert (H : 7%Z ∉ [ARMINGMODE.DISARMED; ARMINGMODE.ARMED_HOME; ARMINGMODE.ARMED_AWAY]).
  { apply (bool_decide_unpack _). vm_compute. exact I. }
  split; [exact H | exact (setArmingMode_invalid_raises Fixture.cfg z w 7 false H)].
Defined.

Lemma onEntryTimer_not_tripped_raises_witness :
  let z := Fixture.zone 1 "Perimeter" 2 0 0 [Fixture.frontDoor] in
  let w := Fixture.house OFF CLOSED OFF 2 0 in
  IdeAlarmZone._zoneStatus z ≠ Some ZONESTATUS.TRIPPED
  ∧ IdeAlarmZone.onEntryTimer Fixture.cfg (z, w)
    = Raise (IdeAlarmError "Entry Timer timed out but zone status is not tripped") (z, w).
Proof.
  intros z w.
  assert (H : IdeAlarmZone._zoneStatus z ≠ Some ZONESTATUS.TRIPPED) by discriminate.
  split; [exact H | exact (onEntryTimer_not_tripped_raises Fixture.cfg z w H)].
Defined.

(** C9. While the arming mode is not DISARMED, and with the sensors' items
    and the nag-timer switch in the registry, [getNagSensors] returns the
    empty list whatever the sensors' enabled, active and nag settings and
    whatever [timerTimedOut]; the nag-timer device then reads OFF, no other
    device has changed, the zone object is the same, and the only thing that
    can have been sent is the OFF update of the nag timer, so the nag hook
    is not called. *)
Theorem getNagSensors_armed cfg (z : IdeAlarmZone.t) (w : World) (timerTimedOut : bool) :
  IdeAlarmZone._armingMode z ≠ Some ARMINGMODE.DISARMED ->
  Forall (fun sensor => known w (IdeAlarmSensor.name sensor)) (IdeAlarmZone.sensors z) ->
  has_kind w (zoneItem (IdeAlarmZone.zoneNumber z) "_Nag_Timer") SwitchItem ->
  ∃ w',
    IdeAlarmZone.getNagSensors cfg timerTimedOut (z, w) = Ok [] (z, w')
    ∧ reads w' (zoneItem (IdeAlarmZone.zoneNumber z) "_Nag_Timer") OFF
    ∧ (∀ j, j ≠ zoneItem (IdeAlarmZone.zoneNumber z) "_Nag_Timer" ->
            items w' !! j = items w !! j)
    ∧ ∃ evs, trace w' = trace w ++ evs
             ∧ Forall (fun e => e = PostUpdate
                          (zoneItem (IdeAlarmZone.zoneNumber z) "_Nag_Timer") OFF) evs.
Proof.
  intros Hmode Hsensors Hnag.
  set (nagTimer := zoneItem (IdeAlarmZone.zoneNumber z) "_Nag_Timer") in *.
  unfold has_kind in Hnag.
  destruct (items w !! nagTimer) as [item|] eqn:Hit; [|discriminate].
  injection Hnag as Hkind.
  destruct (post_update_if_different_Ok nagTimer OFF false w item Hit) as [b Hb].
  eexists. split; [|split; [|split]].
  - unfold IdeAlarmZone.getNagSensors.
    erewrite bind_Ok by reflexivity.
    erewrite bind_Ok by (apply getNagSensors_loop_armed; assumption).
    simpl. erewrite bind_Ok; [reflexivity|].
    erewrite bind_Ok; [reflexivity|]. apply dev_Ok. exact Hb.
  - unfold reads; simpl. rewrite written_lookup, Hit. simpl.
    rewrite write_item_state; [reflexivity|]. now rewrite Hkind.
  - intros j Hj. simpl. now apply written_lookup_ne.
  - eexists. split; [reflexivity|]. simpl.
    destruct b; repeat constructor.
Qed.

(** C8. With the sensors' items and the open-sections number item in the
    registry, [countOpenSections] returns the number of enabled and active
    sensors, a motion-group sensor counting only when the zone is armed
    away; it stores that number in [openSections], the open-sections device
    then reads it, and no other device has changed.  When the enabled and
    active sensors are exactly one sensor of the motion group, the number
    is 0 under ARMED_HOME and 1 under ARMED_AWAY. *)
Theorem countOpenSections_spec cfg (z : IdeAlarmZone.t) (w : World) :
  Forall (fun sensor => known w (IdeAlarmSensor.name sensor)) (IdeAlarmZone.sensors z) ->
  has_kind w (zoneItem (IdeAlarmZone.zoneNumber z) "_Open_Sections") NumberItem ->
  let n := open_count cfg (IdeAlarmZone._armingMode z) w (IdeAlarmZone.sensors z) in
  (∃ w',
     IdeAlarmZone.countOpenSections cfg (z, w)
     = Ok n (IdeAlarmZone.with_openSections n z, w')
     ∧ reads w' (zoneItem (IdeAlarmZone.zoneNumber z) "_Open_Sections") (Decimal n)
     ∧ (∀ j, j ≠ zoneItem (IdeAlarmZone.zoneNumber z) "_Open_Sections" ->
             items w' !! j = items w !! j))
  ∧ (∀ sensor,
       List.filter (fun s => enabled_now w s && active_now cfg w s) (IdeAlarmZone.sensors z)
       = [sensor] ->
       in_motion_group w sensor = true ->
       (IdeAlarmZone._armingMode z = Some ARMINGMODE.ARMED_HOME -> n = 0%Z)
       ∧ (IdeAlarmZone._armingMode z = Some ARMINGMODE.ARMED_AWAY -> n = 1%Z)).
Proof.
  intros Hsensors Hos n.
  set (osItem := zoneItem (IdeAlarmZone.zoneNumber z) "_Open_Sections") in *.
  split.
  - unfold has_kind in Hos.
    destruct (items w !! osItem) as [item|] eqn:Hit; [|discriminate].
    injection Hos as Hkind.
    destruct (post_update_if_different_Ok osItem (Decimal n) false w item Hit) as [b Hb].
    eexists. split; [|split].
    + unfold IdeAlarmZone.countOpenSections.
      erewrite bind_Ok by reflexivity.
      erewrite bind_Ok by reflexivity.
      erewrite bind_Ok.
      2:{ apply (countOpenSections_loop cfg w (IdeAlarmZone.sensors z)
                   (IdeAlarmZone.with_openSections 0 z)). exact Hsensors. }
      simpl. fold n.
      erewrite bind_Ok by reflexivity.
      erewrite bind_Ok by (apply dev_Ok; simpl; exact Hb).
      reflexivity.
    + unfold reads; simpl. rewrite written_lookup, Hit. simpl.
      rewrite write_item_state; [reflexivity|]. now rewrite Hkind.
    + intros j Hj. simpl. now apply written_lookup_ne.
  - intros sensor Hone Hmotion. subst n. unfold open_count.
    rewrite open_section_filter, Hone. simpl. rewrite Hmotion. simpl.
    split; intros ->; reflexivity.
Qed.

Lemma getNagSensors_armed_witness :
  let z := Fixture.zone 1 "Perimeter" 1 0 0 [Fixture.frontDoor; Fixture.hallMotion] in
  let w := Fixture.house OFF OPEN ON 1 0 in
  IdeAlarmZone._armingMode z ≠ Some ARMINGMODE.DISARMED
  ∧ Forall (fun sensor => known w (IdeAlarmSensor.name sensor)) (IdeAlarmZone.sensors z)
  ∧ has_kind w (zoneItem (IdeAlarmZone.zoneNumber z) "_Nag_Timer") SwitchItem
  ∧ ∃ w', IdeAlarmZone.getNagSensors Fixture.cfg true (z, w) = Ok [] (z, w')
          ∧ reads w' "Z1_Nag_Timer" OFF.
Proof.
  intros z w.
  assert (H1 : IdeAlarmZone._armingMode z ≠ Some ARMINGMODE.DISARMED) by discriminate.
  assert (H2 : Forall (fun sensor => known w (IdeAlarmSensor.name sensor))
                 (IdeAlarmZone.sensors z)).
  { repeat (apply List.Forall_cons; [eexists; vm_compute; reflexivity|]). apply List.Forall_nil. }
  assert (H3 : has_kind w (zoneItem (IdeAlarmZone.zoneNumber z) "_Nag_Timer") SwitchItem).
  { vm_compute. reflexivity. }
  destruct (getNagSensors_armed Fixture.cfg z w true H1 H2 H3) as [w' [Hrun [Hoff _]]].
  repeat split; try assumption. exists w'. split; assumption.
Defined.

Lemma countOpenSections_spec_witness :
  let z := Fixture.zone 1 "Perimeter" 1 0 0 [Fixture.frontDoor; Fixture.hallMotion] in
  let w := Fixture.house OFF CLOSED ON 1 0 in
  Forall (fun sensor => known w (IdeAlarmSensor.name sensor)) (IdeAlarmZone.sensors z)
  ∧ has_kind w (zoneItem (IdeAlarmZone.zoneNumber z) "_Open_Sections") NumberItem
  ∧ List.filter (fun s => enabled_now w s && active_now Fixture.cfg w s)
      (IdeAlarmZone.sensors z) = [Fixture.hallMotion]
  ∧ in_motion_group w Fixture.hallMotion = true
  ∧ IdeAlarmZone._armingMode z = Some ARMINGMODE.ARMED_HOME
  ∧ open_count Fixture.cfg (IdeAlarmZone._armingMode z) w (IdeAlarmZone.sensors z) = 0%Z
  ∧ ∃ w', IdeAlarmZone.countOpenSections Fixture.cfg (z, w)
          = Ok 0%Z (IdeAlarmZone.with_openSections 0 z, w').
Proof.
  intros z w.
  assert (H1 : Forall (fun sensor => known w (IdeAlarmSensor.name sensor))
                 (IdeAlarmZone.sensors z)).
  { repeat (apply List.Forall_cons; [eexists; vm_compute; reflexivity|]). apply List.Forall_nil. }
  assert (H2 : has_kind w (zoneItem (IdeAlarmZone.zoneNumber z) "_Open_Sections") NumberItem).
  { vm_compute. reflexivity. }
  assert (H3 : List.filter (fun s => enabled_now w s && active_now Fixture.cfg w s)
                 (IdeAlarmZone.sensors z) = [Fixture.hallMotion]).
  { vm_compute. reflexivity. }
  assert (H4 : in_motion_group w Fixture.hallMotion = true).
  { vm_compute. reflexivity. }
  assert (H5 : IdeAlarmZone._armingMode z = Some ARMINGMODE.ARMED_HOME) by reflexivity.
  destruct (countOpenSections_spec Fixture.cfg z w H1 H2) as [[w' [Hrun _]] Hone].
  destruct (Hone Fixture.hallMotion H3 H4) as [Hhome _].
  specialize (Hhome H5).
  repeat split; try assumption.
  exists w'. rewrite Hhome in Hrun. exact Hrun.
Defined.

(** C4. [getAlertingZonesCount] returns, and leaves every zone and device
    as it was, exactly the number of zones whose own status is ALERT,
    whatever the zones and their statuses.  The loop asks for the zone of
    ordinal [i], which is the zone at index [i - 1]: the last zone for
    [i = 0], then the zones before it in order, each zone once. *)
Theorem getAlertingZonesCount_exact (zones : list IdeAlarmZone.t) (w : World) :
  IdeAlarm.getAlertingZonesCount (zones, w)
  = Ok (Z.of_nat (length (List.filter alerting zones))) (zones, w).
Proof.
  unfold IdeAlarm.getAlertingZonesCount.
  erewrite bind_Ok by reflexivity.
  destruct zones as [|z0 rest] using rev_ind; [reflexivity|].
  cbn [fst]. rewrite length_app. change (length [z0]) with 1.
  rewrite Nat.add_1_r. simpl seq.
  simpl IdeAlarm.getAlertingZonesCount_loop.
  erewrite bind_Ok by apply getZoneStatus_zero.
  rewrite getAlertingZonesCount_loop_ordinals by (rewrite length_app; simpl; lia).
  rewrite drop_0, take_app_length.
  rewrite List.filter_app, length_app. simpl List.filter. unfold alerting at 3.
  destruct (decide (IdeAlarmZone._zoneStatus z0 = Some ZONESTATUS.ALERT)) as [He|Hn].
  - rewrite bool_decide_eq_true_2 by assumption. simpl length. f_equal. lia.
  - rewrite bool_decide_eq_false_2 by assumption. simpl length. f_equal. lia.
Qed.

(** C3. For a zone whose policy forbids arming with tripped sensors, whose
    status is defined and not ARMING and which has open sections,
    [setArmingMode] with ARMED_HOME or ARMED_AWAY leaves the arming mode as
    it was, wherever the call ends.  With the status item, the three timers
    and the alert devices in the registry the call returns after two status
    changes: [setZoneStatus ERROR] succeeds and leaves the status ERROR,
    then, after the pause, [setZoneStatus NORMAL] succeeds and leaves the
    status NORMAL.  The arming mode is the old one in both states, and the
    notifications of the call are, in order: the open-sensors hook, the
    status hook for ERROR, the pause, the status hook for NORMAL (each hook
    if installed); the arming-mode hook is not among them. *)
Theorem setArmingMode_open_sensors_rejected cfg (z : IdeAlarmZone.t) (w : World)
    (newArmingMode : Z) (sendCommand : bool) (status : Z) :
  newArmingMode = ARMINGMODE.ARMED_HOME ∨ newArmingMode = ARMINGMODE.ARMED_AWAY ->
  IdeAlarmZone.canArmWithTrippedSensors z = false ->
  IdeAlarmZone._zoneStatus z = Some status ->
  status ≠ ZONESTATUS.ARMING ->
  (0 < IdeAlarmZone.openSections z)%Z ->
  IdeAlarmZone._armingMode
    (fst (final (IdeAlarmZone.setArmingMode cfg newArmingMode sendCommand (z, w))))
  = IdeAlarmZone._armingMode z
  ∧ (known w (IdeAlarmZone.statusItem z) ->
     Forall (known w) (guarded (IdeAlarmZone.zoneNumber z) (IdeAlarmZone.alertDevices z)) ->
     let hook1 := if has_onArmingWithOpenSensors (custom cfg)
                  then [OnArmingWithOpenSensors (IdeAlarmZone.zoneNumber z) newArmingMode]
                  else [] in
     let w0 := {| items := items w; trace := trace w ++ hook1 |} in
     ∃ z1 w1 z2 w2,
       IdeAlarmZone.setZoneStatus cfg ZONESTATUS.ERROR false
         (Some "Arming is not allowed with open sensors") (z, w0) = Ok tt (z1, w1)
       ∧ IdeAlarmZone._zoneStatus z1 = Some ZONESTATUS.ERROR
       ∧ IdeAlarmZone._armingMode z1 = IdeAlarmZone._armingMode z
       ∧ IdeAlarmZone.setZoneStatus cfg ZONESTATUS.NORMAL false None
           (z1, {| items := items w1; trace := trace w1 ++ [Sleep 1] |}) = Ok tt (z2, w2)
       ∧ IdeAlarmZone._zoneStatus z2 = Some ZONESTATUS.NORMAL
       ∧ IdeAlarmZone._armingMode z2 = IdeAlarmZone._armingMode z
       ∧ IdeAlarmZone.setArmingMode cfg newArmingMode sendCommand (z, w) = Ok tt (z2, w2)
       ∧ ∃ evs,
           trace w2 = trace w ++ evs
           ∧ notifications evs
             = hook1
               ++ (if has_onZoneStatusChange (custom cfg)
                   then [OnZoneStatusChange (IdeAlarmZone.zoneNumber z) ZONESTATUS.ERROR
                           (Some status) (Some "Arming is not allowed with open sensors")]
                   else [])
               ++ [Sleep 1]
               ++ (if has_onZoneStatusChange (custom cfg)
                   then [OnZoneStatusChange (IdeAlarmZone.zoneNumber z) ZONESTATUS.NORMAL
                           (Some ZONESTATUS.ERROR) None]
                   else [])).
Proof.
  intros Hmode Hpolicy Hstatus Harming Hopen.
  split; [now apply (setArmingMode_stopped_keeps_mode cfg z w _ _ status)|].
  intros Hst Hg hook1 w0.
  destruct (setZoneStatus_Ok cfg z w0 ZONESTATUS.ERROR false
              (Some "Arming is not allowed with open sensors")) as [evs1 [R1 N1]];
    [by_computation|discriminate|exact Hst|].
  match type of R1 with _ = Ok _ (?a, ?b) => set (z1 := a) in *; set (w1 := b) in * end.
  set (w1' := {| items := items w1; trace := trace w1 ++ [Sleep 1] |}).
  assert (K : ∀ j, known w j -> known w1' j).
  { intros j Hj. unfold known, w1', w1, status_items; simpl.
    now apply written_known. }
  destruct (setZoneStatus_Ok cfg z1 w1' ZONESTATUS.NORMAL false None) as [evs2 [R2 N2]];
    [by_computation| |apply K, Hst|].
  { intros _. eapply Forall_impl; [exact Hg|]. exact K. }
  match type of R2 with _ = Ok _ (?a, ?b) => set (z2 := a) in *; set (w2 := b) in * end.
  exists z1, w1, z2, w2.
  split; [exact R1|]. split; [reflexivity|]. split; [reflexivity|].
  split; [exact R2|]. split; [reflexivity|]. split; [reflexivity|].
  split.
  - unfold IdeAlarmZone.setArmingMode.
    erewrite bind_Ok by reflexivity. cbn zeta.
    rewrite decide_False by (intros Hbad; apply Hbad; destruct Hmode as [-> | ->]; by_computation).
    erewrite bind_Ok by reflexivity. cbn [fst snd].
    rewrite decide_True.
    2:{ rewrite Hstatus. repeat split; try congruence; try assumption.
        destruct Hmode as [-> | ->]; by_computation. }
    rewrite Hpolicy. cbn [negb].
    erewrite (bind_Ok _ _ _ (z, w0)).
    2:{ unfold hook1, w0. destruct (has_onArmingWithOpenSensors (custom cfg)).
        - reflexivity.
        - unfold mret, M_ret. destruct w; simpl. now rewrite app_nil_r. }
    erewrite bind_Ok by exact R1.
    erewrite bind_Ok by reflexivity.
    exact R2.
  - eexists. split.
    + unfold w2, w1', w1, w0. simpl. rewrite <- !app_assoc. reflexivity.
    + rewrite !notifications_app, N1, N2.
      assert (Hh : notifications hook1 = hook1).
      { unfold hook1. now destruct (has_onArmingWithOpenSensors (custom cfg)). }
      rewrite Hh. unfold z1. simpl. rewrite Hstatus. reflexivity.
Qed.

Lemma setArmingMode_open_sensors_rejected_witness :
  let z := Fixture.zone 1 "Perimeter" 0 0 1 [Fixture.frontDoor] in
  let w := Fixture.house OFF OPEN OFF 0 0 in
  (ARMINGMODE.ARMED_HOME = ARMINGMODE.ARMED_HOME
   ∨ ARMINGMODE.ARMED_HOME = ARMINGMODE.ARMED_AWAY)
  ∧ IdeAlarmZone.canArmWithTrippedSensors z = false
  ∧ IdeAlarmZone._zoneStatus z = Some ZONESTATUS.NORMAL
  ∧ ZONESTATUS.NORMAL ≠ ZONESTATUS.ARMING
  ∧ (0 < IdeAlarmZone.openSections z)%Z
  ∧ known w (IdeAlarmZone.statusItem z)
  ∧ Forall (known w) (guarded (IdeAlarmZone.zoneNumber z) (IdeAlarmZone.alertDevices z))
  ∧ ∃ z2 w2,
      IdeAlarmZone.setArmingMode Fixture.cfg ARMINGMODE.ARMED_HOME false (z, w) = Ok tt (z2, w2)
      ∧ IdeAlarmZone._zoneStatus z2 = Some ZONESTATUS.NORMAL
      ∧ IdeAlarmZone._armingMode z2 = Some ARMINGMODE.DISARMED.
Proof.
  intros z w.
  assert (H1 : ARMINGMODE.ARMED_HOME = ARMINGMODE.ARMED_HOME
               ∨ ARMINGMODE.ARMED_HOME = ARMINGMODE.ARMED_AWAY) by (left; reflexivity).
  assert (H2 : IdeAlarmZone.canArmWithTrippedSensors z = false) by reflexivity.
  assert (H3 : IdeAlarmZone._zoneStatus z = Some ZONESTATUS.NORMAL) by reflexivity.
  assert (H4 : ZONESTATUS.NORMAL ≠ ZONESTATUS.ARMING) by discriminate.
  assert (H5 : (0 < IdeAlarmZone.openSections z)%Z) by reflexivity.
  assert (H6 : known w (IdeAlarmZone.statusItem z)) by (eexists; vm_compute; reflexivity).
  assert (H7 : Forall (known w)
                 (guarded (IdeAlarmZone.zoneNumber z) (IdeAlarmZone.alertDevices z))).
  { repeat (apply List.Forall_cons; [eexists; vm_compute; reflexivity|]). apply List.Forall_nil. }
  destruct (setArmingMode_open_sensors_rejected Fixture.cfg z w ARMINGMODE.ARMED_HOME
              false ZONESTATUS.NORMAL H1 H2 H3 H4 H5) as [_ Hseq].
  destruct (Hseq H6 H7) as [z1 [w1 [z2 [w2 [_ [_ [_ [_ [Hs [Hm [Hrun _]]]]]]]]]]].
  repeat split; try assumption. exists z2, w2. repeat split; assumption.
Defined.

(** C2, as stated, fails when the open-sensors check stops the request:
    the status is defined and not ARMING, yet after [setArmingMode
    ARMED_AWAY] the status is NORMAL, not ARMING, and the exit timer is
    off. *)
Lemma setArmingMode_away_blocked_counterexample :
  let z := Fixture.zone 1 "Perimeter" 0 0 1 [Fixture.frontDoor] in
  let w := Fixture.house OFF OPEN OFF 0 0 in
  IdeAlarmZone._zoneStatus z = Some ZONESTATUS.NORMAL
  ∧ ∃ z1 w1,
      IdeAlarmZone.setArmingMode Fixture.cfg ARMINGMODE.ARMED_AWAY false (z, w) = Ok tt (z1, w1)
      ∧ IdeAlarmZone._zoneStatus z1 ≠ Some ZONESTATUS.ARMING
      ∧ ¬ reads w1 (zoneItem 1 "_Exit_Timer") ON.
Proof.
  intros z w. split; [reflexivity|].
  eexists _, _. split; [vm_compute; reflexivity|].
  split; [discriminate|]. vm_compute. discriminate.
Qed.

(** C2, amended.  For a zone whose status is defined and not ARMING and
    which the open-sensors check does not stop (the policy allows arming
    with tripped sensors, or no section is open), and with the zone's
    devices in the registry, the exit timer being a switch:
    [setArmingMode ARMED_AWAY] returns with the arming mode unchanged, the
    status ARMING and the exit timer reading ON, without calling the
    arming-mode hook; the following [onExitTimer] returns with the arming
    mode ARMED_AWAY (and the status NORMAL). *)
Theorem setArmingMode_away_deferred cfg (z : IdeAlarmZone.t) (w : World)
    (sendCommand : bool) (status : Z) :
  IdeAlarmZone._zoneStatus z = Some status ->
  status ≠ ZONESTATUS.ARMING ->
  IdeAlarmZone.canArmWithTrippedSensors z = true ∨ (IdeAlarmZone.openSections z <= 0)%Z ->
  known w (IdeAlarmZone.statusItem z) ->
  known w (IdeAlarmZone.armingModeItem z) ->
  has_kind w (zoneItem (IdeAlarmZone.zoneNumber z) "_Exit_Timer") SwitchItem ->
  Forall (known w) (guarded (IdeAlarmZone.zoneNumber z) (IdeAlarmZone.alertDevices z)) ->
  ∃ z1 w1 z2 w2,
    IdeAlarmZone.setArmingMode cfg ARMINGMODE.ARMED_AWAY sendCommand (z, w) = Ok tt (z1, w1)
    ∧ IdeAlarmZone._armingMode z1 = IdeAlarmZone._armingMode z
    ∧ IdeAlarmZone._zoneStatus z1 = Some ZONESTATUS.ARMING
    ∧ reads w1 (zoneItem (IdeAlarmZone.zoneNumber z) "_Exit_Timer") ON
    ∧ (∃ evs, trace w1 = trace w ++ evs
              ∧ Forall (fun e => ∀ n m o, e ≠ OnArmingModeChange n m o) evs)
    ∧ IdeAlarmZone.onExitTimer cfg (z1, w1) = Ok tt (z2, w2)
    ∧ IdeAlarmZone._armingMode z2 = Some ARMINGMODE.ARMED_AWAY
    ∧ IdeAlarmZone._zoneStatus z2 = Some ZONESTATUS.NORMAL.
Proof.
  intros Hstatus Harming Hpass Hst Hmode Hexit Hg.
  set (exitTimer := zoneItem (IdeAlarmZone.zoneNumber z) "_Exit_Timer") in *.
  assert (Hexit' : known w exitTimer).
  { unfold known. apply (fmap_is_Some kind). unfold has_kind in Hexit. now rewrite Hexit. }
  (* the first call *)
  destruct (setArmingMode_passes cfg z w ARMINGMODE.ARMED_AWAY sendCommand)
    as [hook1 [E1 Hhook1]]; [by_computation| |].
  { destruct Hpass as [Hc|Ho]; [now left|right]. intros [_ [_ [_ Hpos]]]. lia. }
  set (w0 := {| items := items w; trace := trace w ++ hook1 |}) in *.
  destruct (setArmingMode_proceed_defers cfg z w0 sendCommand
              (IdeAlarmZone._armingMode z) status Hstatus Harming Hst Hexit')
    as [evs1 [R1 Hevs1]].
  rewrite R1 in E1.
  match type of E1 with _ = Ok _ (?a, ?b) => set (z1 := a) in *; set (w1 := b) in * end.
  assert (K : ∀ j, known w j -> known w1 j).
  { intros j Hj. unfold known, w1, status_items; simpl.
    now rewrite !written_known. }
  (* the exit timer fires *)
  destruct (setArmingMode_passes cfg z1 w1 ARMINGMODE.ARMED_AWAY false)
    as [hook2 [E2 _]]; [by_computation| |].
  { right. intros [_ [Hne _]]. now apply Hne. }
  destruct (setArmingMode_proceed_installs cfg z1
              {| items := items w1; trace := trace w1 ++ hook2 |}
              ARMINGMODE.ARMED_AWAY false (IdeAlarmZone._armingMode z1)) as [evs2 R2].
  { intros [_ [_ Hne]]. now apply Hne. }
  { apply K, Hmode. }
  { apply K, Hst. }
  { eapply Forall_impl; [exact Hg|]. exact K. }
  rewrite R2 in E2.
  eexists z1, w1, _, _.
  split; [exact E1|]. split; [reflexivity|]. split; [reflexivity|].
  split.
  { unfold reads, w1; simpl. unfold status_items.
    rewrite decide_False by discriminate. unfold has_kind in Hexit.
    rewrite <- (written_kind (IdeAlarmZone.statusItem z) exitTimer
                  (Decimal ZONESTATUS.ARMING) false) in Hexit.
    eapply written_reads; [exact Hexit|reflexivity]. }
  split.
  { exists (hook1 ++ evs1). split; [unfold w1, w0; simpl; now rewrite app_assoc|].
    apply Forall_app. split; [|exact Hevs1].
    eapply Forall_impl; [exact Hhook1|]. intros e [n [m ->]] n' m' o. discriminate. }
  split; [exact E2|]. split; reflexivity.
Qed.

Lemma setArmingMode_away_deferred_witness :
  let z := Fixture.zone 1 "Perimeter" 0 0 0 [Fixture.frontDoor] in
  let w := Fixture.house OFF CLOSED OFF 0 0 in
  IdeAlarmZone._zoneStatus z = Some ZONESTATUS.NORMAL
  ∧ ZONESTATUS.NORMAL ≠ ZONESTATUS.ARMING
  ∧ (IdeAlarmZone.canArmWithTrippedSensors z = true ∨ (IdeAlarmZone.openSections z <= 0)%Z)
  ∧ known w (IdeAlarmZone.statusItem z)
  ∧ known w (IdeAlarmZone.armingModeItem z)
  ∧ has_kind w (zoneItem (IdeAlarmZone.zoneNumber z) "_Exit_Timer") SwitchItem
  ∧ Forall (known w) (guarded (IdeAlarmZone.zoneNumber z) (IdeAlarmZone.alertDevices z))
  ∧ ∃ z1 w1 z2 w2,
      IdeAlarmZone.setArmingMode Fixture.cfg ARMINGMODE.ARMED_AWAY false (z, w) = Ok tt (z1, w1)
      ∧ IdeAlarmZone._armingMode z1 = Some ARMINGMODE.DISARMED
      ∧ IdeAlarmZone._zoneStatus z1 = Some ZONESTATUS.ARMING
      ∧ reads w1 (zoneItem 1 "_Exit_Timer") ON
      ∧ IdeAlarmZone.onExitTimer Fixture.cfg (z1, w1) = Ok tt (z2, w2)
      ∧ IdeAlarmZone._armingMode z2 = Some ARMINGMODE.ARMED_AWAY.
Proof.
  intros z w.
  assert (H1 : IdeAlarmZone._zoneStatus z = Some ZONESTATUS.NORMAL) by reflexivity.
  assert (H2 : ZONESTATUS.NORMAL ≠ ZONESTATUS.ARMING) by discriminate.
  assert (H3 : IdeAlarmZone.canArmWithTrippedSensors z = true
               ∨ (IdeAlarmZone.openSections z <= 0)%Z) by (right; reflexivity).
  assert (H4 : known w (IdeAlarmZone.statusItem z)) by (eexists; vm_compute; reflexivity).
  assert (H5 : known w (IdeAlarmZone.armingModeItem z)) by (eexists; vm_compute; reflexivity).
  assert (H6 : has_kind w (zoneItem (IdeAlarmZone.zoneNumber z) "_Exit_Timer") SwitchItem)
    by (vm_compute; reflexivity).
  assert (H7 : Forall (known w)
                 (guarded (IdeAlarmZone.zoneNumber z) (IdeAlarmZone.alertDevices z))).
  { repeat (apply List.Forall_cons; [eexists; vm_compute; reflexivity|]). apply List.Forall_nil. }
  destruct (setArmingMode_away_deferred Fixture.cfg z w false ZONESTATUS.NORMAL
              H1 H2 H3 H4 H5 H6 H7)
    as [z1 [w1 [z2 [w2 [R1 [M1 [S1 [X1 [_ [R2 [M2 _]]]]]]]]]]].
  repeat split; try assumption.
  exists z1, w1, z2, w2. repeat split; assumption.
Defined.

(** In the toggle and timer branches of [execute] the [break] ends the zone
    loop: the zones still to come play no part in the result. *)
Lemma execute_zones_toggle_or_timer_stops cfg (ev : IdeAlarm.event) (i : nat)
    (range range' : list nat) (zones : list IdeAlarmZone.t) (w : World) z :
  zones !! i = Some z ->
  IdeAlarm.itemName ev ∈ [IdeAlarmZone.armAwayToggleSwitch z;
                          IdeAlarmZone.armHomeToggleSwitch z]
  ∨ IdeAlarm.itemName ev ∈ [zoneItem (Z.of_nat (i + 1)) "_Entry_Timer";
                            zoneItem (Z.of_nat (i + 1)) "_Exit_Timer";
                            zoneItem (Z.of_nat (i + 1)) "_Nag_Timer";
                            zoneItem (Z.of_nat (i + 1)) "_Alert_Max_Timer"] ->
  IdeAlarm.execute_zones cfg ev (i :: range) (zones, w)
  = IdeAlarm.execute_zones cfg ev (i :: range') (zones, w).
Proof.
  intros Hz Hmatch.
  assert (Hself : IdeAlarm.onZone i IdeAlarmZone.self (zones, w) = Ok z (zones, w)).
  { unfold IdeAlarm.onZone. simpl. rewrite Hz. simpl. now rewrite list_insert_id. }
  simpl. rewrite !(bind_Ok _ _ _ _ _ Hself).
  repeat (match goal with |- context [decide ?P] => destruct (decide P) end;
          [reflexivity|]).
  exfalso. destruct Hmatch as [Hm|Hm]; [contradiction|].
  repeat (apply elem_of_cons in Hm as [Hm|Hm]; [contradiction|]).
  now apply elem_of_nil in Hm.
Qed.

(** C5.  Two zones that both list the sensor FrontDoor, both armed home
    and NORMAL; the door opens.  [execute] handles the event in the first
    zone and then goes on to the second zone as well: both zones end
    TRIPPED with their entry timers started.  The [break] of the sensor
    branch leaves the sensor loop only, unlike the [break] of the toggle
    and timer branches. *)
Theorem execute_sensor_match_reaches_later_zone :
  let zones := [Fixture.zone 1 "Perimeter" 1 0 0 [Fixture.frontDoor];
                Fixture.zone 2 "Annex" 1 0 0 [Fixture.frontDoor]] in
  let w := Fixture.estate OPEN 1 0 in
  ∃ zones' w',
    IdeAlarm.execute Fixture.cfg {| IdeAlarm.itemName := "FrontDoor" |} (zones, w)
    = Ok tt (zones', w')
    ∧ IdeAlarmZone._zoneStatus <$> zones'
      = [Some ZONESTATUS.TRIPPED; Some ZONESTATUS.TRIPPED]
    ∧ reads w' "Z1_Entry_Timer" ON
    ∧ reads w' "Z2_Entry_Timer" ON.
Proof.
  intros zones w. eexists _, _.
  split; [vm_compute; reflexivity|].
  split; [reflexivity|]. split; vm_compute; reflexivity.
Qed.

(** C1, as stated, fails for the nag timer: [setZoneStatus] does not touch
    it.  A disarmed zone with its front door open: [getNagSensors] starts
    the nag timer, and right after [setZoneStatus NORMAL] the status is
    NORMAL while the nag timer still reads ON. *)
Lemma normal_status_nag_timer_counterexample :
  let z := Fixture.zone 1 "Perimeter" 0 0 0 [Fixture.frontDoor] in
  let w := Fixture.house OFF OPEN OFF 0 0 in
  let s1 := final (IdeAlarmZone.getNagSensors Fixture.cfg false (z, w)) in
  let s2 := final (IdeAlarmZone.setZoneStatus Fixture.cfg ZONESTATUS.NORMAL false None s1) in
  IdeAlarmZone._zoneStatus (fst s2) = Some ZONESTATUS.NORMAL
  ∧ reads (snd s2) (zoneItem 1 "_Nag_Timer") ON
  ∧ ¬ reads (snd s2) (zoneItem 1 "_Nag_Timer") OFF.
Proof.
  intros z w s1 s2. split; [reflexivity|].
  split; [vm_compute; reflexivity|]. vm_compute. discriminate.
Qed.

(** The invariant of a zone is about that zone's own calls.  Two zones may
    list the same siren: when the entry timer of the second zone fires,
    the siren sounds while the first zone is still NORMAL. *)
Lemma shared_siren_sounds_while_other_zone_normal :
  let zones := [Fixture.zone 1 "Perimeter" 1 0 0 [Fixture.frontDoor];
                Fixture.zone 2 "Annex" 1 3 0 [Fixture.frontDoor]] in
  let w := Fixture.estate CLOSED 1 0 in
  ∃ z1 z2 w',
    IdeAlarm.execute Fixture.cfg {| IdeAlarm.itemName := "Z2_Entry_Timer" |} (zones, w)
    = Ok tt ([z1; z2], w')
    ∧ IdeAlarmZone._zoneStatus z1 = Some ZONESTATUS.NORMAL
    ∧ IdeAlarmZone._zoneStatus z2 = Some ZONESTATUS.ALERT
    ∧ IdeAlarmZone.alertDevices z1 = ["Siren"]
    ∧ reads w' "Siren" ON.
Proof.
  intros zones w. eexists _, _, _.
  split; [vm_compute; reflexivity|].
  repeat split; vm_compute; reflexivity.
Qed.

(** C1, amended.  Let the entry, exit and alert-max timers of the zone and
    its alert devices be switches, and let the nag timer not be listed as
    an alert device.  Then after [setZoneStatus NORMAL], returned or
    raised, the status is NORMAL, and after any further calls of the
    zone's methods, returned or raised, whenever the status is NORMAL the
    entry, exit and alert-max timers and every alert device read OFF.
    (With no further call: right after [setZoneStatus NORMAL].) *)
Theorem normal_status_quiet cfg (z : IdeAlarmZone.t) (w : World)
    (sendCommand : bool) (errorMessage : option string) (calls : list call) :
  (∀ j, j ∈ guarded (IdeAlarmZone.zoneNumber z) (IdeAlarmZone.alertDevices z) ->
        has_kind w j SwitchItem) ->
  zoneItem (IdeAlarmZone.zoneNumber z) "_Nag_Timer" ∉ IdeAlarmZone.alertDevices z ->
  let s1 := final (IdeAlarmZone.setZoneStatus cfg ZONESTATUS.NORMAL
                     sendCommand errorMessage (z, w)) in
  let s2 := after_all cfg calls s1 in
  IdeAlarmZone._zoneStatus (fst s1) = Some ZONESTATUS.NORMAL
  ∧ (IdeAlarmZone._zoneStatus (fst s2) = Some ZONESTATUS.NORMAL ->
     ∀ j, j ∈ guarded (IdeAlarmZone.zoneNumber z) (IdeAlarmZone.alertDevices z) ->
          reads (snd s2) j OFF).
Proof.
  intros Hsw Hnag s1 s2.
  pose proof (setZoneStatus_establishes cfg _ _ z w ZONESTATUS.NORMAL sendCommand
                errorMessage eq_refl eq_refl Hsw ltac:(by_computation)) as [Hinv Hst].
  fold s1 in Hinv, Hst. split; [exact Hst|].
  pose proof (zone_inv_after_all cfg _ _ Hnag calls s1 Hinv) as (_ & _ & _ & Hcalm).
  exact Hcalm.
Qed.

Lemma normal_status_quiet_witness :
  let z := Fixture.zone 1 "Perimeter" 2 1 0 [Fixture.frontDoor] in
  let w := Fixture.house ON OPEN OFF 2 1 in
  let s1 := final (IdeAlarmZone.setZoneStatus Fixture.cfg ZONESTATUS.NORMAL false None (z, w)) in
  let s2 := after_all Fixture.cfg
              [OnSensorChange Fixture.frontDoor; OnEntryTimer; OnAlertMaxTimer;
               OnToggleSwitch "Z1_Toggle_Away"] s1 in
  (∀ j, j ∈ guarded (IdeAlarmZone.zoneNumber z) (IdeAlarmZone.alertDevices z) ->
        has_kind w j SwitchItem)
  ∧ (zoneItem (IdeAlarmZone.zoneNumber z) "_Nag_Timer" ∉ IdeAlarmZone.alertDevices z)
  ∧ IdeAlarmZone._zoneStatus (fst s2) = Some ZONESTATUS.NORMAL
  ∧ ∀ j, j ∈ guarded (IdeAlarmZone.zoneNumber z) (IdeAlarmZone.alertDevices z) ->
         reads (snd s2) j OFF.
Proof.
  intros z w s1 s2.
  assert (H1 : ∀ j, j ∈ guarded (IdeAlarmZone.zoneNumber z) (IdeAlarmZone.alertDevices z) ->
                    has_kind w j SwitchItem).
  { apply Forall_forall.
    repeat (apply List.Forall_cons; [vm_compute; reflexivity|]). apply List.Forall_nil. }
  assert (H2 : zoneItem (IdeAlarmZone.zoneNumber z) "_Nag_Timer"
               ∉ IdeAlarmZone.alertDevices z) by by_computation.
  assert (H3 : IdeAlarmZone._zoneStatus (fst s2) = Some ZONESTATUS.NORMAL)
    by (vm_compute; reflexivity).
  destruct (normal_status_quiet Fixture.cfg z w false None
              [OnSensorChange Fixture.frontDoor; OnEntryTimer; OnAlertMaxTimer;
               OnToggleSwitch "Z1_Toggle_Away"] H1 H2) as [_ Hquiet].
  split; [exact H1|]. split; [exact H2|]. split; [exact H3|]. exact (Hquiet H3).
Defined.

(** * Further properties of the code *)

(** ** core.utils *)

Lemma post_update_if_different_cases (itemName : string) v c (w : World) item :
  items w !! itemName = Some item ->
  (accepted c (kind item) v = true ∧ state item ≠ v
   ∧ utils.post_update_if_different itemName v c w
     = Ok true {| items := <[itemName := set_state item v]> (items w);
                  trace := trace w ++ [write_event itemName v c] |})
  ∨ ((accepted c (kind item) v = false ∨ state item = v)
     ∧ utils.post_update_if_different itemName v c w = Ok false w).
Proof.
  intros Hit. unfold utils.post_update_if_different.
  erewrite bind_Ok by (unfold scope.getItem; rewrite Hit; reflexivity).
  unfold accepted, write_event.
  assert (Hparsed : ∀ cv, (if c then scope.parseCommand (kind item) v
                          else scope.parseState (kind item) v) = Some cv -> cv = v).
  { intros cv. destruct c; [apply parseCommand_Some | apply parseState_Some]. }
  destruct (if c then scope.parseCommand (kind item) v
            else scope.parseState (kind item) v) as [cv|] eqn:Hp.
  - rewrite (Hparsed cv eq_refl). destruct (decide (state item ≠ v)) as [Hne|Heq].
    + left. split; [reflexivity|]. split; [exact Hne|].
      destruct c;
        unfold scope.sendCommand, scope.postUpdate, scope.store, emit, mbind, M_bind, mret, M_ret;
        rewrite Hit; reflexivity.
    + right. apply dec_stable in Heq. split; [now right|reflexivity].
  - right. split; [now left|reflexivity].
Qed.

(** X1. [post_update_if_different] on an item of the registry returns
    [True] exactly when the item accepts the value and its state differs
    from it; then the item reads the value, no other item has changed and
    one event was sent.  When it returns [False] nothing at all has
    changed. *)
Theorem post_update_if_different_flag (itemName : string) v c (w : World) item :
  items w !! itemName = Some item ->
  ∃ (b : bool) w',
    utils.post_update_if_different itemName v c w = Ok b w'
    ∧ (b = true <-> accepted c (kind item) v = true ∧ state item ≠ v)
    ∧ (b = false -> w' = w)
    ∧ (b = true ->
       reads w' itemName v
       ∧ (∀ j, j ≠ itemName -> items w' !! j = items w !! j)
       ∧ trace w' = trace w ++ [write_event itemName v c]).
Proof.
  intros Hit.
  destruct (post_update_if_different_cases itemName v c w item Hit)
    as [(Hacc & Hne & R)|(Hno & R)]; rewrite R; eexists _, _; (split; [reflexivity|]).
  - split; [tauto|]. split; [discriminate|]. intros _. split; [|split].
    + unfold reads; simpl. now rewrite lookup_insert_eq.
    + intros j Hj. simpl. now rewrite lookup_insert_ne.
    + reflexivity.
  - split; [|split; [reflexivity|discriminate]].
    split; [discriminate|]. intros [Hacc Hne]. destruct Hno; congruence.
Qed.

Lemma post_update_if_different_flag_witness :
  let w := Fixture.house ON CLOSED OFF 0 0 in
  items w !! "Siren" = Some (Fixture.switch ON [])
  ∧ ∃ w', utils.post_update_if_different "Siren" OFF true w = Ok true w'
          ∧ reads w' "Siren" OFF.
Proof.
  intros w.
  assert (H : items w !! "Siren" = Some (Fixture.switch ON [])) by (vm_compute; reflexivity).
  split; [exact H|].
  destruct (post_update_if_different_flag "Siren" OFF true w _ H)
    as (b & w' & R & Hb & _ & Hchanged).
  assert (Hbt : b = true).
  { apply Hb. split; [reflexivity|discriminate]. }
  subst b. exists w'. split; [exact R|]. now destruct (Hchanged eq_refl).
Defined.

(** X2. [post_update_if_different] is idempotent: whatever the first call
    did, a second call with the same arguments returns [False] and changes
    nothing, so nothing is sent twice. *)
Theorem post_update_if_different_twice (itemName : string) v c (w : World) item :
  items w !! itemName = Some item ->
  ∃ (b : bool) w',
    utils.post_update_if_different itemName v c w = Ok b w'
    ∧ utils.post_update_if_different itemName v c w' = Ok false w'.
Proof.
  intros Hit.
  destruct (post_update_if_different_cases itemName v c w item Hit)
    as [(Hacc & Hne & R)|(Hno & R)]; rewrite R; eexists _, _; (split; [reflexivity|]).
  - match goal with |- _ _ _ _ ?w1 = _ => set (w1' := w1) end.
    assert (Hit' : items w1' !! itemName = Some (set_state item v)).
    { unfold w1'; simpl. now rewrite lookup_insert_eq. }
    destruct (post_update_if_different_cases itemName v c w1' _ Hit')
      as [(_ & Hne' & _)|(_ & R')]; [now destruct Hne'|exact R'].
  - exact R.
Qed.

Lemma post_update_if_different_twice_witness :
  let w := Fixture.house ON CLOSED OFF 0 0 in
  items w !! "Siren" = Some (Fixture.switch ON [])
  ∧ ∃ (b : bool) w',
      utils.post_update_if_different "Siren" OFF true w = Ok b w'
      ∧ utils.post_update_if_different "Siren" OFF true w' = Ok false w'.
Proof.
  intros w.
  assert (H : items w !! "Siren" = Some (Fixture.switch ON [])) by (vm_compute; reflexivity).
  split; [exact H|exact (post_update_if_different_twice "Siren" OFF true w _ H)].
Defined.

(** X3. [kw] does not look at the value it is asked for: it returns the
    first key of the dictionary, and [None] only for the empty
    dictionary. *)
Theorem kw_first_key (dictionary : list (string * Z)) (value : Z) :
  utils.kw dictionary value = fst <$> head dictionary.
Proof.
  destruct dictionary as [|[key v] d]; [reflexivity|].
  simpl. now rewrite decide_True.
Qed.

(** ** setZoneStatus *)

(** X4. [setZoneStatus] with a value that is no zone status raises
    IdeAlarmError before anything is done: the zone object and the device
    world are what they were, whatever the registry holds. *)
Theorem setZoneStatus_invalid_raises cfg (z : IdeAlarmZone.t) (w : World)
    (newZoneStatus : Z) (sendCommand : bool) (errorMessage : option string) :
  newZoneStatus ∉ [ZONESTATUS.NORMAL; ZONESTATUS.ALERT; ZONESTATUS.ERROR;
                   ZONESTATUS.TRIPPED; ZONESTATUS.ARMING] ->
  IdeAlarmZone.setZoneStatus cfg newZoneStatus sendCommand errorMessage (z, w)
  = Raise (IdeAlarmError "Trying to set an invalid zone status") (z, w).
Proof. apply setZoneStatus_invalid. Qed.

Lemma setZoneStatus_invalid_raises_witness :
  let z := Fixture.zone 1 "Perimeter" 0 0 0 [Fixture.frontDoor] in
  let w := Fixture.house OFF CLOSED OFF 0 0 in
  (5%Z ∉ [ZONESTATUS.NORMAL; ZONESTATUS.ALERT; ZONESTATUS.ERROR;
          ZONESTATUS.TRIPPED; ZONESTATUS.ARMING])
  ∧ IdeAlarmZone.setZoneStatus Fixture.cfg 5 false None (z, w)
    = Raise (IdeAlarmError "Trying to set an invalid zone status") (z, w).
Proof.
  intros z w.
  assert (H : 5%Z ∉ [ZONESTATUS.NORMAL; ZONESTATUS.ALERT; ZONESTATUS.ERROR;
                     ZONESTATUS.TRIPPED; ZONESTATUS.ARMING]) by by_computation.
  split; [exact H | exact (setZoneStatus_invalid_raises Fixture.cfg z w 5 false None H)].
Defined.

(** X5. [setZoneStatus] with ALERT, ERROR, TRIPPED or ARMING, the status
    item being in the registry, returns with the new status in the zone
    object and touches no device but the status item: timers and alert
    devices are as they were.  A number item then reads the status, and the
    status hook, if installed, is called once with the old status. *)
Theorem setZoneStatus_other_frame cfg (z : IdeAlarmZone.t) (w : World)
    (newZoneStatus : Z) (sendCommand : bool) (errorMessage : option string) :
  newZoneStatus ∈ [ZONESTATUS.ALERT; ZONESTATUS.ERROR; ZONESTATUS.TRIPPED; ZONESTATUS.ARMING] ->
  known w (IdeAlarmZone.statusItem z) ->
  ∃ w',
    IdeAlarmZone.setZoneStatus cfg newZoneStatus sendCommand errorMessage (z, w)
    = Ok tt (IdeAlarmZone.with_zoneStatus (Some newZoneStatus) z, w')
    ∧ (∀ j, j ≠ IdeAlarmZone.statusItem z -> items w' !! j = items w !! j)
    ∧ (has_kind w (IdeAlarmZone.statusItem z) NumberItem ->
       reads w' (IdeAlarmZone.statusItem z) (Decimal newZoneStatus))
    ∧ ∃ evs, trace w' = trace w ++ evs
             ∧ notifications evs
               = if has_onZoneStatusChange (custom cfg)
                 then [OnZoneStatusChange (IdeAlarmZone.zoneNumber z) newZoneStatus
                         (IdeAlarmZone._zoneStatus z) errorMessage]
                 else [].
Proof.
  intros Hs Hst.
  assert (Hne : newZoneStatus ≠ ZONESTATUS.NORMAL).
  { intros ->. revert Hs. by_computation. }
  destruct (setZoneStatus_Ok cfg z w newZoneStatus sendCommand errorMessage)
    as [evs [R N]]; [|now intros ?|exact Hst|].
  { now right. }
  eexists. split; [exact R|]. unfold status_items. rewrite decide_False by exact Hne.
  split; [|split].
  - intros j Hj. simpl. apply written_lookup_ne. congruence.
  - intros Hk. unfold reads; simpl. eapply written_reads; [exact Hk|now destruct sendCommand].
  - exists evs. split; [reflexivity|exact N].
Qed.

Lemma setZoneStatus_other_frame_witness :
  let z := Fixture.zone 1 "Perimeter" 1 0 0 [Fixture.frontDoor] in
  let w := Fixture.house OFF OPEN OFF 1 0 in
  (ZONESTATUS.TRIPPED ∈ [ZONESTATUS.ALERT; ZONESTATUS.ERROR; ZONESTATUS.TRIPPED;
                         ZONESTATUS.ARMING])
  ∧ known w (IdeAlarmZone.statusItem z)
  ∧ ∃ w', IdeAlarmZone.setZoneStatus Fixture.cfg ZONESTATUS.TRIPPED false None (z, w)
          = Ok tt (IdeAlarmZone.with_zoneStatus (Some ZONESTATUS.TRIPPED) z, w')
          ∧ items w' !! "Siren" = items w !! "Siren".
Proof.
  intros z w.
  assert (H1 : ZONESTATUS.TRIPPED ∈ [ZONESTATUS.ALERT; ZONESTATUS.ERROR; ZONESTATUS.TRIPPED;
                                     ZONESTATUS.ARMING]) by by_computation.
  assert (H2 : known w (IdeAlarmZone.statusItem z)) by (eexists; vm_compute; reflexivity).
  destruct (setZoneStatus_other_frame Fixture.cfg z w ZONESTATUS.TRIPPED false None H1 H2)
    as (w' & R & Hframe & _).
  split; [exact H1|]. split; [exact H2|]. exists w'. split; [exact R|].
  apply Hframe. discriminate.
Defined.

(** ** onEntryTimer *)

(** [setZoneStatus] with a status other than NORMAL sends at most the
    write of the status item, then calls the hook. *)
Lemma setZoneStatus_other_Ok cfg (z : IdeAlarmZone.t) (w : World) s sc msg :
  s ∈ [ZONESTATUS.ALERT; ZONESTATUS.ERROR; ZONESTATUS.TRIPPED; ZONESTATUS.ARMING] ->
  known w (IdeAlarmZone.statusItem z) ->
  ∃ b : bool,
    IdeAlarmZone.setZoneStatus cfg s sc msg (z, w)
    = Ok tt (IdeAlarmZone.with_zoneStatus (Some s) z,
             {| items := written (IdeAlarmZone.statusItem z) (Decimal s) sc (items w);
                trace := trace w
                         ++ (if b then [write_event (IdeAlarmZone.statusItem z) (Decimal s) sc]
                             else [])
                         ++ (if has_onZoneStatusChange (custom cfg)
                             then [OnZoneStatusChange (IdeAlarmZone.zoneNumber z) s
                                     (IdeAlarmZone._zoneStatus z) msg]
                             else []) |}).
Proof.
  intros Hs [item Hit].
  assert (Hne : s ≠ ZONESTATUS.NORMAL).
  { intros ->. revert Hs. by_computation. }
  unfold IdeAlarmZone.setZoneStatus.
  rewrite decide_False by (intros Hno; apply Hno; now right).
  erewrite bind_Ok by reflexivity.
  erewrite bind_Ok by reflexivity. cbn [fst snd].
  rewrite decide_False by (rewrite list_elem_of_singleton; exact Hne).
  erewrite (bind_Ok _ _ _ _ tt) by reflexivity.
  destruct (post_update_if_different_Ok _ (Decimal s) sc w item Hit) as [b R].
  erewrite bind_Ok by (apply dev_Ok; exact R).
  exists b. rewrite optional_hook_Ok. simpl. now rewrite <- app_assoc.
Qed.

(** The run of [onEntryTimer] from TRIPPED: the status item, then the
    alert devices unless the alarm is in test mode, then the alert-max
    timer. *)
Lemma onEntryTimer_Ok cfg (z : IdeAlarmZone.t) (w : World) :
  IdeAlarmZone._zoneStatus z = Some ZONESTATUS.TRIPPED ->
  known w (IdeAlarmZone.statusItem z) ->
  (IdeAlarmZone.alarmTestMode z = false -> Forall (known w) (IdeAlarmZone.alertDevices z)) ->
  known w (zoneItem (IdeAlarmZone.zoneNumber z) "_Alert_Max_Timer") ->
  ∃ evs,
    IdeAlarmZone.onEntryTimer cfg (z, w)
    = Ok tt (IdeAlarmZone.with_zoneStatus (Some ZONESTATUS.ALERT) z,
             {| items :=
                  written (zoneItem (IdeAlarmZone.zoneNumber z) "_Alert_Max_Timer") ON false
                    ((if IdeAlarmZone.alarmTestMode z then id
                      else write_all ON true (IdeAlarmZone.alertDevices z))
                       (written (IdeAlarmZone.statusItem z) (Decimal ZONESTATUS.ALERT) false
                          (items w)));
                trace := trace w ++ evs |})
    ∧ notifications evs
      = if has_onZoneStatusChange (custom cfg)
        then [OnZoneStatusChange (IdeAlarmZone.zoneNumber z) ZONESTATUS.ALERT
                (Some ZONESTATUS.TRIPPED) None]
        else [].
Proof.
  intros Hstatus Hst Hads Hmax. unfold IdeAlarmZone.onEntryTimer.
  erewrite bind_Ok by reflexivity.
  erewrite bind_Ok by reflexivity. cbn [fst snd].
  rewrite decide_False.
  2:{ intros Hno. apply Hno. rewrite Hstatus. apply list_elem_of_singleton. reflexivity. }
  destruct (setZoneStatus_Ok cfg z w ZONESTATUS.ALERT false None) as [evs1 [R1 N1]];
    [by_computation|discriminate|exact Hst|].
  erewrite bind_Ok by exact R1.
  unfold status_items in *. rewrite decide_False in * by discriminate.
  match type of R1 with _ = Ok _ (?a, ?b) => set (z1 := a) in *; set (w1 := b) in * end.
  assert (K1 : ∀ j, known w j -> known w1 j).
  { intros j Hj. unfold known, w1; simpl. now apply written_known. }
  assert (Hloop : ∃ evs2,
            (if negb (IdeAlarmZone.alarmTestMode z) then
               forM_ (IdeAlarmZone.alertDevices z) (fun alertDevice =>
                 IdeAlarmZone.dev (utils.send_command_if_different alertDevice ON) ;; mret tt)
             else mret tt) (z1, w1)
            = Ok tt (z1, {| items := (if IdeAlarmZone.alarmTestMode z then id
                                      else write_all ON true (IdeAlarmZone.alertDevices z))
                                       (items w1);
                            trace := trace w1 ++ evs2 |})
            ∧ Forall (fun e => is_write e = true) evs2).
  { destruct (IdeAlarmZone.alarmTestMode z); cbn [negb].
    - exists []. split; [|constructor]. unfold mret, M_ret, w1. simpl. now rewrite app_nil_r.
    - destruct (alert_loop_Ok ON z1 (IdeAlarmZone.alertDevices z) w1) as [evs2 [R2 W2]].
      { eapply Forall_impl; [exact (Hads eq_refl)|]. exact K1. }
      exists evs2. split; [exact R2|].
      eapply Forall_impl; [exact W2|]. now intros e [d [_ ->]]. }
  destruct Hloop as [evs2 [R2 W2]].
  erewrite bind_Ok by exact R2.
  match type of R2 with _ = Ok _ (_, ?b) => set (w2 := b) in * end.
  assert (K2 : known w2 (zoneItem (IdeAlarmZone.zoneNumber z) "_Alert_Max_Timer")).
  { unfold known, w2; simpl. destruct (IdeAlarmZone.alarmTestMode z); simpl.
    - now apply K1.
    - apply write_all_known. now apply K1. }
  destruct (dev_post_update_Ok z1 w2 _ ON false K2) as [b [evs3 [R3 W3]]].
  erewrite bind_Ok by exact R3.
  exists (evs1 ++ evs2 ++ evs3). split.
  - unfold mret, M_ret, w2, w1. simpl. now rewrite <- !app_assoc.
  - rewrite !notifications_app, N1, !notifications_writes by assumption.
    rewrite Hstatus. now rewrite !app_nil_r.
Qed.

(** X6. When the entry timer times out on a TRIPPED zone that is not in
    test mode, the status item, the alert-max timer and the alert devices
    being in the registry as switches where they are switched: the status
    becomes ALERT, every alert device and the alert-max timer read ON, the
    arming mode is kept, and no device other than these and the status item
    has changed. *)
Theorem onEntryTimer_alerts cfg (z : IdeAlarmZone.t) (w : World) :
  IdeAlarmZone._zoneStatus z = Some ZONESTATUS.TRIPPED ->
  IdeAlarmZone.alarmTestMode z = false ->
  known w (IdeAlarmZone.statusItem z) ->
  Forall (fun d => has_kind w d SwitchItem) (IdeAlarmZone.alertDevices z) ->
  has_kind w (zoneItem (IdeAlarmZone.zoneNumber z) "_Alert_Max_Timer") SwitchItem ->
  ∃ z' w',
    IdeAlarmZone.onEntryTimer cfg (z, w) = Ok tt (z', w')
    ∧ IdeAlarmZone._zoneStatus z' = Some ZONESTATUS.ALERT
    ∧ IdeAlarmZone._armingMode z' = IdeAlarmZone._armingMode z
    ∧ (∀ d, d ∈ IdeAlarmZone.alertDevices z -> reads w' d ON)
    ∧ reads w' (zoneItem (IdeAlarmZone.zoneNumber z) "_Alert_Max_Timer") ON
    ∧ (∀ j, j ≠ IdeAlarmZone.statusItem z ->
            j ≠ zoneItem (IdeAlarmZone.zoneNumber z) "_Alert_Max_Timer" ->
            j ∉ IdeAlarmZone.alertDevices z -> items w' !! j = items w !! j).
Proof.
  intros Hstatus Htest Hst Hads Hmax.
  set (maxTimer := zoneItem (IdeAlarmZone.zoneNumber z) "_Alert_Max_Timer") in *.
  assert (Hk : ∀ j, has_kind w j SwitchItem -> known w j).
  { intros j Hj. unfold known, has_kind in *. apply (fmap_is_Some kind). now rewrite Hj. }
  destruct (onEntryTimer_Ok cfg z w Hstatus Hst) as [evs [R _]].
  { intros _. eapply Forall_impl; [exact Hads|]. exact Hk. }
  { now apply Hk. }
  rewrite Htest in R. fold maxTimer in R.
  eexists _, _. split; [exact R|]. split; [reflexivity|]. split; [reflexivity|].
  set (m1 := written (IdeAlarmZone.statusItem z) (Decimal ZONESTATUS.ALERT) false (items w)).
  assert (Hkind : ∀ j, kind <$> m1 !! j = kind <$> items w !! j).
  { intros j. apply written_kind. }
  split; [|split].
  - intros d Hd. unfold reads; simpl.
    assert (Hd1 : state <$> write_all ON true (IdeAlarmZone.alertDevices z) m1 !! d = Some ON).
    { rewrite Forall_forall in Hads.
      eapply (write_all_state _ _ _ _ _ SwitchItem); [exact Hd| |reflexivity].
      rewrite Hkind. now apply Hads. }
    destruct (decide (maxTimer = d)) as [<-|Hne]; [|now rewrite written_lookup_ne].
    eapply (written_reads _ _ _ _ SwitchItem); [|reflexivity].
    rewrite write_all_kind, Hkind. exact Hmax.
  - unfold reads; simpl. eapply (written_reads _ _ _ _ SwitchItem); [|reflexivity].
    rewrite write_all_kind, Hkind. exact Hmax.
  - intros j H1 H2 H3. simpl.
    rewrite written_lookup_ne by congruence.
    rewrite write_all_lookup_notin by exact H3.
    unfold m1. apply written_lookup_ne. congruence.
Qed.

Lemma onEntryTimer_alerts_witness :
  let z := Fixture.zone 1 "Perimeter" 2 3 0 [Fixture.frontDoor] in
  let w := Fixture.house OFF OPEN OFF 2 3 in
  IdeAlarmZone._zoneStatus z = Some ZONESTATUS.TRIPPED
  ∧ IdeAlarmZone.alarmTestMode z = false
  ∧ known w (IdeAlarmZone.statusItem z)
  ∧ Forall (fun d => has_kind w d SwitchItem) (IdeAlarmZone.alertDevices z)
  ∧ has_kind w (zoneItem (IdeAlarmZone.zoneNumber z) "_Alert_Max_Timer") SwitchItem
  ∧ ∃ z' w', IdeAlarmZone.onEntryTimer Fixture.cfg (z, w) = Ok tt (z', w')
             ∧ IdeAlarmZone._zoneStatus z' = Some ZONESTATUS.ALERT
             ∧ reads w' "Siren" ON.
Proof.
  intros z w.
  assert (H1 : IdeAlarmZone._zoneStatus z = Some ZONESTATUS.TRIPPED) by reflexivity.
  assert (H2 : IdeAlarmZone.alarmTestMode z = false) by reflexivity.
  assert (H3 : known w (IdeAlarmZone.statusItem z)) by (eexists; vm_compute; reflexivity).
  assert (H4 : Forall (fun d => has_kind w d SwitchItem) (IdeAlarmZone.alertDevices z)).
  { repeat constructor. }
  assert (H5 : has_kind w (zoneItem (IdeAlarmZone.zoneNumber z) "_Alert_Max_Timer") SwitchItem)
    by (vm_compute; reflexivity).
  destruct (onEntryTimer_alerts Fixture.cfg z w H1 H2 H3 H4 H5)
    as (z' & w' & R & Hs & _ & Hon & _).
  repeat split; try assumption. exists z', w'. split; [exact R|]. split; [exact Hs|].
  apply Hon. by_computation.
Defined.

(** X7. In test mode the alarm is silent: when the entry timer times out
    on a TRIPPED zone the status becomes ALERT and the alert-max timer is
    started, but no command is sent to any device; the devices other than
    the status item and the alert-max timer are as they were, and the alert
    devices need not even be in the registry. *)
Theorem onEntryTimer_test_mode_silent cfg (z : IdeAlarmZone.t) (w : World) :
  IdeAlarmZone._zoneStatus z = Some ZONESTATUS.TRIPPED ->
  IdeAlarmZone.alarmTestMode z = true ->
  known w (IdeAlarmZone.statusItem z) ->
  has_kind w (zoneItem (IdeAlarmZone.zoneNumber z) "_Alert_Max_Timer") SwitchItem ->
  ∃ z' w',
    IdeAlarmZone.onEntryTimer cfg (z, w) = Ok tt (z', w')
    ∧ IdeAlarmZone._zoneStatus z' = Some ZONESTATUS.ALERT
    ∧ reads w' (zoneItem (IdeAlarmZone.zoneNumber z) "_Alert_Max_Timer") ON
    ∧ (∀ j, j ≠ IdeAlarmZone.statusItem z ->
            j ≠ zoneItem (IdeAlarmZone.zoneNumber z) "_Alert_Max_Timer" ->
            items w' !! j = items w !! j)
    ∧ ∃ evs, trace w' = trace w ++ evs
             ∧ Forall (fun e => ∀ d v, e ≠ SendCommand d v) evs.
Proof.
  intros Hstatus Htest Hst Hmax.
  set (maxTimer := zoneItem (IdeAlarmZone.zoneNumber z) "_Alert_Max_Timer") in *.
  assert (Hmax' : known w maxTimer).
  { unfold known, has_kind in *. apply (fmap_is_Some kind). now rewrite Hmax. }
  destruct (setZoneStatus_other_Ok cfg z w ZONESTATUS.ALERT false None) as [b1 R1];
    [by_computation|exact Hst|].
  match type of R1 with _ = Ok _ (?a, ?b) => set (z1 := a) in *; set (w1 := b) in * end.
  assert (K1 : known w1 maxTimer).
  { unfold known, w1; simpl. now apply written_known. }
  destruct K1 as [item1 Hit1].
  destruct (post_update_if_different_Ok maxTimer ON false w1 item1 Hit1) as [b2 R2].
  eexists _, _. split; [|split; [|split; [|split]]].
  - unfold IdeAlarmZone.onEntryTimer.
    erewrite bind_Ok by reflexivity.
    erewrite bind_Ok by reflexivity. cbn [fst snd].
    rewrite decide_False.
    2:{ intros Hno. apply Hno. rewrite Hstatus. apply list_elem_of_singleton. reflexivity. }
    rewrite Htest. cbn [negb].
    erewrite bind_Ok by exact R1.
    erewrite (bind_Ok _ _ _ _ tt) by reflexivity.
    erewrite bind_Ok by (apply dev_Ok; exact R2).
    reflexivity.
  - reflexivity.
  - unfold reads; simpl. eapply (written_reads _ _ _ _ SwitchItem); [|reflexivity].
    rewrite written_kind. exact Hmax.
  - intros j H1 H2. simpl. rewrite !written_lookup_ne by congruence. reflexivity.
  - eexists. split; [simpl; rewrite <- !app_assoc; reflexivity|].
    repeat (apply Forall_app; split).
    + destruct b1; repeat constructor. intros d v. discriminate.
    + destruct (has_onZoneStatusChange (custom cfg)); repeat constructor.
      intros d v. discriminate.
    + destruct b2; repeat constructor. intros d v. discriminate.
Qed.

Lemma onEntryTimer_test_mode_silent_witness :
  let z := IdeAlarmZone.with_zoneStatus (Some ZONESTATUS.TRIPPED)
             {| IdeAlarmZone._armingMode := Some ARMINGMODE.ARMED_AWAY;
                IdeAlarmZone._zoneStatus := None;
                IdeAlarmZone.zoneNumber := 1; IdeAlarmZone.alertDevices := ["Siren"];
                IdeAlarmZone.name := "Perimeter";
                IdeAlarmZone.armAwayToggleSwitch := "Z1_Toggle_Away";
                IdeAlarmZone.armHomeToggleSwitch := "Z1_Toggle_Home";
                IdeAlarmZone.mainZone := true;
                IdeAlarmZone.canArmWithTrippedSensors := false;
                IdeAlarmZone.alarmTestMode := true;
                IdeAlarmZone.sensors := [Fixture.frontDoor];
                IdeAlarmZone.armingModeItem := "Z1_Arming_Mode";
                IdeAlarmZone.statusItem := "Z1_Status";
                IdeAlarmZone.openSections := 0 |} in
  let w := Fixture.house OFF OPEN OFF 2 3 in
  IdeAlarmZone._zoneStatus z = Some ZONESTATUS.TRIPPED
  ∧ IdeAlarmZone.alarmTestMode z = true
  ∧ known w (IdeAlarmZone.statusItem z)
  ∧ has_kind w (zoneItem (IdeAlarmZone.zoneNumber z) "_Alert_Max_Timer") SwitchItem
  ∧ ∃ z' w', IdeAlarmZone.onEntryTimer Fixture.cfg (z, w) = Ok tt (z', w')
             ∧ IdeAlarmZone._zoneStatus z' = Some ZONESTATUS.ALERT
             ∧ reads w' "Siren" OFF.
Proof.
  intros z w.
  assert (H1 : IdeAlarmZone._zoneStatus z = Some ZONESTATUS.TRIPPED) by reflexivity.
  assert (H2 : IdeAlarmZone.alarmTestMode z = true) by reflexivity.
  assert (H3 : known w (IdeAlarmZone.statusItem z)) by (eexists; vm_compute; reflexivity).
  assert (H4 : has_kind w (zoneItem (IdeAlarmZone.zoneNumber z) "_Alert_Max_Timer") SwitchItem)
    by (vm_compute; reflexivity).
  destruct (onEntryTimer_test_mode_silent Fixture.cfg z w H1 H2 H3 H4)
    as (z' & w' & R & Hs & _ & Hframe & _).
  repeat split; try assumption. exists z', w'. split; [exact R|]. split; [exact Hs|].
  unfold reads. rewrite Hframe by discriminate. vm_compute. reflexivity.
Defined.

(** ** onSensorChange *)

Lemma getItemValue_state_Ok (itemName : string) d (w : World) item :
  items w !! itemName = Some item ->
  utils.getItemValue_state itemName d w
  = Ok (match state item with NULL | UNDEF => d | s => s end) w.
Proof.
  intros Hit. unfold utils.getItemValue_state.
  erewrite bind_Ok by (unfold scope.getItem; rewrite Hit; reflexivity).
  now destruct (state item).
Qed.

(** X8. [onSensorChange] does nothing at all, returning with the zone
    object and the device world as they were, when the zone is not armed,
    or its status is not NORMAL, or it is armed home and the sensor is of
    class B, or the exit timer reads ON (the exit delay is running). *)
Theorem onSensorChange_ignored cfg (z : IdeAlarmZone.t) (w : World)
    (sensor : IdeAlarmSensor.t) :
  IdeAlarmZone._armingMode z ∉ [Some ARMINGMODE.ARMED_HOME; Some ARMINGMODE.ARMED_AWAY]
  ∨ IdeAlarmZone._zoneStatus z ≠ Some ZONESTATUS.NORMAL
  ∨ (IdeAlarmZone._armingMode z = Some ARMINGMODE.ARMED_HOME
     ∧ IdeAlarmSensor.sensorClass sensor = "B")
  ∨ reads w (zoneItem (IdeAlarmZone.zoneNumber z) "_Exit_Timer") ON ->
  IdeAlarmZone.onSensorChange cfg sensor (z, w) = Ok tt (z, w).
Proof.
  intros Hwhy. unfold IdeAlarmZone.onSensorChange.
  erewrite bind_Ok by reflexivity.
  erewrite bind_Ok by reflexivity.
  erewrite bind_Ok by reflexivity. cbn [fst snd].
  erewrite (bind_Ok _ _ _ _ true); [reflexivity|].
  destruct (decide (IdeAlarmZone._armingMode z
                    ∉ [Some ARMINGMODE.ARMED_HOME; Some ARMINGMODE.ARMED_AWAY]))
    as [|Hmode]; [reflexivity|].
  destruct (decide (IdeAlarmZone._zoneStatus z ∉ [Some ZONESTATUS.NORMAL]))
    as [|Hstatus]; [reflexivity|].
  destruct (decide (IdeAlarmZone._armingMode z = Some ARMINGMODE.ARMED_HOME
                    ∧ IdeAlarmSensor.sensorClass sensor = "B")) as [|Hclass]; [reflexivity|].
  destruct Hwhy as [H|[H|[H|H]]]; try contradiction.
  - exfalso. apply Hstatus. now rewrite list_elem_of_singleton.
  - unfold reads in H.
    destruct (items w !! zoneItem (IdeAlarmZone.zoneNumber z) "_Exit_Timer")
      as [item|] eqn:Hit; [|discriminate].
    injection H as Hon.
    erewrite bind_Ok by (apply dev_Ok, getItemValue_state_Ok; exact Hit).
    rewrite Hon. reflexivity.
Qed.

Lemma onSensorChange_ignored_witness :
  let z := Fixture.zone 1 "Perimeter" 1 0 0 [Fixture.frontDoor; Fixture.hallMotion] in
  let w := Fixture.house OFF CLOSED ON 1 0 in
  (IdeAlarmZone._armingMode z ∉ [Some ARMINGMODE.ARMED_HOME; Some ARMINGMODE.ARMED_AWAY]
   ∨ IdeAlarmZone._zoneStatus z ≠ Some ZONESTATUS.NORMAL
   ∨ (IdeAlarmZone._armingMode z = Some ARMINGMODE.ARMED_HOME
      ∧ IdeAlarmSensor.sensorClass Fixture.hallMotion = "B")
   ∨ reads w (zoneItem (IdeAlarmZone.zoneNumber z) "_Exit_Timer") ON)
  ∧ IdeAlarmZone.onSensorChange Fixture.cfg Fixture.hallMotion (z, w) = Ok tt (z, w).
Proof.
  intros z w.
  assert (H : IdeAlarmZone._armingMode z
                ∉ [Some ARMINGMODE.ARMED_HOME; Some ARMINGMODE.ARMED_AWAY]
              ∨ IdeAlarmZone._zoneStatus z ≠ Some ZONESTATUS.NORMAL
              ∨ (IdeAlarmZone._armingMode z = Some ARMINGMODE.ARMED_HOME
                 ∧ IdeAlarmSensor.sensorClass Fixture.hallMotion = "B")
              ∨ reads w (zoneItem (IdeAlarmZone.zoneNumber z) "_Exit_Timer") ON).
  { right. right. left. split; reflexivity. }
  split; [exact H | exact (onSensorChange_ignored Fixture.cfg z w Fixture.hallMotion H)].
Defined.

(** X9. Otherwise the zone trips.  For an armed zone in status NORMAL, a
    sensor that is not a class B sensor under ARMED_HOME, and the exit
    timer not reading ON: with the status item in the registry and the
    entry timer a switch, [onSensorChange] returns with the status TRIPPED
    and the entry timer reading ON; the arming mode is kept and no device
    other than the status item and the entry timer has changed, so no alert
    device sounds yet. *)
Theorem onSensorChange_trips cfg (z : IdeAlarmZone.t) (w : World)
    (sensor : IdeAlarmSensor.t) (exitTimer : State) :
  IdeAlarmZone._armingMode z = Some ARMINGMODE.ARMED_AWAY
  ∨ (IdeAlarmZone._armingMode z = Some ARMINGMODE.ARMED_HOME
     ∧ IdeAlarmSensor.sensorClass sensor ≠ "B") ->
  IdeAlarmZone._zoneStatus z = Some ZONESTATUS.NORMAL ->
  reads w (zoneItem (IdeAlarmZone.zoneNumber z) "_Exit_Timer") exitTimer ->
  exitTimer ≠ ON ->
  known w (IdeAlarmZone.statusItem z) ->
  has_kind w (zoneItem (IdeAlarmZone.zoneNumber z) "_Entry_Timer") SwitchItem ->
  ∃ z' w',
    IdeAlarmZone.onSensorChange cfg sensor (z, w) = Ok tt (z', w')
    ∧ IdeAlarmZone._zoneStatus z' = Some ZONESTATUS.TRIPPED
    ∧ IdeAlarmZone._armingMode z' = IdeAlarmZone._armingMode z
    ∧ reads w' (zoneItem (IdeAlarmZone.zoneNumber z) "_Entry_Timer") ON
    ∧ (∀ j, j ≠ IdeAlarmZone.statusItem z ->
            j ≠ zoneItem (IdeAlarmZone.zoneNumber z) "_Entry_Timer" ->
            items w' !! j = items w !! j).
Proof.
  intros Hmode Hstatus Hexit Hoff Hst Hentry.
  set (entryTimer := zoneItem (IdeAlarmZone.zoneNumber z) "_Entry_Timer") in *.
  destruct (setZoneStatus_other_Ok cfg z w ZONESTATUS.TRIPPED false None) as [b1 R1];
    [by_computation|exact Hst|].
  match type of R1 with _ = Ok _ (?a, ?b) => set (z1 := a) in *; set (w1 := b) in * end.
  assert (K1 : known w1 entryTimer).
  { unfold known, w1; simpl. apply written_known.
    unfold has_kind in Hentry. apply (fmap_is_Some kind). now rewrite Hentry. }
  destruct K1 as [item1 Hit1].
  destruct (post_update_if_different_Ok entryTimer ON false w1 item1 Hit1) as [b2 R2].
  eexists _, _. split; [|split; [|split; [|split]]].
  - unfold IdeAlarmZone.onSensorChange.
    erewrite bind_Ok by reflexivity.
    erewrite bind_Ok by reflexivity.
    erewrite bind_Ok by reflexivity. cbn [fst snd].
    erewrite (bind_Ok _ _ _ _ false).
    + erewrite bind_Ok by exact R1.
      erewrite bind_Ok by (apply dev_Ok; exact R2). reflexivity.
    + rewrite decide_False.
      2:{ intros Hno. apply Hno. destruct Hmode as [->|[-> _]]; by_computation. }
      rewrite decide_False.
      2:{ intros Hno. apply Hno. rewrite Hstatus. by_computation. }
      rewrite decide_False.
      2:{ intros [Hhome Hb]. destruct Hmode as [Haway|[_ Hnb]]; [|contradiction].
          rewrite Haway in Hhome. discriminate. }
      unfold reads in Hexit.
      destruct (items w !! zoneItem (IdeAlarmZone.zoneNumber z) "_Exit_Timer")
        as [item|] eqn:Hit; [|discriminate].
      injection Hexit as Hv.
      erewrite bind_Ok by (apply dev_Ok, getItemValue_state_Ok; exact Hit).
      unfold mret, M_ret. f_equal. apply bool_decide_eq_false_2.
      rewrite Hv. destruct exitTimer; congruence.
  - reflexivity.
  - reflexivity.
  - unfold reads; simpl. eapply (written_reads _ _ _ _ SwitchItem); [|reflexivity].
    rewrite written_kind. exact Hentry.
  - intros j H1 H2. simpl. rewrite !written_lookup_ne by congruence. reflexivity.
Qed.

Lemma onSensorChange_trips_witness :
  let z := Fixture.zone 1 "Perimeter" 1 0 0 [Fixture.frontDoor; Fixture.hallMotion] in
  let w := Fixture.house OFF OPEN OFF 1 0 in
  (IdeAlarmZone._armingMode z = Some ARMINGMODE.ARMED_AWAY
   ∨ (IdeAlarmZone._armingMode z = Some ARMINGMODE.ARMED_HOME
      ∧ IdeAlarmSensor.sensorClass Fixture.frontDoor ≠ "B"))
  ∧ IdeAlarmZone._zoneStatus z = Some ZONESTATUS.NORMAL
  ∧ reads w (zoneItem (IdeAlarmZone.zoneNumber z) "_Exit_Timer") OFF
  ∧ OFF ≠ ON
  ∧ known w (IdeAlarmZone.statusItem z)
  ∧ has_kind w (zoneItem (IdeAlarmZone.zoneNumber z) "_Entry_Timer") SwitchItem
  ∧ ∃ z' w', IdeAlarmZone.onSensorChange Fixture.cfg Fixture.frontDoor (z, w) = Ok tt (z', w')
             ∧ IdeAlarmZone._zoneStatus z' = Some ZONESTATUS.TRIPPED
             ∧ reads w' "Z1_Entry_Timer" ON.
Proof.
  intros z w.
  assert (H1 : IdeAlarmZone._armingMode z = Some ARMINGMODE.ARMED_AWAY
               ∨ (IdeAlarmZone._armingMode z = Some ARMINGMODE.ARMED_HOME
                  ∧ IdeAlarmSensor.sensorClass Fixture.frontDoor ≠ "B")).
  { right. split; [reflexivity|discriminate]. }
  assert (H2 : IdeAlarmZone._zoneStatus z = Some ZONESTATUS.NORMAL) by reflexivity.
  assert (H3 : reads w (zoneItem (IdeAlarmZone.zoneNumber z) "_Exit_Timer") OFF)
    by (vm_compute; reflexivity).
  assert (H4 : OFF ≠ ON) by discriminate.
  assert (H5 : known w (IdeAlarmZone.statusItem z)) by (eexists; vm_compute; reflexivity).
  assert (H6 : has_kind w (zoneItem (IdeAlarmZone.zoneNumber z) "_Entry_Timer") SwitchItem)
    by (vm_compute; reflexivity).
  destruct (onSensorChange_trips Fixture.cfg z w Fixture.frontDoor OFF H1 H2 H3 H4 H5 H6)
    as (z' & w' & R & Hs & _ & Hon & _).
  repeat split; try assumption. exists z', w'. repeat split; assumption.
Defined.

(** ** Arming and disarming *)

Lemma status_items_normal_calm (z : IdeAlarmZone.t) sc (m : gmap string Item) :
  (∀ j, j ∈ guarded (IdeAlarmZone.zoneNumber z) (IdeAlarmZone.alertDevices z) ->
        kind <$> m !! j = Some SwitchItem) ->
  ∀ j, j ∈ guarded (IdeAlarmZone.zoneNumber z) (IdeAlarmZone.alertDevices z) ->
       state <$> status_items z ZONESTATUS.NORMAL sc m !! j = Some OFF.
Proof.
  intros Hsw j Hj. unfold status_items. rewrite decide_True by reflexivity.
  pose proof (normal_items_calm _ _ m Hsw j Hj) as Hoff.
  destruct (decide (IdeAlarmZone.statusItem z = j)) as [He|Hne];
    [|now rewrite written_lookup_ne].
  rewrite <- He in *. rewrite written_lookup.
  assert (Hk : kind <$> normal_items (IdeAlarmZone.zoneNumber z) (IdeAlarmZone.alertDevices z) m
                        !! IdeAlarmZone.statusItem z = Some SwitchItem).
  { unfold normal_items. rewrite !write_all_kind. now apply Hsw. }
  destruct (normal_items _ _ m !! IdeAlarmZone.statusItem z) as [item|]; [|discriminate].
  simpl in *. injection Hk as Hk. unfold write_item. rewrite Hk.
  now rewrite accepted_switch_decimal.
Qed.

(** A valid request that is neither stopped by the open-sensors check nor
    deferred to the exit timer installs the mode and resets the status. *)
Lemma setArmingMode_installs cfg (z : IdeAlarmZone.t) (w : World) newArmingMode sc :
  newArmingMode ∈ [ARMINGMODE.DISARMED; ARMINGMODE.ARMED_HOME; ARMINGMODE.ARMED_AWAY] ->
  IdeAlarmZone.canArmWithTrippedSensors z = true
  ∨ ¬ (newArmingMode ∈ [ARMINGMODE.ARMED_AWAY; ARMINGMODE.ARMED_HOME]
       ∧ IdeAlarmZone._zoneStatus z ≠ Some ZONESTATUS.ARMING
       ∧ IdeAlarmZone._zoneStatus z ≠ None
       ∧ (0 < IdeAlarmZone.openSections z)%Z) ->
  ¬ (newArmingMode = ARMINGMODE.ARMED_AWAY
     ∧ IdeAlarmZone._zoneStatus z ≠ None
     ∧ IdeAlarmZone._zoneStatus z ≠ Some ZONESTATUS.ARMING) ->
  known w (IdeAlarmZone.armingModeItem z) ->
  known w (IdeAlarmZone.statusItem z) ->
  (∀ j, j ∈ guarded (IdeAlarmZone.zoneNumber z) (IdeAlarmZone.alertDevices z) ->
        has_kind w j SwitchItem) ->
  ∃ w',
    IdeAlarmZone.setArmingMode cfg newArmingMode sc (z, w)
    = Ok tt (IdeAlarmZone.with_zoneStatus (Some ZONESTATUS.NORMAL)
               (IdeAlarmZone.with_armingMode (Some newArmingMode) z), w')
    ∧ (∀ j, j ∈ guarded (IdeAlarmZone.zoneNumber z) (IdeAlarmZone.alertDevices z) ->
            reads w' j OFF).
Proof.
  intros Hvalid Hpass Hnow Hmode Hst Hsw.
  destruct (setArmingMode_passes cfg z w newArmingMode sc Hvalid Hpass) as [hook1 [E1 _]].
  destruct (setArmingMode_proceed_installs cfg z
              {| items := items w; trace := trace w ++ hook1 |}
              newArmingMode sc (IdeAlarmZone._armingMode z) Hnow Hmode Hst) as [evs R].
  { apply Forall_forall. intros j Hj. specialize (Hsw j Hj).
    unfold known, has_kind in *. simpl. apply (fmap_is_Some kind). now rewrite Hsw. }
  rewrite R in E1. eexists. split; [exact E1|].
  intros j Hj. unfold reads. cbn [items].
  apply (status_items_normal_calm
           (IdeAlarmZone.with_armingMode (Some newArmingMode) z)); [|exact Hj].
  intros j' Hj'. cbn [IdeAlarmZone.zoneNumber IdeAlarmZone.alertDevices
                      IdeAlarmZone.with_armingMode] in Hj'.
  rewrite written_kind. now apply Hsw.
Qed.

(** X10. Disarming always goes through.  With the zone's arming-mode and
    status items in the registry and its entry, exit and alert-max timers
    and alert devices switches, [setArmingMode DISARMED] returns with the
    arming mode DISARMED and the status NORMAL, whatever the status, the
    open sections and the arming policy were; the three timers and every
    alert device then read OFF. *)
Theorem setArmingMode_disarm_always cfg (z : IdeAlarmZone.t) (w : World) (sendCommand : bool) :
  known w (IdeAlarmZone.armingModeItem z) ->
  known w (IdeAlarmZone.statusItem z) ->
  (∀ j, j ∈ guarded (IdeAlarmZone.zoneNumber z) (IdeAlarmZone.alertDevices z) ->
        has_kind w j SwitchItem) ->
  ∃ z' w',
    IdeAlarmZone.setArmingMode cfg ARMINGMODE.DISARMED sendCommand (z, w) = Ok tt (z', w')
    ∧ IdeAlarmZone._armingMode z' = Some ARMINGMODE.DISARMED
    ∧ IdeAlarmZone._zoneStatus z' = Some ZONESTATUS.NORMAL
    ∧ (∀ j, j ∈ guarded (IdeAlarmZone.zoneNumber z) (IdeAlarmZone.alertDevices z) ->
            reads w' j OFF).
Proof.
  intros Hmode Hst Hsw.
  destruct (setArmingMode_installs cfg z w ARMINGMODE.DISARMED sendCommand)
    as (w' & R & Hoff); try assumption.
  - by_computation.
  - right. intros [Hin _]. revert Hin. by_computation.
  - intros [Hd _]. discriminate.
  - eexists _, w'. split; [exact R|]. split; [reflexivity|]. split; [reflexivity|exact Hoff].
Qed.

Lemma setArmingMode_disarm_always_witness :
  let z := Fixture.zone 1 "Perimeter" 2 1 1 [Fixture.frontDoor] in
  let w := Fixture.house ON OPEN OFF 2 1 in
  known w (IdeAlarmZone.armingModeItem z)
  ∧ known w (IdeAlarmZone.statusItem z)
  ∧ (∀ j, j ∈ guarded (IdeAlarmZone.zoneNumber z) (IdeAlarmZone.alertDevices z) ->
          has_kind w j SwitchItem)
  ∧ ∃ z' w',
      IdeAlarmZone.setArmingMode Fixture.cfg ARMINGMODE.DISARMED false (z, w) = Ok tt (z', w')
      ∧ IdeAlarmZone._armingMode z' = Some ARMINGMODE.DISARMED
      ∧ IdeAlarmZone._zoneStatus z' = Some ZONESTATUS.NORMAL
      ∧ reads w' "Siren" OFF.
Proof.
  intros z w.
  assert (H1 : known w (IdeAlarmZone.armingModeItem z)) by (eexists; vm_compute; reflexivity).
  assert (H2 : known w (IdeAlarmZone.statusItem z)) by (eexists; vm_compute; reflexivity).
  assert (H3 : ∀ j, j ∈ guarded (IdeAlarmZone.zoneNumber z) (IdeAlarmZone.alertDevices z) ->
                    has_kind w j SwitchItem).
  { apply Forall_forall.
    repeat (apply List.Forall_cons; [vm_compute; reflexivity|]). apply List.Forall_nil. }
  destruct (setArmingMode_disarm_always Fixture.cfg z w false H1 H2 H3)
    as (z' & w' & R & Hm & Hs & Hoff).
  split; [exact H1|]. split; [exact H2|]. split; [exact H3|].
  exists z', w'. split; [exact R|]. split; [exact Hm|]. split; [exact Hs|].
  apply Hoff. by_computation.
Defined.

(** X11. A toggle switch disarms an armed zone, whichever switch it is:
    when the arming mode is not DISARMED, [onToggleSwitch] with any item
    name returns with the arming mode DISARMED and the status NORMAL, the
    timers and alert devices reading OFF. *)
Theorem onToggleSwitch_armed_disarms cfg (z : IdeAlarmZone.t) (w : World)
    (itemName : string) :
  IdeAlarmZone._armingMode z ≠ Some ARMINGMODE.DISARMED ->
  known w (IdeAlarmZone.armingModeItem z) ->
  known w (IdeAlarmZone.statusItem z) ->
  (∀ j, j ∈ guarded (IdeAlarmZone.zoneNumber z) (IdeAlarmZone.alertDevices z) ->
        has_kind w j SwitchItem) ->
  ∃ z' w',
    IdeAlarmZone.onToggleSwitch cfg itemName (z, w) = Ok tt (z', w')
    ∧ IdeAlarmZone._armingMode z' = Some ARMINGMODE.DISARMED
    ∧ IdeAlarmZone._zoneStatus z' = Some ZONESTATUS.NORMAL
    ∧ (∀ j, j ∈ guarded (IdeAlarmZone.zoneNumber z) (IdeAlarmZone.alertDevices z) ->
            reads w' j OFF).
Proof.
  intros Harmed Hmode Hst Hsw.
  destruct (setArmingMode_installs cfg z w ARMINGMODE.DISARMED false)
    as (w' & R & Hoff); try assumption.
  - by_computation.
  - right. intros [Hin _]. revert Hin. by_computation.
  - intros [Hd _]. discriminate.
  - assert (Hrun : IdeAlarmZone.onToggleSwitch cfg itemName (z, w)
                   = IdeAlarmZone.setArmingMode cfg ARMINGMODE.DISARMED false (z, w)).
    { unfold IdeAlarmZone.onToggleSwitch.
      erewrite bind_Ok by reflexivity.
      erewrite bind_Ok by reflexivity. cbn [fst snd].
      rewrite !(decide_False (P := IdeAlarmZone._armingMode z ∈ [Some ARMINGMODE.DISARMED]))
        by (rewrite list_elem_of_singleton; exact Harmed).
      now destruct (decide (itemName = IdeAlarmZone.armAwayToggleSwitch z)). }
    rewrite R in Hrun.
    eexists _, w'. split; [exact Hrun|]. split; [reflexivity|]. split; [reflexivity|exact Hoff].
Qed.

Lemma onToggleSwitch_armed_disarms_witness :
  let z := Fixture.zone 1 "Perimeter" 2 1 0 [Fixture.frontDoor] in
  let w := Fixture.house ON OPEN OFF 2 1 in
  IdeAlarmZone._armingMode z ≠ Some ARMINGMODE.DISARMED
  ∧ known w (IdeAlarmZone.armingModeItem z)
  ∧ known w (IdeAlarmZone.statusItem z)
  ∧ (∀ j, j ∈ guarded (IdeAlarmZone.zoneNumber z) (IdeAlarmZone.alertDevices z) ->
          has_kind w j SwitchItem)
  ∧ ∃ z' w',
      IdeAlarmZone.onToggleSwitch Fixture.cfg "Z1_Toggle_Home" (z, w) = Ok tt (z', w')
      ∧ IdeAlarmZone._armingMode z' = Some ARMINGMODE.DISARMED
      ∧ reads w' "Siren" OFF.
Proof.
  intros z w.
  assert (H0 : IdeAlarmZone._armingMode z ≠ Some ARMINGMODE.DISARMED) by discriminate.
  assert (H1 : known w (IdeAlarmZone.armingModeItem z)) by (eexists; vm_compute; reflexivity).
  assert (H2 : known w (IdeAlarmZone.statusItem z)) by (eexists; vm_compute; reflexivity).
  assert (H3 : ∀ j, j ∈ guarded (IdeAlarmZone.zoneNumber z) (IdeAlarmZone.alertDevices z) ->
                    has_kind w j SwitchItem).
  { apply Forall_forall.
    repeat (apply List.Forall_cons; [vm_compute; reflexivity|]). apply List.Forall_nil. }
  destruct (onToggleSwitch_armed_disarms Fixture.cfg z w "Z1_Toggle_Home" H0 H1 H2 H3)
    as (z' & w' & R & Hm & _ & Hoff).
  split; [exact H0|]. split; [exact H1|]. split; [exact H2|]. split; [exact H3|].
  exists z', w'. split; [exact R|]. split; [exact Hm|].
  apply Hoff. by_computation.
Defined.

(** X12. Arming home is immediate.  On a disarmed zone that the
    open-sensors check does not stop (the policy allows arming with tripped
    sensors, or no section is open, or the status is ARMING), [onToggleSwitch]
    with an item that is not the arm-away switch returns with the arming
    mode ARMED_HOME and the status NORMAL: there is no exit delay. *)
Theorem onToggleSwitch_arms_home cfg (z : IdeAlarmZone.t) (w : World) (itemName : string) :
  IdeAlarmZone._armingMode z = Some ARMINGMODE.DISARMED ->
  itemName ≠ IdeAlarmZone.armAwayToggleSwitch z ->
  IdeAlarmZone.canArmWithTrippedSensors z = true
  ∨ (IdeAlarmZone.openSections z <= 0)%Z
  ∨ IdeAlarmZone._zoneStatus z = Some ZONESTATUS.ARMING ->
  known w (IdeAlarmZone.armingModeItem z) ->
  known w (IdeAlarmZone.statusItem z) ->
  (∀ j, j ∈ guarded (IdeAlarmZone.zoneNumber z) (IdeAlarmZone.alertDevices z) ->
        has_kind w j SwitchItem) ->
  ∃ z' w',
    IdeAlarmZone.onToggleSwitch cfg itemName (z, w) = Ok tt (z', w')
    ∧ IdeAlarmZone._armingMode z' = Some ARMINGMODE.ARMED_HOME
    ∧ IdeAlarmZone._zoneStatus z' = Some ZONESTATUS.NORMAL
    ∧ reads w' (zoneItem (IdeAlarmZone.zoneNumber z) "_Exit_Timer") OFF.
Proof.
  intros Hdis Hitem Hpass Hmode Hst Hsw.
  destruct (setArmingMode_installs cfg z w ARMINGMODE.ARMED_HOME false)
    as (w' & R & Hoff); try assumption.
  - by_computation.
  - destruct Hpass as [Hc|[Ho|Ha]]; [now left|right|right].
    + intros (_ & _ & _ & Hpos). lia.
    + intros (_ & Hne & _). contradiction.
  - intros [Hd _]. discriminate.
  - assert (Hrun : IdeAlarmZone.onToggleSwitch cfg itemName (z, w)
                   = IdeAlarmZone.setArmingMode cfg ARMINGMODE.ARMED_HOME false (z, w)).
    { unfold IdeAlarmZone.onToggleSwitch.
      erewrite bind_Ok by reflexivity.
      erewrite bind_Ok by reflexivity. cbn [fst snd].
      rewrite decide_False by exact Hitem.
      rewrite decide_True by (rewrite Hdis; apply list_elem_of_singleton; reflexivity).
      reflexivity. }
    rewrite R in Hrun.
    eexists _, w'. split; [exact Hrun|]. split; [reflexivity|]. split; [reflexivity|].
    apply Hoff. unfold guarded. apply elem_of_app. left.
    apply elem_of_cons. right. apply elem_of_cons. now left.
Qed.

Lemma onToggleSwitch_arms_home_witness :
  let z := Fixture.zone 1 "Perimeter" 0 0 0 [Fixture.frontDoor] in
  let w := Fixture.house OFF CLOSED OFF 0 0 in
  IdeAlarmZone._armingMode z = Some ARMINGMODE.DISARMED
  ∧ "Z1_Toggle_Home" ≠ IdeAlarmZone.armAwayToggleSwitch z
  ∧ (IdeAlarmZone.canArmWithTrippedSensors z = true
     ∨ (IdeAlarmZone.openSections z <= 0)%Z
     ∨ IdeAlarmZone._zoneStatus z = Some ZONESTATUS.ARMING)
  ∧ known w (IdeAlarmZone.armingModeItem z)
  ∧ known w (IdeAlarmZone.statusItem z)
  ∧ (∀ j, j ∈ guarded (IdeAlarmZone.zoneNumber z) (IdeAlarmZone.alertDevices z) ->
          has_kind w j SwitchItem)
  ∧ ∃ z' w',
      IdeAlarmZone.onToggleSwitch Fixture.cfg "Z1_Toggle_Home" (z, w) = Ok tt (z', w')
      ∧ IdeAlarmZone._armingMode z' = Some ARMINGMODE.ARMED_HOME
      ∧ IdeAlarmZone._zoneStatus z' = Some ZONESTATUS.NORMAL.
Proof.
  intros z w.
  assert (H0 : IdeAlarmZone._armingMode z = Some ARMINGMODE.DISARMED) by reflexivity.
  assert (Hi : "Z1_Toggle_Home" ≠ IdeAlarmZone.armAwayToggleSwitch z) by (vm_compute; discriminate).
  assert (Hp : IdeAlarmZone.canArmWithTrippedSensors z = true
               ∨ (IdeAlarmZone.openSections z <= 0)%Z
               ∨ IdeAlarmZone._zoneStatus z = Some ZONESTATUS.ARMING)
    by (right; left; reflexivity).
  assert (H1 : known w (IdeAlarmZone.armingModeItem z)) by (eexists; vm_compute; reflexivity).
  assert (H2 : known w (IdeAlarmZone.statusItem z)) by (eexists; vm_compute; reflexivity).
  assert (H3 : ∀ j, j ∈ guarded (IdeAlarmZone.zoneNumber z) (IdeAlarmZone.alertDevices z) ->
                    has_kind w j SwitchItem).
  { apply Forall_forall.
    repeat (apply List.Forall_cons; [vm_compute; reflexivity|]). apply List.Forall_nil. }
  destruct (onToggleSwitch_arms_home Fixture.cfg z w "Z1_Toggle_Home" H0 Hi Hp H1 H2 H3)
    as (z' & w' & R & Hm & Hs & _).
  split; [exact H0|]. split; [exact Hi|]. split; [exact Hp|].
  split; [exact H1|]. split; [exact H2|]. split; [exact H3|].
  exists z', w'. split; [exact R|]. split; [exact Hm|exact Hs].
Defined.

(** X13. When the exit timer times out during the exit delay (status
    ARMING), the zone is armed away even if sections have opened in the
    meantime and the policy forbids arming with tripped sensors: the
    open-sensors check is not applied to a zone in status ARMING.
    [onExitTimer] returns with the arming mode ARMED_AWAY and the status
    NORMAL, and the open-sensors hook is not called. *)
Theorem onExitTimer_arms_despite_open_sections cfg (z : IdeAlarmZone.t) (w : World) :
  IdeAlarmZone._zoneStatus z = Some ZONESTATUS.ARMING ->
  known w (IdeAlarmZone.armingModeItem z) ->
  known w (IdeAlarmZone.statusItem z) ->
  (∀ j, j ∈ guarded (IdeAlarmZone.zoneNumber z) (IdeAlarmZone.alertDevices z) ->
        has_kind w j SwitchItem) ->
  ∃ z' w',
    IdeAlarmZone.onExitTimer cfg (z, w) = Ok tt (z', w')
    ∧ IdeAlarmZone._armingMode z' = Some ARMINGMODE.ARMED_AWAY
    ∧ IdeAlarmZone._zoneStatus z' = Some ZONESTATUS.NORMAL
    ∧ IdeAlarmZone.openSections z' = IdeAlarmZone.openSections z
    ∧ ∃ evs, trace w' = trace w ++ evs
             ∧ Forall (fun e => ∀ n m, e ≠ OnArmingWithOpenSensors n m) evs.
Proof.
  intros Hstatus Hmode Hst Hsw.
  assert (Hg : Forall (known w)
                 (guarded (IdeAlarmZone.zoneNumber z) (IdeAlarmZone.alertDevices z))).
  { apply Forall_forall. intros j Hj. specialize (Hsw j Hj).
    unfold known, has_kind in *. apply (fmap_is_Some kind). now rewrite Hsw. }
  unfold IdeAlarmZone.onExitTimer, IdeAlarmZone.setArmingMode.
  erewrite bind_Ok by reflexivity. cbn zeta.
  rewrite decide_False by (intros Hno; apply Hno; by_computation).
  erewrite bind_Ok by reflexivity. cbn [fst snd].
  rewrite decide_False by (intros (_ & Hne & _); contradiction).
  unfold IdeAlarmZone.setArmingMode_proceed.
  erewrite bind_Ok by reflexivity.
  erewrite bind_Ok by reflexivity. cbn [fst snd].
  rewrite decide_False by (intros (_ & _ & Hne); contradiction).
  erewrite bind_Ok by reflexivity. cbn [fst snd].
  set (z1 := IdeAlarmZone.with_armingMode (Some ARMINGMODE.ARMED_AWAY) z).
  destruct Hmode as [item Hit].
  destruct (post_update_if_different_Ok _ (Decimal ARMINGMODE.ARMED_AWAY) false w item Hit)
    as [b1 R1].
  erewrite bind_Ok by (apply dev_Ok; exact R1).
  erewrite bind_Ok by apply optional_hook_Ok.
  match goal with |- context [IdeAlarmZone.setZoneStatus _ _ _ _ (_, ?x)] =>
    set (w2 := x) end.
  assert (K : ∀ j, known w j -> known w2 j).
  { intros j Hj. unfold known, w2; simpl. now apply written_known. }
  destruct (setZoneStatus_Ok cfg z1 w2 ZONESTATUS.NORMAL false None) as [evs3 [R3 N3]];
    [by_computation| |apply K, Hst|].
  { intros _. eapply Forall_impl; [exact Hg|]. exact K. }
  rewrite R3. eexists _, _. split; [reflexivity|].
  split; [reflexivity|]. split; [reflexivity|]. split; [reflexivity|].
  eexists. split; [unfold w2; simpl; rewrite <- !app_assoc; reflexivity|].
  repeat (apply Forall_app; split).
  - destruct b1; repeat constructor. intros n m. discriminate.
  - destruct (has_onArmingModeChange (custom cfg)); repeat constructor.
    intros n m. discriminate.
  - apply Forall_forall. intros e He n m ->.
    assert (Hin : OnArmingWithOpenSensors n m ∈ notifications evs3).
    { unfold notifications. apply list_elem_of_In, List.filter_In.
      split; [now apply list_elem_of_In|reflexivity]. }
    rewrite N3 in Hin. destruct (has_onZoneStatusChange (custom cfg)).
    + apply list_elem_of_singleton in Hin. discriminate.
    + now apply elem_of_nil in Hin.
Qed.

Lemma onExitTimer_arms_despite_open_sections_witness :
  let z := Fixture.zone 1 "Perimeter" 0 4 1 [Fixture.frontDoor] in
  let w := Fixture.house OFF OPEN OFF 0 4 in
  IdeAlarmZone._zoneStatus z = Some ZONESTATUS.ARMING
  ∧ known w (IdeAlarmZone.armingModeItem z)
  ∧ known w (IdeAlarmZone.statusItem z)
  ∧ (∀ j, j ∈ guarded (IdeAlarmZone.zoneNumber z) (IdeAlarmZone.alertDevices z) ->
          has_kind w j SwitchItem)
  ∧ (0 < IdeAlarmZone.openSections z)%Z
  ∧ IdeAlarmZone.canArmWithTrippedSensors z = false
  ∧ ∃ z' w',
      IdeAlarmZone.onExitTimer Fixture.cfg (z, w) = Ok tt (z', w')
      ∧ IdeAlarmZone._armingMode z' = Some ARMINGMODE.ARMED_AWAY
      ∧ IdeAlarmZone._zoneStatus z' = Some ZONESTATUS.NORMAL.
Proof.
  intros z w.
  assert (H0 : IdeAlarmZone._zoneStatus z = Some ZONESTATUS.ARMING) by reflexivity.
  assert (H1 : known w (IdeAlarmZone.armingModeItem z)) by (eexists; vm_compute; reflexivity).
  assert (H2 : known w (IdeAlarmZone.statusItem z)) by (eexists; vm_compute; reflexivity).
  assert (H3 : ∀ j, j ∈ guarded (IdeAlarmZone.zoneNumber z) (IdeAlarmZone.alertDevices z) ->
                    has_kind w j SwitchItem).
  { apply Forall_forall.
    repeat (apply List.Forall_cons; [vm_compute; reflexivity|]). apply List.Forall_nil. }
  destruct (onExitTimer_arms_despite_open_sections Fixture.cfg z w H0 H1 H2 H3)
    as (z' & w' & R & Hm & Hs & _).
  split; [exact H0|]. split; [exact H1|]. split; [exact H2|]. split; [exact H3|].
  split; [reflexivity|]. split; [reflexivity|].
  exists z', w'. split; [exact R|]. split; [exact Hm|exact Hs].
Defined.

(** ** getNagSensors *)

Lemma getNagSensors_loop_Ok cfg (z : IdeAlarmZone.t) (w : World) l acc :
  Forall (fun sensor => known w (IdeAlarmSensor.name sensor)) l ->
  IdeAlarmZone.getNagSensors_loop cfg l acc (z, w)
  = Ok (acc ++ List.filter (nagging cfg (IdeAlarmZone._armingMode z) w) l) (z, w).
Proof.
  intros Hl. revert acc. induction Hl as [|sensor l Hk Hl IH]; intros acc.
  - simpl. now rewrite app_nil_r.
  - cbn [IdeAlarmZone.getNagSensors_loop List.filter].
    erewrite bind_Ok by (apply dev_Ok, isEnabled_Ok).
    erewrite (bind_Ok _ _ _ _ (nagging cfg (IdeAlarmZone._armingMode z) w sensor)).
    + rewrite IH. destruct (nagging cfg (IdeAlarmZone._armingMode z) w sensor);
        [now rewrite <- app_assoc|reflexivity].
    + unfold nagging. destruct (enabled_now w sensor); [|reflexivity].
      erewrite bind_Ok by (apply dev_Ok, isActive_Ok, Hk).
      cbn [andb].
      destruct (active_now cfg w sensor && IdeAlarmSensor.nag sensor); [|reflexivity].
      erewrite bind_Ok by reflexivity. reflexivity.
Qed.

(** X14. With the sensors' items in the registry and the nag timer a
    switch, [getNagSensors] returns, in the order of the configuration,
    exactly the sensors that are enabled, active and set to nag while the
    zone is disarmed.  The nag timer then reads ON if there is such a
    sensor and OFF if there is none, no other device has changed, the zone
    object is the same, and the nag hook is called, with these sensors,
    only when the call comes from the timer, the list is not empty and the
    hook is installed. *)
Theorem getNagSensors_exact cfg (z : IdeAlarmZone.t) (w : World) (timerTimedOut : bool) :
  Forall (fun sensor => known w (IdeAlarmSensor.name sensor)) (IdeAlarmZone.sensors z) ->
  has_kind w (zoneItem (IdeAlarmZone.zoneNumber z) "_Nag_Timer") SwitchItem ->
  let nagSensors :=
    List.filter (nagging cfg (IdeAlarmZone._armingMode z) w) (IdeAlarmZone.sensors z) in
  ∃ w',
    IdeAlarmZone.getNagSensors cfg timerTimedOut (z, w) = Ok nagSensors (z, w')
    ∧ reads w' (zoneItem (IdeAlarmZone.zoneNumber z) "_Nag_Timer")
        (match nagSensors with [] => OFF | _ => ON end)
    ∧ (∀ j, j ≠ zoneItem (IdeAlarmZone.zoneNumber z) "_Nag_Timer" ->
            items w' !! j = items w !! j)
    ∧ ∃ evs, trace w' = trace w ++ evs
             ∧ notifications evs
               = match nagSensors with
                 | [] => []
                 | _ => if timerTimedOut && has_onNagTimer (custom cfg)
                        then [OnNagTimer (IdeAlarmZone.zoneNumber z)
                                (IdeAlarmSensor.name <$> nagSensors)]
                        else []
                 end.
Proof.
  intros Hsensors Hnag nagSensors.
  set (nagTimer := zoneItem (IdeAlarmZone.zoneNumber z) "_Nag_Timer") in *.
  unfold has_kind in Hnag.
  destruct (items w !! nagTimer) as [item|] eqn:Hit; [|discriminate].
  injection Hnag as Hkind.
  assert (Hloop : IdeAlarmZone.getNagSensors_loop cfg (IdeAlarmZone.sensors z) [] (z, w)
                  = Ok nagSensors (z, w)).
  { now rewrite getNagSensors_loop_Ok. }
  unfold IdeAlarmZone.getNagSensors.
  erewrite bind_Ok by reflexivity.
  erewrite bind_Ok by exact Hloop. cbn [fst snd]. fold nagTimer.
  destruct nagSensors as [|sensor rest].
  - destruct (post_update_if_different_Ok nagTimer OFF false w item Hit) as [b Hb].
    rewrite decide_True by reflexivity.
    erewrite (bind_Ok _ _ _ _ tt).
    2:{ erewrite bind_Ok; [reflexivity|]. apply dev_Ok. exact Hb. }
    eexists. split; [reflexivity|]. split; [|split].
    + unfold reads; simpl. rewrite written_lookup, Hit. simpl.
      rewrite write_item_state; [reflexivity|]. now rewrite Hkind.
    + intros j Hj. simpl. now apply written_lookup_ne.
    + eexists. split; [reflexivity|]. now destruct b.
  - destruct (post_update_if_different_Ok nagTimer ON false w item Hit) as [b Hb].
    rewrite decide_False by discriminate.
    erewrite (bind_Ok _ _ _ _ tt).
    2:{ erewrite bind_Ok by (apply dev_Ok; exact Hb). apply optional_hook_Ok. }
    eexists. split; [reflexivity|]. split; [|split].
    + unfold reads; simpl. rewrite written_lookup, Hit. simpl.
      rewrite write_item_state; [reflexivity|]. now rewrite Hkind.
    + intros j Hj. simpl. now apply written_lookup_ne.
    + eexists. split; [simpl; rewrite <- app_assoc; reflexivity|].
      destruct b, (timerTimedOut && has_onNagTimer (custom cfg)); reflexivity.
Qed.

Lemma getNagSensors_exact_witness :
  let z := Fixture.zone 1 "Perimeter" 0 0 0 [Fixture.frontDoor; Fixture.hallMotion] in
  let w := Fixture.house OFF OPEN OFF 0 0 in
  Forall (fun sensor => known w (IdeAlarmSensor.name sensor)) (IdeAlarmZone.sensors z)
  ∧ has_kind w (zoneItem (IdeAlarmZone.zoneNumber z) "_Nag_Timer") SwitchItem
  ∧ ∃ w', IdeAlarmZone.getNagSensors Fixture.cfg true (z, w) = Ok [Fixture.frontDoor] (z, w')
          ∧ reads w' "Z1_Nag_Timer" ON
          ∧ ∃ evs, trace w' = trace w ++ evs
                   ∧ notifications evs = [OnNagTimer 1 ["FrontDoor"]].
Proof.
  intros z w.
  assert (H1 : Forall (fun sensor => known w (IdeAlarmSensor.name sensor))
                 (IdeAlarmZone.sensors z)).
  { repeat (apply List.Forall_cons; [eexists; vm_compute; reflexivity|]). apply List.Forall_nil. }
  assert (H2 : has_kind w (zoneItem (IdeAlarmZone.zoneNumber z) "_Nag_Timer") SwitchItem)
    by (vm_compute; reflexivity).
  destruct (getNagSensors_exact Fixture.cfg z w true H1 H2) as (w' & R & Hon & _ & Hev).
  split; [exact H1|]. split; [exact H2|].
  exists w'. split; [exact R|]. split; [exact Hon|exact Hev].
Defined.

(** ** getOpenSensors *)

Lemma getLastUpdate_Ok svc (sensor : IdeAlarmSensor.t) (w : World) :
  ∃ t, IdeAlarmSensor.getLastUpdate svc sensor w = Ok t w.
Proof.
  unfold IdeAlarmSensor.getLastUpdate, scope.getItem.
  destruct (items w !! IdeAlarmSensor.name sensor);
    [destruct (lastUpdate svc (IdeAlarmSensor.name sensor))|]; eexists; reflexivity.
Qed.

Lemma getOpenSensors_skips_now cfg svc isArming k (sensor : IdeAlarmSensor.t)
    (z : IdeAlarmZone.t) (w : World) :
  known w (IdeAlarmSensor.name sensor) ->
  IdeAlarmZone.getOpenSensors_skips cfg svc 0 isArming k sensor (z, w)
  = Ok (negb (enabled_now w sensor && active_now cfg w sensor
              && (negb isArming || IdeAlarmSensor.armWarn sensor))) (z, w).
Proof.
  intros Hk. unfold IdeAlarmZone.getOpenSensors_skips.
  erewrite bind_Ok by (apply dev_Ok, isEnabled_Ok).
  destruct (enabled_now w sensor); [|reflexivity]. cbn [negb andb].
  rewrite (decide_True (P := (0 = 0)%Z)) by reflexivity.
  erewrite (bind_Ok _ _ _ _ (negb (active_now cfg w sensor)))
    by (erewrite bind_Ok by (apply dev_Ok, isActive_Ok, Hk); reflexivity).
  destruct (active_now cfg w sensor); [|reflexivity]. cbn [negb andb].
  rewrite (decide_False (P := (0 < 0)%Z)) by lia.
  now destruct isArming, (IdeAlarmSensor.armWarn sensor).
Qed.

Lemma getOpenSensors_loop_now cfg svc armingMode isArming (z : IdeAlarmZone.t) (w : World)
    l k acc :
  Forall (fun sensor => known w (IdeAlarmSensor.name sensor)) l ->
  IdeAlarmZone.getOpenSensors_loop cfg svc 0 armingMode isArming k l acc (z, w)
  = Ok (acc ++ List.filter (open_sensor cfg armingMode isArming w) l) (z, w).
Proof.
  intros Hl. revert k acc. induction Hl as [|sensor l Hk Hl IH]; intros k acc.
  - simpl. now rewrite app_nil_r.
  - cbn [IdeAlarmZone.getOpenSensors_loop List.filter].
    erewrite bind_Ok by (apply getOpenSensors_skips_now; exact Hk).
    rewrite IH. unfold open_sensor at 2.
    destruct (enabled_now w sensor && active_now cfg w sensor
              && (negb isArming || IdeAlarmSensor.armWarn sensor)); cbn [negb andb];
      [|reflexivity].
    destruct (decide (armingMode = Some ARMINGMODE.ARMED_AWAY
                      ∨ armingMode = Some ARMINGMODE.ARMED_HOME
                        ∧ IdeAlarmSensor.sensorClass sensor ≠ "B")) as [Hy|Hn].
    + rewrite (bool_decide_eq_true_2 _ Hy). now rewrite <- app_assoc.
    + now rewrite (bool_decide_eq_false_2 _ Hn).
Qed.

(** X15. [getOpenSensors] with [mins = 0], the sensors' items being in
    the registry, returns in the order of the configuration exactly the
    sensors that are enabled and active, that warn on arming if [isArming]
    is set, and that count in the arming mode asked about (the zone's own
    if none is given): all of them under ARMED_AWAY, those not of class B
    under ARMED_HOME, none under DISARMED.  Nothing is changed. *)
Theorem getOpenSensors_now cfg svc (z : IdeAlarmZone.t) (w : World)
    (armingMode : option Z) (isArming : bool) :
  Forall (fun sensor => known w (IdeAlarmSensor.name sensor)) (IdeAlarmZone.sensors z) ->
  let mode := match armingMode with
              | None => IdeAlarmZone._armingMode z
              | Some _ => armingMode
              end in
  IdeAlarmZone.getOpenSensors cfg svc 0 armingMode isArming (z, w)
  = Ok (List.filter (open_sensor cfg mode isArming w) (IdeAlarmZone.sensors z)) (z, w)
  ∧ (mode = Some ARMINGMODE.DISARMED ->
     List.filter (open_sensor cfg mode isArming w) (IdeAlarmZone.sensors z) = []).
Proof.
  intros Hl mode.
  assert (Hdis : mode = Some ARMINGMODE.DISARMED ->
                 List.filter (open_sensor cfg mode isArming w) (IdeAlarmZone.sensors z) = []).
  { intros ->. clear Hl. induction (IdeAlarmZone.sensors z) as [|s l IH]; [reflexivity|].
    simpl. unfold open_sensor at 1.
    rewrite bool_decide_eq_false_2, andb_false_r; [exact IH|].
    intros [H|[H _]]; discriminate. }
  split; [|exact Hdis].
  unfold IdeAlarmZone.getOpenSensors.
  erewrite bind_Ok by reflexivity.
  erewrite bind_Ok by reflexivity. cbn [fst snd]. fold mode.
  destruct (decide (mode = Some ARMINGMODE.DISARMED)) as [Hd|Hd].
  - now rewrite Hdis.
  - now rewrite getOpenSensors_loop_now.
Qed.

Lemma getOpenSensors_now_witness :
  let z := Fixture.zone 1 "Perimeter" 1 0 0 [Fixture.frontDoor; Fixture.hallMotion] in
  let w := Fixture.house OFF OPEN ON 1 0 in
  let svc := {| lastUpdate := fun _ => None; now := fun _ => 0%Z |} in
  Forall (fun sensor => known w (IdeAlarmSensor.name sensor)) (IdeAlarmZone.sensors z)
  ∧ IdeAlarmZone.getOpenSensors Fixture.cfg svc 0 None false (z, w)
    = Ok [Fixture.frontDoor] (z, w)
  ∧ IdeAlarmZone.getOpenSensors Fixture.cfg svc 0 (Some ARMINGMODE.ARMED_AWAY) false (z, w)
    = Ok [Fixture.frontDoor; Fixture.hallMotion] (z, w).
Proof.
  intros z w svc.
  assert (H1 : Forall (fun sensor => known w (IdeAlarmSensor.name sensor))
                 (IdeAlarmZone.sensors z)).
  { repeat (apply List.Forall_cons; [eexists; vm_compute; reflexivity|]). apply List.Forall_nil. }
  split; [exact H1|]. split.
  - exact (proj1 (getOpenSensors_now Fixture.cfg svc z w None false H1)).
  - exact (proj1 (getOpenSensors_now Fixture.cfg svc z w (Some ARMINGMODE.ARMED_AWAY) false H1)).
Defined.

Lemma getOpenSensors_skips_minutes cfg svc mins isArming k (sensor : IdeAlarmSensor.t)
    (z : IdeAlarmZone.t) (w : World) :
  mins ≠ 0%Z ->
  ∃ skip : bool,
    IdeAlarmZone.getOpenSensors_skips cfg svc mins isArming k sensor (z, w) = Ok skip (z, w)
    ∧ (skip = false ->
       enabled_now w sensor = true ∧ (negb isArming || IdeAlarmSensor.armWarn sensor) = true)
    ∧ ((mins < 0)%Z ->
       skip = negb (enabled_now w sensor && (negb isArming || IdeAlarmSensor.armWarn sensor))).
Proof.
  intros Hmins. unfold IdeAlarmZone.getOpenSensors_skips.
  erewrite bind_Ok by (apply dev_Ok, isEnabled_Ok).
  destruct (enabled_now w sensor); cbn [negb andb].
  2:{ exists true. split; [reflexivity|]. split; [discriminate|reflexivity]. }
  rewrite (decide_False (P := mins = 0%Z)) by exact Hmins.
  erewrite (bind_Ok _ _ _ _ false) by reflexivity.
  destruct (isArming && negb (IdeAlarmSensor.armWarn sensor)) eqn:Hwarn.
  { exists true. split; [reflexivity|]. split; [discriminate|].
    intros _. destruct isArming, (IdeAlarmSensor.armWarn sensor); try discriminate; reflexivity. }
  assert (Hw : (negb isArming || IdeAlarmSensor.armWarn sensor) = true).
  { destruct isArming, (IdeAlarmSensor.armWarn sensor); try discriminate; reflexivity. }
  destruct (decide (0 < mins)%Z) as [Hpos|Hneg].
  - destruct (getLastUpdate_Ok svc sensor w) as [t Ht].
    erewrite bind_Ok by (apply dev_Ok; exact Ht).
    eexists. split; [reflexivity|]. split; [now intros _|lia].
  - exists false. split; [reflexivity|]. split; [now intros _|].
    intros _. now rewrite Hw.
Qed.

Lemma getOpenSensors_loop_minutes cfg svc mins armingMode isArming (z : IdeAlarmZone.t)
    (w : World) l k acc :
  mins ≠ 0%Z ->
  ∃ l',
    IdeAlarmZone.getOpenSensors_loop cfg svc mins armingMode isArming k l acc (z, w)
    = Ok (acc ++ l') (z, w)
    ∧ sublist l' l
    ∧ Forall (fun sensor =>
                enabled_now w sensor = true
                ∧ (negb isArming || IdeAlarmSensor.armWarn sensor) = true
                ∧ (armingMode = Some ARMINGMODE.ARMED_AWAY
                   ∨ (armingMode = Some ARMINGMODE.ARMED_HOME
                      ∧ IdeAlarmSensor.sensorClass sensor ≠ "B"))) l'
    ∧ ((mins < 0)%Z ->
       l' = List.filter (fun sensor =>
                           enabled_now w sensor
                           && (negb isArming || IdeAlarmSensor.armWarn sensor)
                           && bool_decide (armingMode = Some ARMINGMODE.ARMED_AWAY
                                           ∨ (armingMode = Some ARMINGMODE.ARMED_HOME
                                              ∧ IdeAlarmSensor.sensorClass sensor ≠ "B"))) l).
Proof.
  intros Hmins. revert k acc. induction l as [|sensor l IH]; intros k acc.
  - exists []. split; [simpl; now rewrite app_nil_r|].
    split; [constructor|]. split; [constructor|reflexivity].
  - destruct (getOpenSensors_skips_minutes cfg svc mins isArming k sensor z w Hmins)
      as (skip & R & Hkept & Hneg).
    cbn [IdeAlarmZone.getOpenSensors_loop List.filter].
    erewrite bind_Ok by exact R.
    match goal with |- context [IdeAlarmZone.getOpenSensors_loop _ _ _ _ _ _ _ ?a] =>
      destruct (IH (S k) a) as (l' & R' & Hsub & Hall & Hneg') end.
    destruct skip.
    + exists l'. split; [exact R'|]. split; [now apply sublist_cons|]. split; [exact Hall|].
      intros Hlt. rewrite (Hneg' Hlt). specialize (Hneg Hlt).
      apply (f_equal negb) in Hneg. rewrite negb_involutive in Hneg. cbn [negb] in Hneg.
      now rewrite <- Hneg.
    + destruct (decide (armingMode = Some ARMINGMODE.ARMED_AWAY
                        ∨ armingMode = Some ARMINGMODE.ARMED_HOME
                          ∧ IdeAlarmSensor.sensorClass sensor ≠ "B")) as [Hy|Hn].
      * exists (sensor :: l'). split; [rewrite R'; now rewrite <- app_assoc|].
        split; [now apply sublist_skip|].
        destruct (Hkept eq_refl) as [He Hw].
        split; [constructor; [repeat split; assumption|exact Hall]|].
        intros Hlt. rewrite He, Hw, (bool_decide_eq_true_2 _ Hy). cbn [andb].
        now rewrite (Hneg' Hlt).
      * exists l'. split; [exact R'|]. split; [now apply sublist_cons|]. split; [exact Hall|].
        intros Hlt. rewrite (bool_decide_eq_false_2 _ Hn), andb_false_r. exact (Hneg' Hlt).
Qed.

(** X16. [getOpenSensors] with [mins] other than 0 never raises, whatever
    the registry and the persistence service hold (a sensor that cannot be
    looked up counts as last updated at the epoch).  It returns some of the
    zone's sensors, in the order of the configuration, each of them enabled,
    warning on arming if [isArming] is set, and counting in the arming
    mode; the state is unchanged.  For a negative [mins] neither the
    sensors' activity nor their last update is looked at: the result is all
    such sensors. *)
Theorem getOpenSensors_minutes cfg svc (z : IdeAlarmZone.t) (w : World)
    (mins : Z) (armingMode : option Z) (isArming : bool) :
  mins ≠ 0%Z ->
  let mode := match armingMode with
              | None => IdeAlarmZone._armingMode z
              | Some _ => armingMode
              end in
  let counts := fun sensor =>
    bool_decide (mode = Some ARMINGMODE.ARMED_AWAY
                 ∨ (mode = Some ARMINGMODE.ARMED_HOME
                    ∧ IdeAlarmSensor.sensorClass sensor ≠ "B")) in
  ∃ l,
    IdeAlarmZone.getOpenSensors cfg svc mins armingMode isArming (z, w) = Ok l (z, w)
    ∧ sublist l (IdeAlarmZone.sensors z)
    ∧ Forall (fun sensor =>
                enabled_now w sensor = true
                ∧ (negb isArming || IdeAlarmSensor.armWarn sensor) = true
                ∧ counts sensor = true) l
    ∧ ((mins < 0)%Z ->
       l = List.filter (fun sensor =>
                          enabled_now w sensor
                          && (negb isArming || IdeAlarmSensor.armWarn sensor)
                          && counts sensor) (IdeAlarmZone.sensors z)).
Proof.
  intros Hmins mode counts.
  unfold IdeAlarmZone.getOpenSensors.
  erewrite bind_Ok by reflexivity.
  erewrite bind_Ok by reflexivity. cbn [fst snd]. fold mode.
  destruct (decide (mode = Some ARMINGMODE.DISARMED)) as [Hd|Hd].
  - exists []. split; [reflexivity|]. split; [apply sublist_nil_l|]. split; [constructor|].
    intros _. induction (IdeAlarmZone.sensors z) as [|s l IH]; [reflexivity|].
    simpl. unfold counts at 1. rewrite bool_decide_eq_false_2, andb_false_r; [exact IH|].
    rewrite Hd. intros [H|[H _]]; discriminate.
  - destruct (getOpenSensors_loop_minutes cfg svc mins mode isArming z w
                (IdeAlarmZone.sensors z) 0 [] Hmins) as (l & R & Hsub & Hall & Hneg).
    exists l. split; [exact R|]. split; [exact Hsub|]. split; [|exact Hneg].
    eapply Forall_impl; [exact Hall|]. intros s (He & Hw & Hc).
    repeat split; try assumption. unfold counts. now apply bool_decide_eq_true_2.
Qed.

Lemma getOpenSensors_minutes_witness :
  let z := Fixture.zone 1 "Perimeter" 2 0 0 [Fixture.frontDoor; Fixture.sensor "BackDoor" "A"] in
  let w := Fixture.house OFF OPEN ON 2 0 in
  let svc := {| lastUpdate := fun name => if decide (name = "FrontDoor") then Some 990000%Z
                                          else None;
                now := fun _ => 1000000%Z |} in
  (1 ≠ 0)%Z
  ∧ IdeAlarmZone.getOpenSensors Fixture.cfg svc 1 None false (z, w)
    = Ok [Fixture.frontDoor] (z, w).
Proof.
  intros z w svc.
  assert (H : (1 ≠ 0)%Z) by discriminate.
  split; [exact H|].
  destruct (getOpenSensors_minutes Fixture.cfg svc z w 1 None false H) as (l & R & _).
  rewrite R. vm_compute in R. injection R as <-. reflexivity.
Defined.

Lemma readonly_getOpenSensors_loop cfg svc mins armingMode isArming l k acc :
  readonly (IdeAlarmZone.getOpenSensors_loop cfg svc mins armingMode isArming k l acc).
Proof.
  revert k acc. induction l as [|sensor l IH]; intros k acc; [apply readonly_ret|].
  cbn [IdeAlarmZone.getOpenSensors_loop].
  apply readonly_bind; [|intros skip; apply IH].
  unfold IdeAlarmZone.getOpenSensors_skips.
  apply readonly_bind; [apply readonly_dev, readonly_isEnabled|]. intros en.
  destruct (negb en); [apply readonly_ret|].
  apply readonly_bind.
  { destruct (decide (mins = 0%Z)); [|apply readonly_ret].
    apply readonly_bind; [apply readonly_dev, readonly_isActive|].
    intros act. apply readonly_ret. }
  intros quiet. destruct quiet; [apply readonly_ret|].
  destruct (isArming && negb (IdeAlarmSensor.armWarn sensor)); [apply readonly_ret|].
  destruct (decide (0 < mins)%Z); [|apply readonly_ret].
  apply readonly_bind; [|intros t; apply readonly_ret].
  apply readonly_dev. intros w. destruct (getLastUpdate_Ok svc sensor w) as [t Ht].
  now rewrite Ht.
Qed.

(** X17. [getOpenSensors] is a query: whatever its arguments and whatever
    the registry holds, and also when it raises because a sensor's item is
    missing, the zone object and the device world after the call are what
    they were before it; nothing is sent. *)
Theorem getOpenSensors_readonly cfg svc (mins : Z) (armingMode : option Z) (isArming : bool) :
  readonly (IdeAlarmZone.getOpenSensors cfg svc mins armingMode isArming).
Proof.
  unfold IdeAlarmZone.getOpenSensors.
  apply readonly_bind; [apply readonly_self|]. intros z.
  apply readonly_bind; [apply readonly_getArmingMode|]. intros current. cbv zeta.
  destruct (decide _); [apply readonly_ret|apply readonly_getOpenSensors_loop].
Qed.

(** ** Referring to a zone *)

Lemma getZoneIndex_loop_find (l : list IdeAlarmZone.t) (zoneName : string) (i : Z) :
  IdeAlarm.getZoneIndex_loop l (IdeAlarm.PyStr zoneName) i
  = (fun p => (i + Z.of_nat (fst p))%Z)
      <$> list_find (fun z => IdeAlarmZone.name z = zoneName) l.
Proof.
  revert i. induction l as [|z l IH]; intros i; [reflexivity|].
  cbn [IdeAlarm.getZoneIndex_loop list_find].
  destruct (decide (IdeAlarmZone.name z = zoneName)) as [He|Hne].
  - rewrite decide_True by now rewrite He. simpl. f_equal. lia.
  - rewrite decide_False by congruence. rewrite IH.
    destruct (list_find _ l) as [[k z']|]; simpl; [f_equal; lia|reflexivity].
Qed.

Lemma getZoneIndex_loop_int (l : list IdeAlarmZone.t) (n i : Z) :
  IdeAlarm.getZoneIndex_loop l (IdeAlarm.PyInt n) i = None.
Proof.
  revert i. induction l as [|z l IH]; intros i; [reflexivity|].
  cbn [IdeAlarm.getZoneIndex_loop]. rewrite decide_False by discriminate. apply IH.
Qed.

(** X18. [getZoneIndex] with a name returns the index of the first zone of
    that name, and [None] if no zone has it; with an integer it raises
    AttributeError, since no zone name equals an integer and the warning
    then decodes the argument.  The state is unchanged. *)
Theorem getZoneIndex_first (zones : list IdeAlarmZone.t) (w : World) :
  (∀ zoneName : string,
     IdeAlarm.getZoneIndex (IdeAlarm.PyStr zoneName) (zones, w)
     = Ok ((fun p => Z.of_nat (fst p))
             <$> list_find (fun z => IdeAlarmZone.name z = zoneName) zones) (zones, w))
  ∧ (∀ n : Z,
       IdeAlarm.getZoneIndex (IdeAlarm.PyInt n) (zones, w) = Raise AttributeError (zones, w)).
Proof.
  split.
  - intros zoneName. unfold IdeAlarm.getZoneIndex.
    erewrite bind_Ok by reflexivity. cbn [fst].
    rewrite getZoneIndex_loop_find.
    destruct (list_find _ zones) as [[k z]|]; reflexivity.
  - intros n. unfold IdeAlarm.getZoneIndex.
    erewrite bind_Ok by reflexivity. cbn [fst].
    now rewrite getZoneIndex_loop_int.
Qed.

(** The three queries of [IdeAlarm] share their way to the zone. *)
Lemma zone_query_Ok {A} (m : M IdeAlarmZone.St A) v (zones : list IdeAlarmZone.t)
    (w : World) (i : nat) z (a : A) :
  IdeAlarm.zoneIndexOf v (zones, w) = Ok (Some (Z.of_nat i)) (zones, w) ->
  zones !! i = Some z ->
  m (z, w) = Ok a (z, w) ->
  (zoneIndex ← IdeAlarm.zoneIndexOf v;
   zs ← IdeAlarm.alarmZones;
   pos ← IdeAlarm.subscript zs zoneIndex;
   IdeAlarm.onZone pos m) (zones, w) = Ok a (zones, w).
Proof.
  intros Hidx Hz Hm. pose proof (lookup_lt_Some _ _ _ Hz) as Hlt.
  erewrite bind_Ok by exact Hidx.
  erewrite bind_Ok by reflexivity. cbn [fst].
  erewrite (bind_Ok _ _ _ (zones, w) i).
  - unfold IdeAlarm.onZone. cbn [fst snd]. rewrite Hz, Hm. cbn [fst snd].
    now rewrite list_insert_id.
  - unfold IdeAlarm.subscript. rewrite decide_True by lia.
    unfold mret, M_ret. f_equal. lia.
Qed.

Lemma zone_query_no_zone {A} (m : M IdeAlarmZone.St A) v (zones : list IdeAlarmZone.t)
    (w : World) idx e :
  IdeAlarm.zoneIndexOf v (zones, w) = Ok idx (zones, w) ->
  IdeAlarm.subscript zones idx (zones, w) = Raise e (zones, w) ->
  (zoneIndex ← IdeAlarm.zoneIndexOf v;
   zs ← IdeAlarm.alarmZones;
   pos ← IdeAlarm.subscript zs zoneIndex;
   IdeAlarm.onZone pos m) (zones, w) = Raise e (zones, w).
Proof.
  intros Hidx Hsub.
  erewrite bind_Ok by exact Hidx.
  erewrite bind_Ok by reflexivity. cbn [fst].
  now erewrite bind_Raise by exact Hsub.
Qed.

Lemma zoneIndexOf_name (zoneName : string) (zones : list IdeAlarmZone.t) (w : World) :
  IdeAlarm.isdigit zoneName = false ->
  IdeAlarm.zoneIndexOf (IdeAlarm.PyStr zoneName) (zones, w)
  = Ok ((fun p => Z.of_nat (fst p))
          <$> list_find (fun z => IdeAlarmZone.name z = zoneName) zones) (zones, w).
Proof.
  intros Hd. unfold IdeAlarm.zoneIndexOf. cbn [IdeAlarm.py_str]. rewrite Hd.
  apply getZoneIndex_first.
Qed.

(** X19. A zone can be referred to by its name, if the name is not a
    string of digits: [getZoneStatus], [isArmed] and [isDisArmed] then
    answer for the first zone of that name, with its status, whether its
    arming mode differs from DISARMED, and whether it is DISARMED; the state
    is unchanged. *)
Theorem zone_query_by_name (zones : list IdeAlarmZone.t) (w : World)
    (zoneName : string) (i : nat) (z : IdeAlarmZone.t) :
  IdeAlarm.isdigit zoneName = false ->
  list_find (fun z => IdeAlarmZone.name z = zoneName) zones = Some (i, z) ->
  IdeAlarm.getZoneStatus (IdeAlarm.PyStr zoneName) (zones, w)
  = Ok (IdeAlarmZone._zoneStatus z) (zones, w)
  ∧ IdeAlarm.isArmed (IdeAlarm.PyStr zoneName) (zones, w)
    = Ok (bool_decide (IdeAlarmZone._armingMode z ≠ Some ARMINGMODE.DISARMED)) (zones, w)
  ∧ IdeAlarm.isDisArmed (IdeAlarm.PyStr zoneName) (zones, w)
    = Ok (negb (bool_decide (IdeAlarmZone._armingMode z ≠ Some ARMINGMODE.DISARMED)))
        (zones, w).
Proof.
  intros Hd Hfind.
  pose proof (zoneIndexOf_name zoneName zones w Hd) as Hidx.
  rewrite Hfind in Hidx. cbn [fmap option_fmap option_map fst] in Hidx.
  apply list_find_Some in Hfind as (Hz & _ & _).
  split; [|split].
  - exact (zone_query_Ok IdeAlarmZone.getZoneStatus _ _ _ _ _ _ Hidx Hz eq_refl).
  - exact (zone_query_Ok IdeAlarmZone.isArmed _ _ _ _ _ _ Hidx Hz eq_refl).
  - exact (zone_query_Ok IdeAlarmZone.isDisArmed _ _ _ _ _ _ Hidx Hz eq_refl).
Qed.

Lemma zone_query_by_name_witness :
  let zones := [Fixture.zone 1 "Perimeter" 1 0 0 [Fixture.frontDoor];
                Fixture.zone 2 "Annex" 0 3 0 [Fixture.frontDoor]] in
  let w := Fixture.estate CLOSED 1 0 in
  IdeAlarm.isdigit "Annex" = false
  ∧ list_find (fun z => IdeAlarmZone.name z = "Annex") zones
    = Some (1, Fixture.zone 2 "Annex" 0 3 0 [Fixture.frontDoor])
  ∧ IdeAlarm.getZoneStatus (IdeAlarm.PyStr "Annex") (zones, w)
    = Ok (Some ZONESTATUS.TRIPPED) (zones, w)
  ∧ IdeAlarm.isArmed (IdeAlarm.PyStr "Annex") (zones, w) = Ok false (zones, w).
Proof.
  intros zones w.
  assert (H1 : IdeAlarm.isdigit "Annex" = false) by reflexivity.
  assert (H2 : list_find (fun z => IdeAlarmZone.name z = "Annex") zones
               = Some (1, Fixture.zone 2 "Annex" 0 3 0 [Fixture.frontDoor]))
    by (vm_compute; reflexivity).
  destruct (zone_query_by_name zones w "Annex" 1 _ H1 H2) as (Hs & Ha & _).
  split; [exact H1|]. split; [exact H2|]. split; [exact Hs|exact Ha].
Defined.

(** X20. A name that no zone has, and that is not a string of digits, is
    an error of the caller: the three queries raise TypeError (the result
    [None] of [getZoneIndex] is used as a list index), leaving the state
    unchanged. *)
Theorem zone_query_unknown_name (zones : list IdeAlarmZone.t) (w : World)
    (zoneName : string) :
  IdeAlarm.isdigit zoneName = false ->
  (∀ z, z ∈ zones -> IdeAlarmZone.name z ≠ zoneName) ->
  IdeAlarm.getZoneStatus (IdeAlarm.PyStr zoneName) (zones, w) = Raise TypeError (zones, w)
  ∧ IdeAlarm.isArmed (IdeAlarm.PyStr zoneName) (zones, w) = Raise TypeError (zones, w)
  ∧ IdeAlarm.isDisArmed (IdeAlarm.PyStr zoneName) (zones, w) = Raise TypeError (zones, w).
Proof.
  intros Hd Hnone.
  pose proof (zoneIndexOf_name zoneName zones w Hd) as Hidx.
  assert (Hfind : list_find (fun z => IdeAlarmZone.name z = zoneName) zones = None).
  { apply list_find_None, Forall_forall. exact Hnone. }
  rewrite Hfind in Hidx. cbn [fmap option_fmap option_map] in Hidx.
  split; [|split].
  - exact (zone_query_no_zone IdeAlarmZone.getZoneStatus _ _ _ _ _ Hidx eq_refl).
  - exact (zone_query_no_zone IdeAlarmZone.isArmed _ _ _ _ _ Hidx eq_refl).
  - exact (zone_query_no_zone IdeAlarmZone.isDisArmed _ _ _ _ _ Hidx eq_refl).
Qed.

Lemma zone_query_unknown_name_witness :
  let zones := [Fixture.zone 1 "Perimeter" 1 0 0 [Fixture.frontDoor]] in
  let w := Fixture.house OFF CLOSED OFF 1 0 in
  IdeAlarm.isdigit "Garage" = false
  ∧ (∀ z, z ∈ zones -> IdeAlarmZone.name z ≠ "Garage")
  ∧ IdeAlarm.getZoneStatus (IdeAlarm.PyStr "Garage") (zones, w) = Raise TypeError (zones, w).
Proof.
  intros zones w.
  assert (H1 : IdeAlarm.isdigit "Garage" = false) by reflexivity.
  assert (H2 : ∀ z, z ∈ zones -> IdeAlarmZone.name z ≠ "Garage").
  { apply Forall_forall. repeat constructor. discriminate. }
  split; [exact H1|]. split; [exact H2|].
  exact (proj1 (zone_query_unknown_name zones w "Garage" H1 H2)).
Defined.

Lemma int_str (n : Z) (s : IdeAlarm.St) :
  (0 <= n)%Z -> IdeAlarm.int (IdeAlarm.PyStr (str n)) s = Ok n s.
Proof.
  intros Hn. unfold IdeAlarm.int, str. destruct n as [|p|p]; [reflexivity| |lia].
  cbn [Z.to_int NilEmpty.string_of_int]. rewrite NilEmpty.usu.
  unfold Z.of_uint. now rewrite DecimalPos.Unsigned.of_to.
Qed.

Lemma zoneIndexOf_ordinal (n : Z) v (s : IdeAlarm.St) :
  (0 <= n)%Z ->
  v = IdeAlarm.PyInt n ∨ v = IdeAlarm.PyStr (str n) ->
  IdeAlarm.zoneIndexOf v s = Ok (Some (n - 1)%Z) s.
Proof.
  intros Hn Hv. unfold IdeAlarm.zoneIndexOf.
  assert (Hd : IdeAlarm.isdigit (IdeAlarm.py_str v) = true).
  { destruct Hv as [-> | ->]; now apply isdigit_str. }
  rewrite Hd. destruct Hv as [-> | ->].
  - reflexivity.
  - erewrite bind_Ok by (apply int_str; exact Hn). reflexivity.
Qed.

Lemma zone_query_at {A} (m : M IdeAlarmZone.St A) v (zones : list IdeAlarmZone.t)
    (w : World) idx (pos : nat) z (a : A) :
  IdeAlarm.zoneIndexOf v (zones, w) = Ok idx (zones, w) ->
  IdeAlarm.subscript zones idx (zones, w) = Ok pos (zones, w) ->
  zones !! pos = Some z ->
  m (z, w) = Ok a (z, w) ->
  (zoneIndex ← IdeAlarm.zoneIndexOf v;
   zs ← IdeAlarm.alarmZones;
   pos ← IdeAlarm.subscript zs zoneIndex;
   IdeAlarm.onZone pos m) (zones, w) = Ok a (zones, w).
Proof.
  intros Hidx Hsub Hz Hm.
  erewrite bind_Ok by exact Hidx.
  erewrite bind_Ok by reflexivity. cbn [fst].
  erewrite bind_Ok by exact Hsub.
  unfold IdeAlarm.onZone. cbn [fst snd]. rewrite Hz, Hm. cbn [fst snd].
  now rewrite list_insert_id.
Qed.

(** X21. A zone can be referred to by its ordinal, as an integer or as
    its decimal string: the ordinal [i + 1] denotes the zone at index [i],
    and the ordinal 0 denotes the last zone (index -1 counts from the end).
    [getZoneStatus], [isArmed] and [isDisArmed] then answer for that zone,
    whatever the zones are named, and leave the state unchanged. *)
Theorem zone_query_by_ordinal (zones : list IdeAlarmZone.t) (w : World)
    (i : nat) (z : IdeAlarmZone.t) (n : Z) (v : IdeAlarm.PyVal) :
  zones !! i = Some z ->
  n = Z.of_nat (S i) ∨ (n = 0%Z ∧ S i = length zones) ->
  v = IdeAlarm.PyInt n ∨ v = IdeAlarm.PyStr (str n) ->
  IdeAlarm.getZoneStatus v (zones, w) = Ok (IdeAlarmZone._zoneStatus z) (zones, w)
  ∧ IdeAlarm.isArmed v (zones, w)
    = Ok (bool_decide (IdeAlarmZone._armingMode z ≠ Some ARMINGMODE.DISARMED)) (zones, w)
  ∧ IdeAlarm.isDisArmed v (zones, w)
    = Ok (negb (bool_decide (IdeAlarmZone._armingMode z ≠ Some ARMINGMODE.DISARMED)))
        (zones, w).
Proof.
  intros Hz Hn Hv. pose proof (lookup_lt_Some _ _ _ Hz) as Hlt.
  assert (Hn0 : (0 <= n)%Z) by (destruct Hn as [->|[-> _]]; lia).
  pose proof (zoneIndexOf_ordinal n v (zones, w) Hn0 Hv) as Hidx.
  assert (Hsub : IdeAlarm.subscript zones (Some (n - 1)%Z) (zones, w) = Ok i (zones, w)).
  { unfold IdeAlarm.subscript. destruct Hn as [->|[-> Hlast]].
    - rewrite decide_True by lia. unfold mret, M_ret. f_equal. lia.
    - rewrite decide_False by lia. rewrite decide_True by lia.
      unfold mret, M_ret. f_equal. lia. }
  split; [|split].
  - exact (zone_query_at IdeAlarmZone.getZoneStatus _ _ _ _ _ _ _ Hidx Hsub Hz eq_refl).
  - exact (zone_query_at IdeAlarmZone.isArmed _ _ _ _ _ _ _ Hidx Hsub Hz eq_refl).
  - exact (zone_query_at IdeAlarmZone.isDisArmed _ _ _ _ _ _ _ Hidx Hsub Hz eq_refl).
Qed.

Lemma zone_query_by_ordinal_witness :
  let zones := [Fixture.zone 1 "2" 1 0 0 [Fixture.frontDoor];
                Fixture.zone 2 "Annex" 0 3 0 [Fixture.frontDoor]] in
  let w := Fixture.estate CLOSED 1 0 in
  zones !! 1 = Some (Fixture.zone 2 "Annex" 0 3 0 [Fixture.frontDoor])
  ∧ (2%Z = Z.of_nat 2 ∨ (2%Z = 0%Z ∧ 2 = length zones))
  ∧ (IdeAlarm.PyStr "2" = IdeAlarm.PyInt 2 ∨ IdeAlarm.PyStr "2" = IdeAlarm.PyStr (str 2))
  ∧ IdeAlarm.getZoneStatus (IdeAlarm.PyStr "2") (zones, w)
    = Ok (Some ZONESTATUS.TRIPPED) (zones, w).
Proof.
  intros zones w.
  assert (H1 : zones !! 1 = Some (Fixture.zone 2 "Annex" 0 3 0 [Fixture.frontDoor]))
    by reflexivity.
  assert (H2 : 2%Z = Z.of_nat 2 ∨ (2%Z = 0%Z ∧ 2 = length zones)) by (left; reflexivity).
  assert (H3 : IdeAlarm.PyStr "2" = IdeAlarm.PyInt 2
               ∨ IdeAlarm.PyStr "2" = IdeAlarm.PyStr (str 2)) by (right; reflexivity).
  split; [exact H1|]. split; [exact H2|]. split; [exact H3|].
  exact (proj1 (zone_query_by_ordinal zones w 1 _ 2 _ H1 H2 H3)).
Defined.

(** X22. An ordinal beyond the number of zones is an error of the caller:
    the three queries raise IndexError and leave the state unchanged. *)
Theorem zone_query_out_of_range (zones : list IdeAlarmZone.t) (w : World)
    (n : Z) (v : IdeAlarm.PyVal) :
  (Z.of_nat (length zones) < n)%Z ->
  v = IdeAlarm.PyInt n ∨ v = IdeAlarm.PyStr (str n) ->
  IdeAlarm.getZoneStatus v (zones, w) = Raise IndexError (zones, w)
  ∧ IdeAlarm.isArmed v (zones, w) = Raise IndexError (zones, w)
  ∧ IdeAlarm.isDisArmed v (zones, w) = Raise IndexError (zones, w).
Proof.
  intros Hn Hv.
  assert (Hn0 : (0 <= n)%Z) by lia.
  pose proof (zoneIndexOf_ordinal n v (zones, w) Hn0 Hv) as Hidx.
  assert (Hsub : IdeAlarm.subscript zones (Some (n - 1)%Z) (zones, w)
                 = Raise IndexError (zones, w)).
  { unfold IdeAlarm.subscript. rewrite !decide_False by lia. reflexivity. }
  split; [|split].
  - exact (zone_query_no_zone IdeAlarmZone.getZoneStatus _ _ _ _ _ Hidx Hsub).
  - exact (zone_query_no_zone IdeAlarmZone.isArmed _ _ _ _ _ Hidx Hsub).
  - exact (zone_query_no_zone IdeAlarmZone.isDisArmed _ _ _ _ _ Hidx Hsub).
Qed.

Lemma zone_query_out_of_range_witness :
  let zones := [Fixture.zone 1 "Perimeter" 1 0 0 [Fixture.frontDoor]] in
  let w := Fixture.house OFF CLOSED OFF 1 0 in
  (Z.of_nat (length zones) < 2)%Z
  ∧ (IdeAlarm.PyInt 2 = IdeAlarm.PyInt 2 ∨ IdeAlarm.PyInt 2 = IdeAlarm.PyStr (str 2))
  ∧ IdeAlarm.isArmed (IdeAlarm.PyInt 2) (zones, w) = Raise IndexError (zones, w).
Proof.
  intros zones w.
  assert (H1 : (Z.of_nat (length zones) < 2)%Z) by reflexivity.
  assert (H2 : IdeAlarm.PyInt 2 = IdeAlarm.PyInt 2
               ∨ IdeAlarm.PyInt 2 = IdeAlarm.PyStr (str 2)) by (left; reflexivity).
  split; [exact H1|]. split; [exact H2|].
  exact (proj1 (proj2 (zone_query_out_of_range zones w 2 _ H1 H2))).
Defined.

(** X23. [isDisArmed] is the negation of [isArmed] for every way of
    referring to a zone: where one returns the other returns the opposite
    in the same state, and where one raises the other raises the same
    exception in the same state. *)
Theorem isDisArmed_negates_isArmed (zone : IdeAlarm.PyVal) (s : IdeAlarm.St) :
  IdeAlarm.isDisArmed zone s = (b ← IdeAlarm.isArmed zone; mret (negb b)) s.
Proof.
  unfold IdeAlarm.isDisArmed, IdeAlarm.isArmed, mbind, M_bind.
  destruct (IdeAlarm.zoneIndexOf zone s) as [idx s1|e s1]; [|reflexivity].
  destruct (IdeAlarm.alarmZones s1) as [zs s2|e s2]; [|reflexivity].
  destruct (IdeAlarm.subscript zs idx s2) as [pos s3|e s3]; [|reflexivity].
  unfold IdeAlarm.onZone. destruct (fst s3 !! pos) as [z|]; reflexivity.
Qed.
